(** * Daily_English_Phrases: the batch dispatch and deferred-retry engine

    A shallow embedding of [src/envio_frases2.py] (classes [MetricsCollector],
    [FailedUsersManager], [FraseDiariaManager] and the function [main]) and
    of [EmailService.enviar_correo] from [src/email_service.py], followed by
    the properties of the engine.

    Conventions of the embedding.
    - A Python value of type [Any] is a [pyval]; a [Dict[str, Any]] is a
      [gmap string pyval].  Values respect the type annotations of the
      source: a [usuario] and a [frase_data] are dicts.
    - A Python [int] is a [Z]; a Python [float] is a binary64 [float].
    - A [datetime] is the number of microseconds on the time line, a [Z];
      [timedelta(minutes=m)] is [m * 60 * 10^6].  The range limit of
      [datetime] (years 1 to 9999) is not modelled.
    - Code that can raise lives in the monad [M]: a computation takes the
      state of the process and of its files (a [world]) and returns the new
      world together with a value or the exception raised.  State changes
      made before an exception is raised are kept, as in Python.
    - What the process cannot decide itself (the transport, the clock, the
      thread scheduler, the file system and the database) is read from an
      environment [env], fixed for one run of the script.
    - The logger of [envio_frases2.py] is modelled for the records of level
      WARNING and above; the texts are given without emoji and accents. *)

From Stdlib Require Import ZArith String List Permutation.
From Stdlib Require Import Floats.PrimFloat Numbers.Cyclic.Int63.Uint63.
From stdpp Require Import base option list gmap strings.

Local Open Scope string_scope.
Local Open Scope list_scope.
Local Open Scope Z_scope.

(** ** Python values *)

Module Py.

#[warnings="-register-all"]
Inductive pyval : Type :=
| PNone
| PBool (b : bool)
| PInt (z : Z)
| PFloat (f : float)
| PStr (s : string)
| PList (l : list pyval)
| PDict (d : gmap string pyval).

(** [bool(v)] *)
Definition truthy (v : pyval) : bool :=
  match v with
  | PNone => false
  | PBool b => b
  | PInt z => negb (z =? 0)
  | PFloat f => negb (PrimFloat.eqb f 0%float)
  | PStr s => negb (String.eqb s "")
  | PList l => match l with [] => false | _ :: _ => true end
  | PDict d => negb (Nat.eqb (size d) 0)
  end.

(** An exception: its class and [str(e)]. *)
Record exn : Type := Exn { exn_class : string; exn_msg : string }.

Definition KeyError (k : string) : exn := Exn "KeyError" ("'" +:+ k +:+ "'").
Definition TypeError (msg : string) : exn := Exn "TypeError" msg.
Definition ValueError (msg : string) : exn := Exn "ValueError" msg.
Definition AttributeError (msg : string) : exn := Exn "AttributeError" msg.
Definition OSError (msg : string) : exn := Exn "OSError" msg.

Inductive res (A : Type) : Type :=
| Ok (a : A)
| Raise (e : exn).
Arguments Ok {A} a.
Arguments Raise {A} e.

(** [d[k]] on a dict *)
Definition getitem (d : gmap string pyval) (k : string) : res pyval :=
  match d !! k with
  | Some v => Ok v
  | None => Raise (KeyError k)
  end.

(** [d.get(k, default)] on a dict *)
Definition dict_get (d : gmap string pyval) (k : string) (default : pyval) : pyval :=
  match d !! k with
  | Some v => v
  | None => default
  end.

(** [k in d] on a dict *)
Definition has_key (k : string) (d : gmap string pyval) : bool :=
  match d !! k with
  | Some _ => true
  | None => false
  end.

(** [bool(d)] on a dict *)
Definition dict_truthy (d : gmap string pyval) : bool := truthy (PDict d).

(** A value that the annotations of the source declare to be a dict. *)
Definition as_dict (v : pyval) : res (gmap string pyval) :=
  match v with
  | PDict d => Ok d
  | _ => Raise (TypeError "not a dict")
  end.

(** [needle in hay] on strings: [needle] occurs in [hay] as a substring.
    A string is its sequence of UTF-8 bytes; for an ASCII [needle] the
    answer is the one on code points. *)
Fixpoint str_in (needle hay : string) : bool :=
  String.prefix needle hay
  || match hay with
     | EmptyString => false
     | String _ hay' => str_in needle hay'
     end.

(** [any(p(x) for x in l)] *)
Definition any {A} (p : A → bool) (l : list A) : bool := existsb p l.

(** [len(l)] *)
Definition len {A} (l : list A) : Z := Z.of_nat (length l).

(** [range(0, stop, step)] for [stop >= 0]: a zero step raises, a negative
    step gives the empty range. *)
Definition range0 (stop step : Z) : res (list Z) :=
  if step =? 0 then Raise (ValueError "range() arg 3 must not be zero")
  else if step <? 0 then Ok []
  else Ok (map (λ k : nat, Z.of_nat k * step)
               (seq 0 (Z.to_nat ((stop + step - 1) / step)))).

(** [l[i:j]] for [0 <= i <= j] *)
Definition slice {A} (l : list A) (i j : Z) : list A :=
  take (Z.to_nat (j - i)) (drop (Z.to_nat i) l).

(** [v[:n]] on a value: a string or a list can be sliced. *)
Definition slice_to (n : nat) (v : pyval) : res pyval :=
  match v with
  | PStr s => Ok (PStr (String.substring 0 n s))
  | PList l => Ok (PList (take n l))
  | _ => Raise (TypeError "object is not subscriptable")
  end.

(** [sum(l)] on floats, from the int 0, and [float(n)] for a length. *)
Definition fsum (l : list float) : float := fold_left PrimFloat.add l 0%float.
Definition float_of_len (n : nat) : float :=
  PrimFloat.of_uint63 (Uint63.of_Z (Z.of_nat n)).

End Py.
Export Py.

Abbreviation dict := (gmap string pyval).

(** [{'error': ..., 'is_network_error': ...}] with or without ['usuario'] *)
Definition error_dict (usuario : option dict) (error : string) (is_net : bool) : dict :=
  let d := <["error" := PStr error]> (<["is_network_error" := PBool is_net]> ∅) in
  match usuario with
  | Some u => <["usuario" := PDict u]> d
  | None => d
  end.

(** ** Configuration

    The four entries of [EMAIL_CONFIG] that the engine reads, each an
    [int(os.getenv(NAME, default))]. *)

Record config : Type := Config {
  max_retries : Z;
  batch_size : Z;
  max_workers : Z;
  retry_delay_minutes : Z
}.

(** [EMAIL_CONFIG] when none of [EMAIL_MAX_RETRIES], [EMAIL_BATCH_SIZE],
    [EMAIL_MAX_WORKERS] and [EMAIL_RETRY_DELAY_MINUTES] is set. *)
Definition default_config : config :=
  {| max_retries := 3; batch_size := 50; max_workers := 5; retry_delay_minutes := 30 |}.

(** [timedelta(minutes=m)] in microseconds *)
Definition timedelta_minutes (m : Z) : Z := m * 60 * 1000000.

(** ** MetricsCollector *)

Module MetricsCollector.

(** [self.metrics] while the run is in progress, with [self.start_time]. *)
Record metrics : Type := Metrics {
  start_time : float;
  total_usuarios : Z;
  exitosos : Z;
  fallidos : Z;
  reintentos_diferidos : Z;
  errores : list string;
  tiempo_promedio_envio : list float;
  errores_red : Z;
  otros_errores : Z
}.

(** [__init__], with the reading of [time.time()] *)
Definition init (now : float) : metrics :=
  {| start_time := now; total_usuarios := 0; exitosos := 0; fallidos := 0;
     reintentos_diferidos := 0; errores := []; tiempo_promedio_envio := [];
     errores_red := 0; otros_errores := 0 |}.

Definition add_success (tiempo_envio : float) (m : metrics) : metrics :=
  {| start_time := start_time m;
     total_usuarios := total_usuarios m;
     exitosos := exitosos m + 1;
     fallidos := fallidos m;
     reintentos_diferidos := reintentos_diferidos m;
     errores := errores m;
     tiempo_promedio_envio := tiempo_promedio_envio m ++ [tiempo_envio];
     errores_red := errores_red m;
     otros_errores := otros_errores m |}.

Definition add_failure (error : string) (is_network_error : bool) (m : metrics) : metrics :=
  {| start_time := start_time m;
     total_usuarios := total_usuarios m;
     exitosos := exitosos m;
     fallidos := fallidos m + 1;
     reintentos_diferidos := reintentos_diferidos m;
     errores := errores m ++ [error];
     tiempo_promedio_envio := tiempo_promedio_envio m;
     errores_red := if is_network_error then errores_red m + 1 else errores_red m;
     otros_errores := if is_network_error then otros_errores m else otros_errores m + 1 |}.

Definition add_deferred_retry (m : metrics) : metrics :=
  {| start_time := start_time m;
     total_usuarios := total_usuarios m;
     exitosos := exitosos m;
     fallidos := fallidos m;
     reintentos_diferidos := reintentos_diferidos m + 1;
     errores := errores m;
     tiempo_promedio_envio := tiempo_promedio_envio m;
     errores_red := errores_red m;
     otros_errores := otros_errores m |}.

Definition set_total_usuarios (total : Z) (m : metrics) : metrics :=
  {| start_time := start_time m;
     total_usuarios := total;
     exitosos := exitosos m;
     fallidos := fallidos m;
     reintentos_diferidos := reintentos_diferidos m;
     errores := errores m;
     tiempo_promedio_envio := tiempo_promedio_envio m;
     errores_red := errores_red m;
     otros_errores := otros_errores m |}.

(** The dict that [finalizar] returns: the entries of [self.metrics] with
    ['tiempo_total'] and ['tiempo_promedio_envio'] overwritten.  The mean is
    the int [0] when the list of durations is empty and a float otherwise. *)
Record snapshot : Type := Snapshot {
  counters : metrics;
  tiempo_total : float;
  tiempo_promedio : pyval
}.

(** [finalizar], with the reading of [time.time()].  It is called once on
    a collector: it replaces the list of durations by their mean. *)
Definition finalizar (now : float) (m : metrics) : snapshot :=
  {| counters := m;
     tiempo_total := PrimFloat.sub now (start_time m);
     tiempo_promedio :=
       match tiempo_promedio_envio m with
       | [] => PInt 0
       | _ :: _ =>
           PFloat (PrimFloat.div (fsum (tiempo_promedio_envio m))
                                 (float_of_len (length (tiempo_promedio_envio m))))
       end |}.

End MetricsCollector.

(** ** The state of a run and its environment *)

(** The record that [save_failed_users] writes as JSON. *)
Record retry_record : Type := RetryRecord {
  timestamp : Z;
  frase_data : dict;
  failed_users : list dict;
  retry_after : Z
}.

(** What [FAILED_USERS_FILE] holds when it exists: a record written by
    [save_failed_users], or bytes that [json.load] rejects (a write that
    stopped half-way).  The file has no other writer. *)
Inductive file_content : Type :=
| Corrupt
| Saved (r : retry_record).

Inductive level : Type := WARNING | ERROR | CRITICAL.

(** The calls that leave the process, in the order they are made. *)
Inductive event : Type :=
| EvPoolOpen (workers : Z)
| EvSend (frase usuario : dict)
| EvPoolJoin
| EvRegistro (frase_id usuario_id : pyval) (resultado : string) (descripcion : option string)
| EvLoad
| EvSave (failed : list dict) (frase : dict)
| EvClear.

Record world : Type := World {
  w_file : option file_content;
  w_metrics : MetricsCollector.metrics;
  w_events : list event;
  w_log : list (level * string)
}.

(** How a write of the retry file ends: [open] fails and the file is left
    as it was, or [json.dump] fails after [open] truncated the file. *)
Inductive write_outcome : Type :=
| WriteOk
| OpenFails (e : exn)
| DumpFails (e : exn).

(** The result of one worker, as its future holds it. *)
Abbreviation job_result := (res (option dict)).

Record env : Type := Env {
  (* the transport: [self.email_service.enviar_correo(frase_data, usuario)] *)
  e_send : dict → dict → res bool;
  (* [time.time() - start_time] around that call *)
  e_elapsed : dict → float;
  (* the order in which the pool runs the submitted workers, and the order
     in which [as_completed] yields their futures *)
  e_exec : list dict → list dict;
  e_done : list job_result → list job_result;
  (* [datetime.now()] in [load_failed_users] and, twice, in [save_failed_users] *)
  e_now_load : Z;
  e_now_stamp : Z;
  e_now_retry : Z;
  (* [time.time()] in [finalizar] *)
  e_time_end : float;
  (* the file system *)
  e_read_error : option exn;
  e_write : write_outcome;
  e_remove_error : option exn;
  (* [frase_service.obtener_frase_dia()] and [user_service.get_active_users()] *)
  e_frase_dia : res (option dict);
  e_active_users : res (list dict);
  (* [str(v)] inside an f-string *)
  e_str : pyval → string;
  (* [main]: what [FraseDiariaManager()] raises, if anything; [time.time()]
     in [MetricsCollector()]; [os.environ]; [int(s)], [None] for a
     ValueError; the log directory; [get_estadisticas_envios()] *)
  e_init_error : option exn;
  e_time_start : float;
  e_environ : gmap string string;
  e_int : string → option Z;
  e_log_dir_exists : bool;
  e_makedirs_error : option exn;
  e_stats_error : option exn
}.

(** ** The monad of effectful code *)

Definition M (A : Type) : Type := world → world * res A.

Definition ret {A} (a : A) : M A := λ w, (w, Ok a).

Definition bind {A B} (m : M A) (k : A → M B) : M B :=
  λ w, match m w with
       | (w', Ok a) => k a w'
       | (w', Raise e) => (w', Raise e)
       end.

Definition raise {A} (e : exn) : M A := λ w, (w, Raise e).

(** A pure computation that may raise. *)
Definition lift {A} (r : res A) : M A := λ w, (w, r).

(** [try: body  except Exception as e: handler(e)] *)
Definition try_except {A} (body : M A) (handler : exn → M A) : M A :=
  λ w, match body w with
       | (w', Ok a) => (w', Ok a)
       | (w', Raise e) => handler e w'
       end.

(** The outcome of a computation kept as a value: what a future stores. *)
Definition capture {A} (m : M A) : M (res A) :=
  λ w, let '(w', r) := m w in (w', Ok r).

Declare Scope py_scope.
Delimit Scope py_scope with py.
Notation "'let!' x ':=' m 'in' k" := (bind m (λ x, k))
  (at level 10, x name, m at level 100, k at level 200) : py_scope.
Notation "'run!' m 'in' k" := (bind m (λ _, k))
  (at level 10, m at level 100, k at level 200) : py_scope.
Local Open Scope py_scope.

(** The four ways in which code changes the world. *)
Definition add_event (ev : event) (w : world) : world :=
  {| w_file := w_file w; w_metrics := w_metrics w;
     w_events := w_events w ++ [ev]; w_log := w_log w |}.

Definition add_log (lv : level) (msg : string) (w : world) : world :=
  {| w_file := w_file w; w_metrics := w_metrics w;
     w_events := w_events w; w_log := w_log w ++ [(lv, msg)] |}.

Definition with_file (f : option file_content) (w : world) : world :=
  {| w_file := f; w_metrics := w_metrics w;
     w_events := w_events w; w_log := w_log w |}.

Definition with_metrics (f : MetricsCollector.metrics → MetricsCollector.metrics)
    (w : world) : world :=
  {| w_file := w_file w; w_metrics := f (w_metrics w);
     w_events := w_events w; w_log := w_log w |}.

Definition emit (ev : event) : M unit := λ w, (add_event ev w, Ok tt).

Definition log (lv : level) (msg : string) : M unit := λ w, (add_log lv msg w, Ok tt).

Definition get_file : M (option file_content) := λ w, (w, Ok (w_file w)).

Definition set_file (f : option file_content) : M unit := λ w, (with_file f w, Ok tt).

Definition get_metrics : M MetricsCollector.metrics := λ w, (w, Ok (w_metrics w)).

(** A method of [self.metrics] that updates the collector. *)
Definition update_metrics (f : MetricsCollector.metrics → MetricsCollector.metrics) : M unit :=
  λ w, (with_metrics f w, Ok tt).

(** [for x in l: body(x)] *)
Fixpoint for_each {A} (l : list A) (body : A → M unit) : M unit :=
  match l with
  | [] => ret tt
  | x :: l' => run! body x in for_each l' body
  end.

(** A loop that carries the lists it extends. *)
Fixpoint for_fold {A S} (l : list A) (s : S) (body : S → A → M S) : M S :=
  match l with
  | [] => ret s
  | x :: l' => let! s' := body s x in for_fold l' s' body
  end.

(** [[f(x) for x in l]] where [f] can raise *)
Fixpoint map_res {A B} (f : A → res B) (l : list A) : res (list B) :=
  match l with
  | [] => Ok []
  | x :: l' =>
      match f x with
      | Raise e => Raise e
      | Ok y => match map_res f l' with
                | Raise e => Raise e
                | Ok ys => Ok (y :: ys)
                end
      end
  end.

(** [[f(x) for x in l]] where [f] has effects *)
Fixpoint map_M {A B} (f : A → M B) (l : list A) : M (list B) :=
  match l with
  | [] => ret []
  | x :: l' => let! y := f x in let! ys := map_M f l' in ret (y :: ys)
  end.

(** ** EmailService.enviar_correo (src/email_service.py)

    [smtp intento frase_data usuario] stands for the body of one attempt
    after its first log line: [crear_mensaje] and the SMTP session.  Both
    handlers and the line after the loop format [usuario['email']]. *)

Module EmailService.

Section Transport.
Variable smtp : Z → dict → dict → res unit.
Variables frase_data usuario : dict.

Definition un_intento (intento : Z) : res unit :=
  match getitem usuario "email" with
  | Raise e => Raise e
  | Ok _ => smtp intento frase_data usuario
  end.

Fixpoint intentos (pendientes : list Z) : res bool :=
  match pendientes with
  | [] =>
      match getitem usuario "email" with
      | Raise e => Raise e
      | Ok _ => Ok false
      end
  | intento :: resto =>
      match un_intento intento with
      | Ok _ => Ok true
      | Raise _ =>
          match getitem usuario "email" with
          | Raise e => Raise e
          | Ok _ => intentos resto
          end
      end
  end.

(** [max_intentos = 3]; [range(1, max_intentos + 1)] *)
Definition enviar_correo : res bool := intentos [1; 2; 3].

End Transport.

End EmailService.

(** ** FailedUsersManager and FraseDiariaManager (src/envio_frases2.py) *)

Definition network_error_indicators : list string :=
  [ "Network is unreachable";
    "Connection refused";
    "Connection timed out";
    "Name or service not known";
    "Temporary failure in name resolution";
    "No route to host";
    "Connection reset by peer" ].

Definition is_network_error (error_msg : string) : bool :=
  any (λ indicator, str_in indicator error_msg) network_error_indicators.

(** [item.get('is_network_error', False)] as a condition *)
Definition marked_network (item : dict) : bool :=
  truthy (dict_get item "is_network_error" (PBool false)).

(** What the script returns from [procesar_envios]: the dict
    [{'success': False, 'error': ...}] or the summary of a run.  The entry
    ['tasa_exito'] (a rounded percentage) is left out. *)
Record resumen : Type := Resumen {
  r_is_retry : bool;
  r_frase_id : pyval;
  r_total_usuarios : Z;
  r_exitosos : Z;
  r_fallidos : Z;
  r_errores_red : option Z;
  r_otros_errores : option Z;
  r_usuarios_exitosos : list dict;
  r_usuarios_fallidos : list dict;
  r_frase : pyval;
  r_metricas : MetricsCollector.snapshot
}.

Inductive resultados : Type :=
| Fallo (error : string)
| Exito (r : resumen).

Section Manager.

Variable cfg : config.
Variable E : env.

(** A value interpolated in an f-string. *)
Definition fmt (v : pyval) : string :=
  match v with
  | PStr s => s
  | _ => e_str E v
  end.

(** *** FailedUsersManager *)

(** [open(path, 'w')] and [json.dump] *)
Definition write_file (data : retry_record) : M unit :=
  match e_write E with
  | WriteOk => set_file (Some (Saved data))
  | OpenFails e => raise e
  | DumpFails e => run! set_file (Some Corrupt) in raise e
  end.

(** [open(path, 'r')] and [json.load] on a file that exists *)
Definition read_file (c : file_content) : M retry_record :=
  match e_read_error E with
  | Some e => raise e
  | None =>
      match c with
      | Corrupt => raise (ValueError "JSONDecodeError")
      | Saved data => ret data
      end
  end.

(** [os.remove] on a file that exists *)
Definition remove_file : M unit :=
  match e_remove_error E with
  | Some e => raise e
  | None => set_file None
  end.

Definition save_failed_users (failed : list dict) (frase : dict) : M unit :=
  run! emit (EvSave failed frase) in
  let data := {| timestamp := e_now_stamp E;
                 frase_data := frase;
                 failed_users := failed;
                 retry_after := e_now_retry E + timedelta_minutes (retry_delay_minutes cfg) |} in
  try_except
    (write_file data)
    (λ e, log ERROR ("Error guardando usuarios fallidos: " +:+ exn_msg e)).

Definition load_failed_users : M (option retry_record) :=
  run! emit EvLoad in
  let! f := get_file in
  match f with
  | None => ret None
  | Some c =>
      try_except
        (let! data := read_file c in
         if retry_after data <=? e_now_load E
         then ret (Some data)
         else ret None)
        (λ e, run! log ERROR ("Error cargando usuarios fallidos: " +:+ exn_msg e) in
              ret None)
  end.

Definition clear_failed_users : M unit :=
  run! emit EvClear in
  try_except
    (let! f := get_file in
     match f with
     | Some _ => remove_file
     | None => ret tt
     end)
    (λ e, log ERROR ("Error limpiando archivo de usuarios fallidos: " +:+ exn_msg e)).

(** *** FraseDiariaManager *)

(** [frase_service.registrar_envio]: it catches every exception of the
    database, and its result is not used. *)
Definition registrar_envio (frase_id usuario_id : pyval) (resultado : string)
    (descripcion : option string) : M unit :=
  emit (EvRegistro frase_id usuario_id resultado descripcion).

Definition procesar_usuario (usuario frase : dict) (is_retry : bool) : M (option dict) :=
  try_except
    (run! emit (EvSend frase usuario) in
     let! enviado := lift (e_send E frase usuario) in
     if enviado : bool then
       run! update_metrics (MetricsCollector.add_success (e_elapsed E usuario)) in
       let! fid := lift (getitem frase "id") in
       let! uid := lift (getitem usuario "id") in
       run! registrar_envio fid uid (if is_retry then "exito_reintento" else "exito") None in
       ret (Some usuario)
     else ret None)
    (λ e,
     let! email := lift (getitem usuario "email") in
     let error_msg := "Error al enviar a " +:+ fmt email +:+ ": " +:+ exn_msg e in
     let is_net := is_network_error (exn_msg e) in
     run! log ERROR (error_msg +:+ " " +:+ (if is_net then "(Error de red)" else "")) in
     run! update_metrics (MetricsCollector.add_failure error_msg is_net) in
     let! fid := lift (getitem frase "id") in
     let! uid := lift (getitem usuario "id") in
     run! registrar_envio fid uid (if is_net then "error_red" else "error") (Some error_msg) in
     ret (Some (error_dict (Some usuario) error_msg is_net))).

(** The body of [for future in as_completed(futures)] *)
Definition recoger (acc : list dict * list dict) (future : job_result)
    : M (list dict * list dict) :=
  let '(exitosos_l, fallidos_l) := acc in
  match future with
  | Ok result =>
      match result with
      | Some r =>
          if dict_truthy r && negb (has_key "error" r) then ret (exitosos_l ++ [r], fallidos_l)
          else if dict_truthy r && has_key "error" r then ret (exitosos_l, fallidos_l ++ [r])
          else ret (exitosos_l, fallidos_l)
      | None => ret (exitosos_l, fallidos_l)
      end
  | Raise e =>
      run! log ERROR ("Error en procesamiento paralelo: " +:+ exn_msg e) in
      ret (exitosos_l, fallidos_l ++ [error_dict None (exn_msg e) false])
  end.

(** [ThreadPoolExecutor(max_workers=n)] refuses [n <= 0].  Each worker
    runs [procesar_usuario] to its end, in the order of the scheduler; a
    worker changes the shared collector once, under its lock. *)
Definition procesar_lote (usuarios : list dict) (frase : dict) (is_retry : bool)
    : M (list dict * list dict) :=
  if max_workers cfg <=? 0
  then raise (ValueError "max_workers must be greater than 0")
  else
    run! emit (EvPoolOpen (max_workers cfg)) in
    let! futures :=
      map_M (λ usuario, capture (procesar_usuario usuario frase is_retry))
            (e_exec E usuarios) in
    let! r := for_fold (e_done E futures) ([], []) recoger in
    run! emit EvPoolJoin in
    ret r.

(** [[item['usuario'] for item in items if item.get('is_network_error', False)]] *)
Definition usuarios_a_reintentar (items : list dict) : M (list dict) :=
  for_fold items [] (λ acc item,
    if marked_network item then
      let! v := lift (getitem item "usuario") in
      let! u := lift (as_dict v) in
      ret (acc ++ [u])
    else ret acc).

(** The body of [for i in range(0, len(failed_users), batch_size)] in
    [procesar_reintentos_diferidos] *)
Definition lote_reintento (reintentar : list dict) (frase : dict)
    (acc : list dict * list dict) (i : Z) : M (list dict * list dict) :=
  let '(usuarios_exitosos, usuarios_fallidos) := acc in
  let lote := slice reintentar i (i + batch_size cfg) in
  let! del_lote := procesar_lote lote frase true in
  let '(exitosos_lote, fallidos_lote) := del_lote in
  run! for_each exitosos_lote (λ _, update_metrics MetricsCollector.add_deferred_retry) in
  ret (usuarios_exitosos ++ exitosos_lote, usuarios_fallidos ++ fallidos_lote).

(** The body of [for i in range(0, len(usuarios_activos), batch_size)] in
    [procesar_envios] *)
Definition lote_envio (usuarios_activos : list dict) (frase : dict)
    (acc : list dict * list dict) (i : Z) : M (list dict * list dict) :=
  let '(usuarios_exitosos, usuarios_fallidos) := acc in
  let lote := slice usuarios_activos i (i + batch_size cfg) in
  let! del_lote := procesar_lote lote frase false in
  let '(exitosos_lote, fallidos_lote) := del_lote in
  ret (usuarios_exitosos ++ exitosos_lote, usuarios_fallidos ++ fallidos_lote).

Definition procesar_reintentos_diferidos : M resultados :=
  let! failed_data := load_failed_users in
  match failed_data with
  | None => ret (Fallo "No hay reintentos pendientes")
  | Some data =>
      let frase := frase_data data in
      let! reintentar := usuarios_a_reintentar (failed_users data) in
      match reintentar with
      | [] =>
          run! clear_failed_users in
          ret (Fallo "No hay errores de red para reintentar")
      | _ :: _ =>
          run! update_metrics (MetricsCollector.set_total_usuarios (len reintentar)) in
          let! starts := lift (range0 (len reintentar) (batch_size cfg)) in
          let! todos := for_fold starts ([], []) (lote_reintento reintentar frase) in
          let '(usuarios_exitosos, usuarios_fallidos) := todos in
          let network_failures := filter (λ item, marked_network item = true) usuarios_fallidos in
          run! (match network_failures with
                | _ :: _ => save_failed_users network_failures frase
                | [] => clear_failed_users
                end) in
          let! fid := lift (getitem frase "id") in
          let! texto := lift (getitem frase "frase") in
          let! corto := lift (slice_to 100 texto) in
          let! m := get_metrics in
          ret (Exito {| r_is_retry := true;
                        r_frase_id := fid;
                        r_total_usuarios := len reintentar;
                        r_exitosos := len usuarios_exitosos;
                        r_fallidos := len usuarios_fallidos;
                        r_errores_red := None;
                        r_otros_errores := None;
                        r_usuarios_exitosos := usuarios_exitosos;
                        r_usuarios_fallidos := usuarios_fallidos;
                        r_frase := corto;
                        r_metricas := MetricsCollector.finalizar (e_time_end E) m |})
      end
  end.

Definition procesar_envios : M resultados :=
  let! retry_result := procesar_reintentos_diferidos in
  match retry_result with
  | Exito _ => ret retry_result
  | Fallo _ =>
      let! frase_opt := lift (e_frase_dia E) in
      match frase_opt with
      | None =>
          run! log WARNING "No se encontro frase para hoy. Terminando proceso." in
          ret (Fallo "No hay frase para hoy")
      | Some frase =>
          if negb (dict_truthy frase) then
            run! log WARNING "No se encontro frase para hoy. Terminando proceso." in
            ret (Fallo "No hay frase para hoy")
          else
            let! usuarios_activos := lift (e_active_users E) in
            match usuarios_activos with
            | [] =>
                run! log WARNING "No hay usuarios activos para enviar emails." in
                ret (Fallo "No hay usuarios activos")
            | _ :: _ =>
                run! update_metrics
                       (MetricsCollector.set_total_usuarios (len usuarios_activos)) in
                let! texto := lift (getitem frase "frase") in
                let! _ := lift (slice_to 50 texto) in
                let! starts := lift (range0 (len usuarios_activos) (batch_size cfg)) in
                let! todos := for_fold starts ([], []) (lote_envio usuarios_activos frase) in
                let '(usuarios_exitosos, usuarios_fallidos) := todos in
                let network_failures :=
                  filter (λ item, marked_network item = true) usuarios_fallidos in
                let other_failures :=
                  filter (λ item, marked_network item = false) usuarios_fallidos in
                run! (match network_failures with
                      | _ :: _ =>
                          run! log WARNING "usuarios fallaron por errores de red. Programando reintento." in
                          save_failed_users network_failures frase
                      | [] => ret tt
                      end) in
                let! m := get_metrics in
                let metricas_finales := MetricsCollector.finalizar (e_time_end E) m in
                let! fid := lift (getitem frase "id") in
                let! texto := lift (getitem frase "frase") in
                let! corto := lift (slice_to 100 texto) in
                ret (Exito {| r_is_retry := false;
                              r_frase_id := fid;
                              r_total_usuarios := len usuarios_activos;
                              r_exitosos := len usuarios_exitosos;
                              r_fallidos := len usuarios_fallidos;
                              r_errores_red := Some (len network_failures);
                              r_otros_errores := Some (len other_failures);
                              r_usuarios_exitosos := usuarios_exitosos;
                              r_usuarios_fallidos := usuarios_fallidos;
                              r_frase := corto;
                              r_metricas := metricas_finales |})
            end
      end
  end.

(** [os.getenv(var)] *)
Definition getenv (var : string) : option string := e_environ E !! var.

Definition required_env : list string :=
  [ "EMAIL_USER"; "EMAIL_PASSWORD"; "DB_USER"; "DB_PASSWORD";
    "DB_HOST"; "DB_NAME"; "SMTP_SERVER"; "SMTP_PORT" ].

(** [not os.getenv(var)] *)
Definition falta (var : string) : bool :=
  match getenv var with
  | None => true
  | Some v => String.eqb v ""
  end.

Definition validar_configuracion : M bool :=
  let missing := List.filter falta required_env in
  match missing with
  | _ :: _ => run! log ERROR "Variables de entorno faltantes" in ret false
  | [] =>
      match e_int E (default "587" (getenv "SMTP_PORT")) with
      | None => run! log ERROR "Puerto SMTP debe ser un numero" in ret false
      | Some port =>
          if (port <=? 0) || (65535 <? port)
          then run! log ERROR "Puerto SMTP invalido" in ret false
          else if e_log_dir_exists E then ret true
          else
            match e_makedirs_error E with
            | Some e =>
                run! log ERROR ("No se pudo crear directorio de logs: " +:+ exn_msg e) in
                ret false
            | None => ret true
            end
      end
  end.

(** [u.get('tipo_suscripcion', '').lower()] *)
Definition tipo_lower (u : dict) : M unit :=
  match dict_get u "tipo_suscripcion" (PStr "") with
  | PStr _ => ret tt
  | _ => raise (AttributeError "object has no attribute 'lower'")
  end.

Definition generar_reporte (resultado : resultados) : M unit :=
  match resultado with
  | Fallo error => log ERROR ("PROCESO FALLO: " +:+ error)
  | Exito r =>
      run! for_each (r_usuarios_exitosos r) tipo_lower in
      let errores := MetricsCollector.errores (MetricsCollector.counters (r_metricas r)) in
      run! (match errores with
            | [] => ret tt
            | _ :: _ =>
                run! log WARNING "ERRORES ENCONTRADOS:" in
                run! for_each (take 10 errores) (λ error, log WARNING ("   - " +:+ error)) in
                if 10 <? len errores
                then log WARNING ("   ... y " +:+ e_str E (PInt (len errores - 10))
                                  +:+ " errores mas")
                else ret tt
            end) in
      try_except
        (match e_stats_error E with
         | Some e => raise e
         | None => ret tt
         end)
        (λ e, log WARNING ("No se pudieron obtener estadisticas adicionales: " +:+ exn_msg e))
  end.

(** [main()]: the value it returns is the exit code of the process. *)
Definition main : M Z :=
  try_except
    (run! (match e_init_error E with
           | Some e => raise e
           | None => update_metrics (λ _, MetricsCollector.init (e_time_start E))
           end) in
     let! valida := validar_configuracion in
     if negb valida then
       run! log ERROR "Configuracion invalida. Terminando proceso." in
       ret 1
     else
       let! resultado := procesar_envios in
       run! generar_reporte resultado in
       match resultado with
       | Exito r =>
           if r_exitosos r =? r_total_usuarios r then ret 0
           else if 0 <? r_exitosos r then ret 0
           else
             run! log ERROR "PROCESO FALLO COMPLETAMENTE. No se pudo enviar a ningun usuario." in
             ret 1
       | Fallo _ =>
           run! log ERROR "PROCESO FALLO. Ver detalles arriba." in
           ret 1
       end)
    (λ e, run! log CRITICAL ("ERROR CRITICO EN MAIN: " +:+ exn_msg e) in ret 1).

End Manager.

(** ** Auxiliary definitions for the statements *)

(** The calls made on a [MetricsCollector] during a run, in the order in
    which they take the lock. *)
Inductive metric_call : Type :=
| CallSuccess (tiempo_envio : float)
| CallFailure (error : string) (is_network_error : bool)
| CallDeferredRetry
| CallSetTotal (total : Z).

Definition apply_call (m : MetricsCollector.metrics) (c : metric_call) : MetricsCollector.metrics :=
  match c with
  | CallSuccess t => MetricsCollector.add_success t m
  | CallFailure error net => MetricsCollector.add_failure error net m
  | CallDeferredRetry => MetricsCollector.add_deferred_retry m
  | CallSetTotal n => MetricsCollector.set_total_usuarios n m
  end.

Definition apply_calls (cs : list metric_call) (m : MetricsCollector.metrics) : MetricsCollector.metrics :=
  fold_left apply_call cs m.

(** The durations recorded by the calls, the failures, the transient ones. *)
Definition durations (cs : list metric_call) : list float :=
  omap (λ c, match c with CallSuccess t => Some t | _ => None end) cs.
Definition failures (cs : list metric_call) : list bool :=
  omap (λ c, match c with CallFailure _ net => Some net | _ => None end) cs.

(** A computation is [local] when it leaves the retry file alone and its
    effect on any world is to make the calls [cs] on the collector, to
    append the events [evs] and the log records [logs], and to end with [r]. *)
Definition apply_delta (cs : list metric_call) (evs : list event)
    (logs : list (level * string)) (w : world) : world :=
  {| w_file := w_file w;
     w_metrics := apply_calls cs (w_metrics w);
     w_events := w_events w ++ evs;
     w_log := w_log w ++ logs |}.

Definition local {A} (m : M A) (cs : list metric_call) (evs : list event)
    (logs : list (level * string)) (r : res A) : Prop :=
  ∀ w, m w = (apply_delta cs evs logs w, r).

(** The events of the worker pool, and those of the retry store. *)
Definition is_pool_event (ev : event) : bool :=
  match ev with
  | EvPoolOpen _ | EvSend _ _ | EvPoolJoin => true
  | _ => false
  end.

Definition is_store_event (ev : event) : bool :=
  match ev with
  | EvLoad | EvSave _ _ | EvClear => true
  | _ => false
  end.

Definition is_registro (ev : event) : bool :=
  match ev with
  | EvRegistro _ _ _ _ => true
  | _ => false
  end.

Definition pool_trace (evs : list event) : list event := List.filter is_pool_event evs.
Definition store_trace (evs : list event) : list event := List.filter is_store_event evs.

(** The users to whom a send was attempted, in order. *)
Definition sends (evs : list event) : list dict :=
  omap (λ ev, match ev with EvSend _ u => Some u | _ => None end) evs.

Definition blank : world :=
  {| w_file := None; w_metrics := MetricsCollector.init 0%float;
     w_events := []; w_log := [] |}.

(** What the future of the worker for [usuario] holds. *)
Definition job_result_of (E : env) (frase : dict) (is_retry : bool) (usuario : dict)
    : job_result :=
  (procesar_usuario E usuario frase is_retry blank).2.

(** The same for a usuario with an ['id'] and an ['email'], when the frase
    has an ['id']: the three ways the transport can end. *)
Definition job_msg (E : env) (usuario : dict) (e : exn) : string :=
  "Error al enviar a " +:+ fmt E (default PNone (usuario !! "email"))
  +:+ ": " +:+ exn_msg e.

Definition outcome (E : env) (frase usuario : dict) : job_result :=
  match e_send E frase usuario with
  | Ok true => Ok (Some usuario)
  | Ok false => Ok None
  | Raise e =>
      Ok (Some (error_dict (Some usuario) (job_msg E usuario e)
                           (is_network_error (exn_msg e))))
  end.

(** The two lists that [procesar_lote] builds from the futures. *)
Definition exito_de (future : job_result) : option dict :=
  match future with
  | Ok (Some r) => if dict_truthy r && negb (has_key "error" r) then Some r else None
  | _ => None
  end.

Definition fallo_de (future : job_result) : option dict :=
  match future with
  | Ok (Some r) => if dict_truthy r && has_key "error" r then Some r else None
  | Ok None => None
  | Raise e => Some (error_dict None (exn_msg e) false)
  end.

Definition lote_result (E : env) (frase : dict) (is_retry : bool) (lote : list dict)
    : list dict * list dict :=
  let futures := e_done E (map (job_result_of E frase is_retry) (e_exec E lote)) in
  (omap exito_de futures, omap fallo_de futures).

(** The pool events of one batch. *)
Definition lote_trace (cfg : config) (E : env) (frase : dict) (lote : list dict)
    : list event :=
  EvPoolOpen (max_workers cfg) :: map (EvSend frase) (e_exec E lote) ++ [EvPoolJoin].

(** The batches of a list: [usuarios[i:i + batch_size]] for [i] in the range. *)
Definition lotes (cfg : config) (usuarios : list dict) : list (list dict) :=
  match range0 (len usuarios) (batch_size cfg) with
  | Ok starts => map (λ i, slice usuarios i (i + batch_size cfg)) starts
  | Raise _ => []
  end.

(** The successes and the failures of a dispatch over all the batches. *)
Definition despacho (cfg : config) (E : env) (frase : dict) (is_retry : bool)
    (usuarios : list dict) : list dict * list dict :=
  (flat_map (λ lote, (lote_result E frase is_retry lote).1) (lotes cfg usuarios),
   flat_map (λ lote, (lote_result E frase is_retry lote).2) (lotes cfg usuarios)).

(** A scheduler runs and completes each submitted worker once. *)
Definition sched_ok (E : env) : Prop :=
  (∀ l, e_exec E l ≡ₚ l) ∧ (∀ l, e_done E l ≡ₚ l).

(** A usuario as [get_active_users] returns it: it has an ['id'] and an
    ['email'], and no entry called ['error']. *)
Definition usuario_ok (usuario : dict) : Prop :=
  is_Some (usuario !! "id") ∧ is_Some (usuario !! "email") ∧ usuario !! "error" = None.

(** Whether the transport reported success for a usuario, and the failure
    record of a usuario for whom it raised. *)
Definition enviado (E : env) (frase usuario : dict) : bool :=
  match e_send E frase usuario with
  | Ok true => true
  | _ => false
  end.

Definition fallo_registrado (E : env) (frase usuario : dict) : option dict :=
  match e_send E frase usuario with
  | Raise e =>
      Some (error_dict (Some usuario) (job_msg E usuario e) (is_network_error (exn_msg e)))
  | Ok _ => None
  end.

(** [item['usuario']] of a failure record, when it is there. *)
Definition usuario_de (item : dict) : option dict :=
  match item !! "usuario" with
  | Some (PDict u) => Some u
  | _ => None
  end.

(** The retry file after [save_failed_users] and after [clear_failed_users]. *)
Definition file_after_save (cfg : config) (E : env) (failed : list dict) (frase : dict)
    (prev : option file_content) : option file_content :=
  match e_write E with
  | WriteOk =>
      Some (Saved {| timestamp := e_now_stamp E;
                     frase_data := frase;
                     failed_users := failed;
                     retry_after := e_now_retry E
                                    + timedelta_minutes (retry_delay_minutes cfg) |})
  | OpenFails _ => prev
  | DumpFails _ => Some Corrupt
  end.

Definition file_after_clear (E : env) (prev : option file_content) : option file_content :=
  match prev, e_remove_error E with
  | Some _, None => None
  | _, _ => prev
  end.

(** The users that [procesar_reintentos_diferidos] takes from a record. *)
Definition reintentables (items : list dict) : res (list dict) :=
  (usuarios_a_reintentar items blank).2.

(** ** Example data

    Three users as [get_active_users] returns them, a frase, an exception
    of the transport, and an environment in which everything but the
    transport works: the pool runs the workers in reverse order of
    submission and the environment variables are all set. *)

Definition usuario_ejemplo (id : Z) (email nombre : string) : dict :=
  <["id" := PInt id]>
    (<["email" := PStr email]>
       (<["nombre" := PStr nombre]>
          (<["tipo_suscripcion" := PStr "gratuito"]> ∅))).

Definition ana : dict := usuario_ejemplo 14 "ana@example.com" "Ana".
Definition bruno : dict := usuario_ejemplo 9 "bruno@example.com" "Bruno".
Definition carla : dict := usuario_ejemplo 8 "carla@example.com" "Carla".

Definition frase_ejemplo : dict :=
  <["id" := PInt 31]>
    (<["frase" := PStr "Sleep on it..."]>
       (<["traduccion" := PStr "Consultalo con la almohada..."]> ∅)).

Definition red_inalcanzable : exn := Exn "OSError" "[Errno 101] Network is unreachable".

Definition environ_ejemplo : gmap string string :=
  list_to_map
    [ ("EMAIL_USER", "frases@example.com"); ("EMAIL_PASSWORD", "secreto");
      ("DB_USER", "frases"); ("DB_PASSWORD", "secreto"); ("DB_HOST", "localhost");
      ("DB_NAME", "frases"); ("SMTP_SERVER", "smtp.example.com"); ("SMTP_PORT", "587") ].

Definition env_ejemplo (send : dict → dict → res bool) (frase : option dict)
    (usuarios : list dict) (now : Z) : env :=
  {| e_send := send;
     e_elapsed := λ _, 1.5%float;
     e_exec := λ l, rev l;
     e_done := λ l, l;
     e_now_load := now;
     e_now_stamp := now;
     e_now_retry := now;
     e_time_end := 10%float;
     e_read_error := None;
     e_write := WriteOk;
     e_remove_error := None;
     e_frase_dia := Ok frase;
     e_active_users := Ok usuarios;
     e_str := λ _, "?";
     e_init_error := None;
     e_time_start := 0%float;
     e_environ := environ_ejemplo;
     e_int := λ s, if String.eqb s "587" then Some 587 else None;
     e_log_dir_exists := true;
     e_makedirs_error := None;
     e_stats_error := None |}.

(** A transport that raises "Network is unreachable" for every usuario,
    one that delivers to every usuario, and an SMTP server that refuses
    every attempt. *)
Definition sin_red : dict → dict → res bool := λ _ _, Raise red_inalcanzable.
Definition con_red : dict → dict → res bool := λ _ _, Ok true.
Definition smtp_caido : Z → dict → dict → res unit :=
  λ _ _ _, Raise (Exn "SMTPException" "Connection unexpectedly closed").

(** One minute, in microseconds. *)
Definition minuto : Z := 60 * 1000000.

(** The world once [FraseDiariaManager()] has built its collector, and
    the answer of [validar_configuracion]. *)
Definition inicio (E : env) (w : world) : world :=
  with_metrics (λ _, MetricsCollector.init (e_time_start E)) w.

Definition config_valida (E : env) : bool :=
  match (validar_configuracion E blank).2 with
  | Ok valida => valida
  | Raise _ => false
  end.

(** A record that is due half an hour after instant 0, and a world whose
    retry file holds it. *)
Definition registro_ejemplo : retry_record :=
  {| timestamp := 0;
     frase_data := frase_ejemplo;
     failed_users := [error_dict (Some ana) "Error al enviar a ana@example.com: [Errno 101] Network is unreachable" true];
     retry_after := 30 * minuto |}.

Definition mundo_con_registro : world := with_file (Some (Saved registro_ejemplo)) blank.


(** The summary a run ended with, if it ended with one. *)
Definition resumen_de (run : world * res resultados) : option resumen :=
  match run.2 with
  | Ok (Exito r) => Some r
  | _ => None
  end.

(** ** Further definitions for the statements *)

(** The counters of a collector agree with each other and with its lists. *)
Definition coherente (m : MetricsCollector.metrics) : Prop :=
  MetricsCollector.fallidos m
    = MetricsCollector.errores_red m + MetricsCollector.otros_errores m
  ∧ MetricsCollector.fallidos m = len (MetricsCollector.errores m)
  ∧ MetricsCollector.exitosos m = len (MetricsCollector.tiempo_promedio_envio m)
  ∧ 0 ≤ MetricsCollector.errores_red m
  ∧ 0 ≤ MetricsCollector.otros_errores m
  ∧ 0 ≤ MetricsCollector.reintentos_diferidos m.

(** An environment with another outcome of the writes of the retry file. *)
Definition con_escritura (o : write_outcome) (E : env) : env :=
  {| e_send := e_send E;
     e_elapsed := e_elapsed E;
     e_exec := e_exec E;
     e_done := e_done E;
     e_now_load := e_now_load E;
     e_now_stamp := e_now_stamp E;
     e_now_retry := e_now_retry E;
     e_time_end := e_time_end E;
     e_read_error := e_read_error E;
     e_write := o;
     e_remove_error := e_remove_error E;
     e_frase_dia := e_frase_dia E;
     e_active_users := e_active_users E;
     e_str := e_str E;
     e_init_error := e_init_error E;
     e_time_start := e_time_start E;
     e_environ := e_environ E;
     e_int := e_int E;
     e_log_dir_exists := e_log_dir_exists E;
     e_makedirs_error := e_makedirs_error E;
     e_stats_error := e_stats_error E |}.

(** ** More of src/email_service.py and the module level of
    src/envio_frases2.py

    [EmailService._validar_configuracion], [EmailService.enviar_correo]
    with its waits, [EmailService.enviar_masivo], the dict [EMAIL_CONFIG]
    and [FraseDiariaManager.get_config]. *)

(** [r] and then [k], for code that can raise and has no other effect. *)
Definition and_then {A B} (r : res A) (k : A → res B) : res B :=
  match r with
  | Ok a => k a
  | Raise e => Raise e
  end.

(** A value that the source obtained from [int(...)]. *)
Definition as_int (v : pyval) : res Z :=
  match v with
  | PInt z => Ok z
  | _ => Raise (TypeError "not an int")
  end.

Module EmailServiceExt.

Definition required_keys : list string := ["user"; "password"; "smtp_server"; "smtp_port"].

(** The loop of [_validar_configuracion] over the keys still to check:
    [if not self.config.get(key): raise ValueError(...)]. *)
Fixpoint validar_claves (config : dict) (keys : list string) : res unit :=
  match keys with
  | [] => Ok tt
  | key :: resto =>
      if negb (truthy (dict_get config key PNone))
      then Raise (ValueError ("Configuracion de email incompleta: falta " +:+ key))
      else validar_claves config resto
  end.

Definition _validar_configuracion (config : dict) : res unit :=
  validar_claves config required_keys.

(** What [enviar_correo] does besides logging: a call of the body of an
    attempt ([crear_mensaje] and the SMTP session) and [time.sleep]. *)
Inductive accion : Type :=
| Intento (intento : Z)
| Dormir (segundos : Z).

Definition max_intentos : Z := 3.

Section Transport.
Variable smtp : Z → dict → dict → res unit.
Variables frase_data usuario : dict.

(** The loop [for intento in range(1, max_intentos + 1)] over the attempts
    still to make, with the actions it performs.  The first line of the
    [try], both handlers and the line after the loop format
    [usuario['email']]; both handlers wait [intento * 2] seconds when
    [intento < max_intentos]. *)
Fixpoint intentos_con_esperas (pendientes : list Z) : list accion * res bool :=
  match pendientes with
  | [] =>
      match getitem usuario "email" with
      | Raise e => ([], Raise e)
      | Ok _ => ([], Ok false)
      end
  | intento :: resto =>
      match getitem usuario "email" with
      | Raise e => ([], Raise e)
      | Ok _ =>
          match smtp intento frase_data usuario with
          | Ok _ => ([Intento intento], Ok true)
          | Raise _ =>
              let espera :=
                if intento <? max_intentos then [Dormir (intento * 2)] else [] in
              let '(acciones, r) := intentos_con_esperas resto in
              (Intento intento :: espera ++ acciones, r)
          end
      end
  end.

Definition enviar_correo_acciones : list accion * res bool :=
  intentos_con_esperas [1; 2; 3].

End Transport.

(** What [enviar_masivo] does besides logging: a call of [enviar_correo]
    and [time.sleep(1)]. *)
Inductive paso : Type :=
| Enviar (usuario : dict)
| Pausa (segundos : Z).

(** The dict [{'exitosos': ..., 'fallidos': ..., 'total': ...}]. *)
Record conteo : Type := Conteo { c_exitosos : Z; c_fallidos : Z; c_total : Z }.

Section Masivo.
Variable smtp : Z → dict → dict → res unit.
Variable frase_data : dict.

(** The loop [for i, usuario in enumerate(usuarios, 1)] from index [i] on,
    over the users still to process; [total] is [len(usuarios)]. *)
Fixpoint masivo_desde (i : Z) (pendientes : list dict) (resultados : conteo)
    : list paso * res conteo :=
  match pendientes with
  | [] => ([], Ok resultados)
  | usuario :: resto =>
      match getitem usuario "email" with
      | Raise e => ([], Raise e)
      | Ok _ =>
          match EmailService.enviar_correo smtp frase_data usuario with
          | Raise e => ([Enviar usuario], Raise e)
          | Ok enviado =>
              let resultados' :=
                if enviado
                then {| c_exitosos := c_exitosos resultados + 1;
                        c_fallidos := c_fallidos resultados;
                        c_total := c_total resultados |}
                else {| c_exitosos := c_exitosos resultados;
                        c_fallidos := c_fallidos resultados + 1;
                        c_total := c_total resultados |} in
              let pausa := if i <? c_total resultados then [Pausa 1] else [] in
              let '(pasos, r) := masivo_desde (i + 1) resto resultados' in
              (Enviar usuario :: pausa ++ pasos, r)
          end
      end
  end.

Definition enviar_masivo (usuarios : list dict) : list paso * res conteo :=
  masivo_desde 1 usuarios {| c_exitosos := 0; c_fallidos := 0; c_total := len usuarios |}.

End Masivo.

(** The attempts made and the seconds slept in a list of actions. *)
Definition numero_de_intentos (acciones : list accion) : Z :=
  len (List.filter (λ a, match a with Intento _ => true | Dormir _ => false end) acciones).

Definition segundos_de_espera (acciones : list accion) : Z :=
  fold_right (λ a s, match a with Dormir n => n + s | Intento _ => s end) 0 acciones.

(** The users to whom [enviar_masivo] sent, and the number of its pauses. *)
Definition enviados (pasos : list paso) : list dict :=
  omap (λ p, match p with Enviar u => Some u | Pausa _ => None end) pasos.

Definition pausas (pasos : list paso) : Z :=
  len (List.filter (λ p, match p with Pausa _ => true | Enviar _ => false end) pasos).

End EmailServiceExt.

(** [os.getenv(var)] and [os.getenv(var, default)] as values, and
    [int(os.getenv(var, default))]. *)
Definition getenv_val (E : env) (var : string) : pyval :=
  match e_environ E !! var with
  | Some v => PStr v
  | None => PNone
  end.

Definition getenv_default (E : env) (var por_defecto : string) : string :=
  default por_defecto (e_environ E !! var).

Definition int_getenv (E : env) (var por_defecto : string) : res pyval :=
  match e_int E (getenv_default E var por_defecto) with
  | Some n => Ok (PInt n)
  | None => Raise (ValueError "invalid literal for int() with base 10")
  end.

(** The dict [EMAIL_CONFIG], built when the module is imported. *)
Definition EMAIL_CONFIG (E : env) : res dict :=
  and_then (int_getenv E "SMTP_PORT" "587") (λ smtp_port,
  and_then (int_getenv E "EMAIL_MAX_RETRIES" "3") (λ max_retries,
  and_then (int_getenv E "EMAIL_BATCH_SIZE" "50") (λ batch_size,
  and_then (int_getenv E "EMAIL_MAX_WORKERS" "5") (λ max_workers,
  and_then (int_getenv E "EMAIL_RETRY_DELAY_MINUTES" "30") (λ retry_delay_minutes,
  Ok (<["user" := getenv_val E "EMAIL_USER"]>
     (<["password" := getenv_val E "EMAIL_PASSWORD"]>
     (<["smtp_server" := PStr (getenv_default E "SMTP_SERVER" "smtp.gmail.com")]>
     (<["smtp_port" := smtp_port]>
     (<["max_retries" := max_retries]>
     (<["batch_size" := batch_size]>
     (<["max_workers" := max_workers]>
     (<["retry_delay_minutes" := retry_delay_minutes]> ∅))))))))))))).

(** [get_config]: the four entries of [EMAIL_CONFIG] that the engine reads. *)
Definition get_config (email_config : dict) : res config :=
  and_then (and_then (getitem email_config "max_retries") as_int) (λ mr,
  and_then (and_then (getitem email_config "batch_size") as_int) (λ bs,
  and_then (and_then (getitem email_config "max_workers") as_int) (λ mw,
  and_then (and_then (getitem email_config "retry_delay_minutes") as_int) (λ rd,
  Ok {| max_retries := mr; batch_size := bs; max_workers := mw;
        retry_delay_minutes := rd |})))).

(** Whether [enviar_correo] answers True for a usuario. *)
Definition entregado (smtp : Z → dict → dict → res unit) (frase usuario : dict) : bool :=
  match EmailService.enviar_correo smtp frase usuario with
  | Ok true => true
  | _ => false
  end.

(** The sends of a trace with the frase they carried. *)
Definition envios (evs : list event) : list (dict * dict) :=
  omap (λ ev, match ev with EvSend f u => Some (f, u) | _ => None end) evs.

(** An environment with another answer of the database for the frase of
    the day and for the active users. *)
Definition con_hoy (frase : res (option dict)) (usuarios : res (list dict)) (E : env) : env :=
  {| e_send := e_send E;
     e_elapsed := e_elapsed E;
     e_exec := e_exec E;
     e_done := e_done E;
     e_now_load := e_now_load E;
     e_now_stamp := e_now_stamp E;
     e_now_retry := e_now_retry E;
     e_time_end := e_time_end E;
     e_read_error := e_read_error E;
     e_write := e_write E;
     e_remove_error := e_remove_error E;
     e_frase_dia := frase;
     e_active_users := usuarios;
     e_str := e_str E;
     e_init_error := e_init_error E;
     e_time_start := e_time_start E;
     e_environ := e_environ E;
     e_int := e_int E;
     e_log_dir_exists := e_log_dir_exists E;
     e_makedirs_error := e_makedirs_error E;
     e_stats_error := e_stats_error E |}.

(** Whether the send to a usuario raised an exception that
    [is_network_error] classifies as a network error. *)
Definition fallo_de_red (E : env) (frase usuario : dict) : bool :=
  match e_send E frase usuario with
  | Raise e => is_network_error (exn_msg e)
  | Ok _ => false
  end.

(** ** The first version of the script (src/envio_frases.py)

    [FraseDiariaManager.procesar_envios] of [envio_frases.py]: one loop
    over the active users, without batches, threads, metrics or retry
    file.  No exception is caught inside it. *)

Module EnvioFrases.

Record resumen : Type := Resumen {
  r_frase_id : pyval;
  r_total_usuarios : Z;
  r_exitosos : Z;
  r_fallidos : Z;
  r_usuarios_exitosos : list dict;
  r_usuarios_fallidos : list dict;
  r_frase : pyval
}.

Inductive resultados : Type :=
| Fallo (error : string)
| Exito (r : resumen).

Definition error_envio : string := "Error en el envio despues de multiples intentos".

(** [{'usuario': usuario, 'error': ...}] *)
Definition fallo (usuario : dict) : dict :=
  <["usuario" := PDict usuario]> (<["error" := PStr error_envio]> ∅).

Section Script.
Variable E : env.

(** The body of [for i, usuario in enumerate(usuarios_activos, 1)].  The
    log line formats [usuario['email']] and [tipo_suscripcion.title()]. *)
Definition un_usuario (frase : dict) (acc : list dict * list dict) (usuario : dict)
    : M (list dict * list dict) :=
  let '(usuarios_exitosos, usuarios_fallidos) := acc in
  let tipo_suscripcion := dict_get usuario "tipo_suscripcion" (PStr "gratuito") in
  let! _ := lift (getitem usuario "email") in
  let! _ := lift (match tipo_suscripcion with
                  | PStr _ => Ok tt
                  | _ => Raise (AttributeError "object has no attribute 'title'")
                  end) in
  run! emit (EvSend frase usuario) in
  let! enviado := lift (e_send E frase usuario) in
  if enviado : bool then
    let! fid := lift (getitem frase "id") in
    let! uid := lift (getitem usuario "id") in
    run! registrar_envio fid uid "exito" None in
    ret (usuarios_exitosos ++ [usuario], usuarios_fallidos)
  else
    let! fid := lift (getitem frase "id") in
    let! uid := lift (getitem usuario "id") in
    run! registrar_envio fid uid "error" (Some error_envio) in
    ret (usuarios_exitosos, usuarios_fallidos ++ [fallo usuario]).

Definition procesar_envios : M resultados :=
  let! frase_opt := lift (e_frase_dia E) in
  match frase_opt with
  | None =>
      run! log WARNING "No se encontro frase para hoy. Terminando proceso." in
      ret (Fallo "No hay frase para hoy")
  | Some frase =>
      if negb (dict_truthy frase) then
        run! log WARNING "No se encontro frase para hoy. Terminando proceso." in
        ret (Fallo "No hay frase para hoy")
      else
        let! usuarios_activos := lift (e_active_users E) in
        match usuarios_activos with
        | [] =>
            run! log WARNING "No hay usuarios activos para enviar emails." in
            ret (Fallo "No hay usuarios activos")
        | _ :: _ =>
            let! texto := lift (getitem frase "frase") in
            let! _ := lift (slice_to 50 texto) in
            let! todos := for_fold usuarios_activos ([], []) (un_usuario frase) in
            let '(usuarios_exitosos, usuarios_fallidos) := todos in
            let! fid := lift (getitem frase "id") in
            let! texto := lift (getitem frase "frase") in
            let! corto := lift (slice_to 100 texto) in
            ret (Exito {| r_frase_id := fid;
                          r_total_usuarios := len usuarios_activos;
                          r_exitosos := len usuarios_exitosos;
                          r_fallidos := len usuarios_fallidos;
                          r_usuarios_exitosos := usuarios_exitosos;
                          r_usuarios_fallidos := usuarios_fallidos;
                          r_frase := corto |})
        end
  end.

End Script.

(** The summary a run ended with, if it ended with one. *)
Definition resumen_de (run : world * res resultados) : option resumen :=
  match run.2 with
  | Ok (Exito r) => Some r
  | _ => None
  end.

End EnvioFrases.

(** A computation [guarda] (keeps) a measure [f] of the world with
    respect to [P] when it leaves [f] as it found it, however it ends, and
    every value it returns satisfies [P]. *)
Definition guarda {A T} (f : world → T) (m : M A) (P : A → Prop) : Prop :=
  ∀ w, f (m w).1 = f w ∧ ∀ a, (m w).2 = Ok a → P a.

(** The users to whom the process has sent so far. *)
Definition enviados_a (w : world) : list dict := sends (w_events w).

(** A computation is [callado] (quiet) when it sends to nobody. *)
Abbreviation callado := (guarda enviados_a).

(** Whether the send to a usuario raised. *)
Definition fallo_de_envio (E : env) (frase usuario : dict) : bool :=
  match e_send E frase usuario with
  | Raise _ => true
  | Ok _ => false
  end.

(** The counters of the collector, less what the sends made so far
    account for: a success for each user for whom the transport answered
    True, a failure for each user for whom it raised, a network error or
    another error according to [is_network_error].  The last component is
    the total set on the collector. *)
Definition saldo (E : env) (frase : dict) (w : world) : Z * Z * Z * Z * Z :=
  let m := w_metrics w in
  let s := sends (w_events w) in
  (MetricsCollector.exitosos m - len (List.filter (enviado E frase) s),
   MetricsCollector.fallidos m - len (List.filter (fallo_de_envio E frase) s),
   MetricsCollector.errores_red m - len (List.filter (fallo_de_red E frase) s),
   MetricsCollector.otros_errores m
     - len (List.filter (λ u, fallo_de_envio E frase u && negb (fallo_de_red E frase u)) s),
   MetricsCollector.total_usuarios m).

(** An SMTP server that refuses the messages for one address and accepts
    all the others. *)
Definition smtp_rechaza (email : string) : Z → dict → dict → res unit :=
  λ _ _ usuario,
    match usuario !! "email" with
    | Some (PStr s) =>
        if String.eqb s email
        then Raise (Exn "SMTPRecipientsRefused" "recipient refused")
        else Ok tt
    | _ => Ok tt
    end.

(** A user record without an ['email']. *)
Definition sin_email : dict := <["id" := PInt 7]> (<["nombre" := PStr "Dora"]> ∅).

(** The events that the bookkeeping of a run is about: the sends and the
    rows written to trazabilidad_envio.  The [huella] (footprint) of a
    world is what that bookkeeping can depend on. *)
Definition relevante (ev : event) : bool :=
  match ev with
  | EvSend _ _ | EvRegistro _ _ _ _ => true
  | _ => false
  end.

Definition huella (w : world) : MetricsCollector.metrics * list event :=
  (w_metrics w, List.filter relevante (w_events w)).

(** The rows with a given result among the events. *)
Definition registros (resultado : string) (evs : list event) : Z :=
  len (List.filter (λ ev, match ev with
                          | EvRegistro _ _ res _ => String.eqb res resultado
                          | _ => false
                          end) evs).



(** * Properties *)

(** ** ErrorClassifier: [is_network_error] *)

Lemma append_nil (t : string) : "" +:+ t = t.
Proof. reflexivity. Qed.

Lemma append_cons (a : Ascii.ascii) (s t : string) :
  String a s +:+ t = String a (s +:+ t).
Proof. reflexivity. Qed.

Lemma prefix_iff (needle hay : string) :
  String.prefix needle hay = true ↔ ∃ post, hay = needle +:+ post.
Proof.
  revert hay. induction needle as [|a needle IH]; intros hay.
  - split; [intros _; by exists hay | by destruct hay].
  - destruct hay as [|b hay]; simpl.
    + split; [done | intros [post Hp]; by rewrite append_cons in Hp].
    + destruct (Ascii.ascii_dec a b) as [->|Hne].
      * rewrite IH. split; intros [post Hp]; exists post;
          rewrite append_cons in *; congruence.
      * split; [done | intros [post Hp]; rewrite append_cons in Hp; congruence].
Qed.

Lemma str_in_nil (needle : string) :
  str_in needle "" = String.prefix needle "" || false.
Proof. reflexivity. Qed.

Lemma str_in_cons (needle : string) (c : Ascii.ascii) (hay : string) :
  str_in needle (String c hay) = String.prefix needle (String c hay) || str_in needle hay.
Proof. reflexivity. Qed.

Lemma str_in_iff (needle hay : string) :
  str_in needle hay = true ↔ ∃ pre post, hay = pre +:+ needle +:+ post.
Proof.
  induction hay as [|c hay IH]; [rewrite str_in_nil | rewrite str_in_cons].
  - rewrite orb_false_r, prefix_iff. split.
    + intros [post Hp]. by exists "", post.
    + intros [pre [post Hp]]. destruct pre.
      * rewrite append_nil in Hp. by exists post.
      * by rewrite append_cons in Hp.
  - rewrite orb_true_iff, prefix_iff, IH. split.
    + intros [[post Hp] | [pre [post Hp]]].
      * by exists "", post.
      * exists (String c pre), post. rewrite append_cons. by rewrite Hp.
    + intros [pre [post Hp]]. destruct pre as [|c' pre].
      * left. rewrite append_nil in Hp. by exists post.
      * right. rewrite append_cons in Hp. exists pre, post. congruence.
Qed.

Lemma is_network_error_iff (msg : string) :
  is_network_error msg = true ↔
  ∃ indicator pre post,
    indicator ∈ network_error_indicators ∧ msg = pre +:+ indicator +:+ post.
Proof.
  unfold is_network_error, any. rewrite existsb_exists. split.
  - intros [ind [Hin Hs]]. apply str_in_iff in Hs as [pre [post Hp]].
    exists ind, pre, post. split; [by apply list_elem_of_In | done].
  - intros [ind [pre [post [Hin Hp]]]]. exists ind.
    split; [by apply list_elem_of_In |]. apply str_in_iff. eauto.
Qed.

(** C6: the classifier is a function of the message alone; it answers
    transient exactly when the message contains one of the seven
    network-failure substrings (unreachable network, connection refused,
    connection timed out, the two name-resolution failures, no route to
    host, connection reset), compared case-sensitively, and permanent
    otherwise.  Every message containing "Connection refused" is transient;
    a message containing "Invalid email address" and none of the seven
    substrings is permanent. *)
Theorem C6_is_network_error_classifies :
  network_error_indicators =
    [ "Network is unreachable"; "Connection refused"; "Connection timed out";
      "Name or service not known"; "Temporary failure in name resolution";
      "No route to host"; "Connection reset by peer" ]
  ∧ (∀ msg, is_network_error msg = true ↔
        ∃ indicator pre post,
          indicator ∈ network_error_indicators ∧ msg = pre +:+ indicator +:+ post)
  ∧ (∀ pre post, is_network_error (pre +:+ "Connection refused" +:+ post) = true)
  ∧ (∀ pre post,
        (∀ indicator, indicator ∈ network_error_indicators →
           str_in indicator (pre +:+ "Invalid email address" +:+ post) = false) →
        is_network_error (pre +:+ "Invalid email address" +:+ post) = false)
  ∧ is_network_error "Invalid email address" = false
  ∧ is_network_error "connection refused" = false
  ∧ is_network_error "[Errno 101] Network is unreachable" = true.
Proof.
  split; [reflexivity |]. split; [apply is_network_error_iff |].
  split; [| split; [| repeat split; reflexivity]].
  - intros pre post. apply is_network_error_iff.
    exists "Connection refused", pre, post. split; [| done].
    unfold network_error_indicators. set_solver.
  - intros pre post Hnone.
    destruct (is_network_error _) eqn:Hn; [| done].
    apply is_network_error_iff in Hn as [ind [p [q [Hin Heq]]]].
    specialize (Hnone ind Hin). rewrite Heq in Hnone.
    assert (str_in ind (p +:+ ind +:+ q) = true) as Ht
      by (apply str_in_iff; eauto).
    congruence.
Qed.

(** ** MetricsCollector *)

Lemma apply_calls_counts (cs : list metric_call) (m : MetricsCollector.metrics) :
  let m' := apply_calls cs m in
  MetricsCollector.exitosos m' = MetricsCollector.exitosos m + len (durations cs)
  ∧ MetricsCollector.tiempo_promedio_envio m'
      = MetricsCollector.tiempo_promedio_envio m ++ durations cs
  ∧ MetricsCollector.fallidos m' = MetricsCollector.fallidos m + len (failures cs)
  ∧ MetricsCollector.errores_red m'
      = MetricsCollector.errores_red m + len (filter (λ net, net = true) (failures cs))
  ∧ MetricsCollector.otros_errores m'
      = MetricsCollector.otros_errores m + len (filter (λ net, net = false) (failures cs)).
Proof.
  revert m. induction cs as [|c cs IH]; intros m; unfold len in *; simpl.
  - rewrite app_nil_r. repeat split; lia.
  - destruct (IH (apply_call m c)) as (He & Ht & Hf & Hr & Ho).
    unfold apply_calls in *; simpl in *.
    rewrite He, Ht, Hf, Hr, Ho. clear.
    destruct c as [t|error [|]| |n]; simpl;
      rewrite ?filter_cons_True, ?filter_cons_False by done; simpl;
      rewrite <- ?app_assoc; simpl; repeat split; lia.
Qed.

(** C7: after any sequence of calls on a fresh collector, [finalizar] gives
    as mean duration the sum of the recorded success durations divided by
    their number, and the int 0 when no success was recorded; the counters
    are the numbers of the calls.  With two successes of 1.5 and 2.0 and
    two failures, one of them a network error, it yields exitosos = 2,
    fallidos = 2, errores_red = 1 and a mean of 1.75. *)
Theorem C7_finalizar_mean (cs : list metric_call) (t0 now : float) :
  let s := MetricsCollector.finalizar now (apply_calls cs (MetricsCollector.init t0)) in
  let example :=
    MetricsCollector.finalizar now
      (apply_calls [ CallSetTotal 10; CallSuccess 1.5; CallSuccess 2.0;
                     CallFailure "Error de prueba 1" true;
                     CallFailure "Error de prueba 2" false;
                     CallDeferredRetry ]
                   (MetricsCollector.init t0)) in
  MetricsCollector.tiempo_promedio s =
    match durations cs with
    | [] => PInt 0
    | _ :: _ => PFloat (PrimFloat.div (fsum (durations cs))
                                      (float_of_len (length (durations cs))))
    end
  ∧ MetricsCollector.exitosos (MetricsCollector.counters s) = len (durations cs)
  ∧ MetricsCollector.fallidos (MetricsCollector.counters s) = len (failures cs)
  ∧ MetricsCollector.errores_red (MetricsCollector.counters s)
      = len (filter (λ net, net = true) (failures cs))
  ∧ MetricsCollector.exitosos (MetricsCollector.counters example) = 2
  ∧ MetricsCollector.fallidos (MetricsCollector.counters example) = 2
  ∧ MetricsCollector.errores_red (MetricsCollector.counters example) = 1
  ∧ MetricsCollector.tiempo_promedio example = PFloat 1.75.
Proof.
  intros s example.
  destruct (apply_calls_counts cs (MetricsCollector.init t0)) as (He & Ht & Hf & Hr & _).
  simpl in He, Ht, Hf, Hr.
  split; [| split; [| split; [| split; [| repeat split; reflexivity]]]].
  - unfold s, MetricsCollector.finalizar; simpl. rewrite Ht. reflexivity.
  - unfold s; simpl. lia.
  - unfold s; simpl. lia.
  - unfold s; simpl. lia.
Qed.

(** ** RetryQueueStore: [FailedUsersManager] *)

(** What each operation of the store does to the world, in one equation. *)
Lemma save_failed_users_run (cfg : config) (E : env) (failed : list dict) (frase : dict)
    (w : world) :
  save_failed_users cfg E failed frase w =
  (match e_write E with
   | WriteOk =>
       with_file
         (Some (Saved {| timestamp := e_now_stamp E; frase_data := frase;
                         failed_users := failed;
                         retry_after := e_now_retry E
                                        + timedelta_minutes (retry_delay_minutes cfg) |}))
         (add_event (EvSave failed frase) w)
   | OpenFails e =>
       add_log ERROR ("Error guardando usuarios fallidos: " +:+ exn_msg e)
         (add_event (EvSave failed frase) w)
   | DumpFails e =>
       add_log ERROR ("Error guardando usuarios fallidos: " +:+ exn_msg e)
         (with_file (Some Corrupt) (add_event (EvSave failed frase) w))
   end, Ok tt).
Proof.
  unfold save_failed_users, write_file, bind, try_except, emit, set_file, raise, log.
  destruct (e_write E); reflexivity.
Qed.

Lemma load_failed_users_run (E : env) (w : world) :
  load_failed_users E w =
  (match w_file w, e_read_error E with
   | None, _ => add_event EvLoad w
   | Some _, Some e =>
       add_log ERROR ("Error cargando usuarios fallidos: " +:+ exn_msg e)
         (add_event EvLoad w)
   | Some Corrupt, None =>
       add_log ERROR ("Error cargando usuarios fallidos: " +:+ "JSONDecodeError")
         (add_event EvLoad w)
   | Some (Saved _), None => add_event EvLoad w
   end,
   Ok (match w_file w, e_read_error E with
       | Some (Saved data), None =>
           if retry_after data <=? e_now_load E then Some data else None
       | _, _ => None
       end)).
Proof.
  unfold load_failed_users, read_file, bind, try_except, emit, get_file, ret, raise, log;
    simpl.
  destruct (w_file w) as [[|r]|]; destruct (e_read_error E); simpl; try reflexivity.
  destruct (retry_after r <=? e_now_load E); reflexivity.
Qed.

Lemma clear_failed_users_run (E : env) (w : world) :
  clear_failed_users E w =
  (match w_file w, e_remove_error E with
   | None, _ => add_event EvClear w
   | Some _, None => with_file None (add_event EvClear w)
   | Some _, Some e =>
       add_log ERROR ("Error limpiando archivo de usuarios fallidos: " +:+ exn_msg e)
         (add_event EvClear w)
   end, Ok tt).
Proof.
  unfold clear_failed_users, remove_file, bind, try_except, emit, get_file, set_file,
    ret, raise, log; simpl.
  destruct (w_file w); destruct (e_remove_error E); reflexivity.
Qed.

(** C5: a successful [save_failed_users] leaves a record whose
    [retry_after] is the clock reading plus the configured delay;
    [load_failed_users] answers None when there is no file, None when the
    record is not yet due and the record itself when it is due.  Hence a
    load at the instant of a save with a positive delay answers None, and
    a load once [retry_after] has passed answers the users and the frase
    that were saved. *)
Theorem C5_save_then_load (cfg : config) (E1 E2 : env)
    (failed : list dict) (frase : dict) (w : world) :
  e_write E1 = WriteOk →
  e_read_error E2 = None →
  let saved := {| timestamp := e_now_stamp E1;
                  frase_data := frase;
                  failed_users := failed;
                  retry_after := e_now_retry E1
                                 + timedelta_minutes (retry_delay_minutes cfg) |} in
  let w1 := (save_failed_users cfg E1 failed frase w).1 in
  w_file w1 = Some (Saved saved)
  ∧ (∀ w0, w_file w0 = None → (load_failed_users E2 w0).2 = Ok None)
  ∧ (∀ w0 r, w_file w0 = Some (Saved r) → e_now_load E2 < retry_after r →
       (load_failed_users E2 w0).2 = Ok None)
  ∧ (∀ w0 r, w_file w0 = Some (Saved r) → retry_after r ≤ e_now_load E2 →
       (load_failed_users E2 w0).2 = Ok (Some r))
  ∧ (0 < retry_delay_minutes cfg → e_now_load E2 = e_now_retry E1 →
       (load_failed_users E2 w1).2 = Ok None)
  ∧ (retry_after saved ≤ e_now_load E2 →
       ∃ data, (load_failed_users E2 w1).2 = Ok (Some data)
               ∧ failed_users data = failed ∧ frase_data data = frase).
Proof.
  intros Hw Hr saved w1.
  assert (w_file w1 = Some (Saved saved)) as Hfile.
  { unfold w1. rewrite save_failed_users_run, Hw. reflexivity. }
  assert (∀ w0 r, w_file w0 = Some (Saved r) →
            (load_failed_users E2 w0).2
            = Ok (if retry_after r <=? e_now_load E2 then Some r else None)) as Hload.
  { intros w0 r Hf. rewrite load_failed_users_run, Hf, Hr. reflexivity. }
  split; [done |]. split; [| split; [| split; [| split]]].
  - intros w0 Hf. rewrite load_failed_users_run. by rewrite Hf.
  - intros w0 r Hf Hlt. rewrite (Hload w0 r Hf).
    destruct (Z.leb_spec (retry_after r) (e_now_load E2)); [lia | done].
  - intros w0 r Hf Hle. rewrite (Hload w0 r Hf).
    destruct (Z.leb_spec (retry_after r) (e_now_load E2)); [done | lia].
  - intros Hpos Hnow. rewrite (Hload w1 saved Hfile).
    destruct (Z.leb_spec (retry_after saved) (e_now_load E2)) as [Hle|]; [| done].
    unfold saved, timedelta_minutes in Hle; simpl in Hle. lia.
  - intros Hle. exists saved. rewrite (Hload w1 saved Hfile).
    destruct (Z.leb_spec (retry_after saved) (e_now_load E2)); [done | lia].
Qed.


(** ** Local computations *)

Lemma apply_calls_app (cs1 cs2 : list metric_call) (m : MetricsCollector.metrics) :
  apply_calls (cs1 ++ cs2) m = apply_calls cs2 (apply_calls cs1 m).
Proof. unfold apply_calls. apply fold_left_app. Qed.

Lemma apply_delta_nil (w : world) : apply_delta [] [] [] w = w.
Proof. destruct w. unfold apply_delta; simpl. by rewrite !app_nil_r. Qed.

Lemma apply_delta_app cs1 evs1 logs1 cs2 evs2 logs2 (w : world) :
  apply_delta cs2 evs2 logs2 (apply_delta cs1 evs1 logs1 w)
  = apply_delta (cs1 ++ cs2) (evs1 ++ evs2) (logs1 ++ logs2) w.
Proof.
  unfold apply_delta; simpl. by rewrite apply_calls_app, !app_assoc.
Qed.

Section Local.
Context {A B : Type}.

Lemma local_ret (a : A) : local (ret a) [] [] [] (Ok a).
Proof. intros w. unfold ret. by rewrite apply_delta_nil. Qed.

Lemma local_raise (e : exn) : local (raise (A:=A) e) [] [] [] (Raise e).
Proof. intros w. unfold raise. by rewrite apply_delta_nil. Qed.

Lemma local_lift (r : res A) : local (lift r) [] [] [] r.
Proof. intros w. unfold lift. by rewrite apply_delta_nil. Qed.

Lemma local_bind_ok (m : M A) (k : A → M B) a cs1 evs1 logs1 cs2 evs2 logs2 r :
  local m cs1 evs1 logs1 (Ok a) →
  local (k a) cs2 evs2 logs2 r →
  local (bind m k) (cs1 ++ cs2) (evs1 ++ evs2) (logs1 ++ logs2) r.
Proof.
  intros Hm Hk w. unfold bind. rewrite Hm, Hk. by rewrite apply_delta_app.
Qed.

Lemma local_bind_raise (m : M A) (k : A → M B) e cs evs logs :
  local m cs evs logs (Raise e) →
  local (bind m k) cs evs logs (Raise e).
Proof. intros Hm w. unfold bind. by rewrite Hm. Qed.

Lemma local_try_ok (m : M A) (h : exn → M A) a cs evs logs :
  local m cs evs logs (Ok a) →
  local (try_except m h) cs evs logs (Ok a).
Proof. intros Hm w. unfold try_except. by rewrite Hm. Qed.

Lemma local_try_raise (m : M A) (h : exn → M A) e cs1 evs1 logs1 cs2 evs2 logs2 r :
  local m cs1 evs1 logs1 (Raise e) →
  local (h e) cs2 evs2 logs2 r →
  local (try_except m h) (cs1 ++ cs2) (evs1 ++ evs2) (logs1 ++ logs2) r.
Proof.
  intros Hm Hh w. unfold try_except. rewrite Hm, Hh. by rewrite apply_delta_app.
Qed.

Lemma local_capture (m : M A) cs evs logs r :
  local m cs evs logs r →
  local (capture m) cs evs logs (Ok r).
Proof. intros Hm w. unfold capture. by rewrite Hm. Qed.

(** The result of a local computation is the one it has on the blank world. *)
Lemma local_result (m : M A) cs evs logs r :
  local m cs evs logs r → (m blank).2 = r.
Proof. intros Hm. by rewrite Hm. Qed.

Lemma local_file (m : M A) cs evs logs r (w : world) :
  local m cs evs logs r → w_file (m w).1 = w_file w.
Proof. intros Hm. by rewrite Hm. Qed.

End Local.

Lemma local_emit (ev : event) : local (emit ev) [] [ev] [] (Ok tt).
Proof. intros w. unfold emit, apply_delta, add_event; simpl. by rewrite app_nil_r. Qed.

Lemma local_log (lv : level) (msg : string) : local (log lv msg) [] [] [(lv, msg)] (Ok tt).
Proof. intros w. unfold log, apply_delta, add_log; simpl. by rewrite app_nil_r. Qed.

Lemma local_update (c : metric_call) :
  local (update_metrics (λ m, apply_call m c)) [c] [] [] (Ok tt).
Proof.
  intros w. unfold update_metrics, apply_delta, with_metrics; simpl.
  by rewrite !app_nil_r.
Qed.

Lemma local_add_success (t : float) :
  local (update_metrics (MetricsCollector.add_success t)) [CallSuccess t] [] [] (Ok tt).
Proof. apply (local_update (CallSuccess t)). Qed.

Lemma local_add_failure (error : string) (net : bool) :
  local (update_metrics (MetricsCollector.add_failure error net))
        [CallFailure error net] [] [] (Ok tt).
Proof. apply (local_update (CallFailure error net)). Qed.

Lemma local_add_deferred_retry :
  local (update_metrics MetricsCollector.add_deferred_retry) [CallDeferredRetry] [] [] (Ok tt).
Proof. apply (local_update CallDeferredRetry). Qed.

Lemma local_set_total (n : Z) :
  local (update_metrics (MetricsCollector.set_total_usuarios n)) [CallSetTotal n] [] [] (Ok tt).
Proof. apply (local_update (CallSetTotal n)). Qed.

Lemma local_registrar_envio fid uid resultado descripcion :
  local (registrar_envio fid uid resultado descripcion) []
        [EvRegistro fid uid resultado descripcion] [] (Ok tt).
Proof. apply local_emit. Qed.

(** Straight-line code is local: follow it statement by statement. *)
Ltac local_solve :=
  cbn beta iota;
  first
    [ apply local_ret | apply local_raise | apply local_lift | apply local_emit
    | apply local_log | apply local_add_success | apply local_add_failure
    | apply local_add_deferred_retry | apply local_set_total
    | apply local_registrar_envio
    | eapply local_capture; solve [local_solve]
    | eapply local_bind_ok; [solve [local_solve] | solve [local_solve]]
    | eapply local_bind_raise; solve [local_solve]
    | eapply local_try_ok; solve [local_solve]
    | eapply local_try_raise; [solve [local_solve] | solve [local_solve]] ].

(** ** The dispatcher: one worker *)

Lemma procesar_usuario_local (E : env) (usuario frase : dict) (is_retry : bool) :
  ∃ cs regs logs,
    local (procesar_usuario E usuario frase is_retry) cs (EvSend frase usuario :: regs) logs
          (job_result_of E frase is_retry usuario)
    ∧ forallb is_registro regs = true.
Proof.
  assert (∃ cs evs logs r,
    local (procesar_usuario E usuario frase is_retry) cs evs logs r
    ∧ ∃ regs, evs = EvSend frase usuario :: regs ∧ forallb is_registro regs = true)
    as (cs & evs & logs & r & Hl & regs & -> & Hr).
  { unfold procesar_usuario.
    destruct (e_send E frase usuario) as [[|]|e] eqn:Hs;
      destruct (getitem usuario "email") as [email|e1] eqn:He;
      destruct (getitem frase "id") as [fid|e2] eqn:Hf;
      destruct (getitem usuario "id") as [uid|e3] eqn:Hu.
    all: do 4 eexists; split; [solve [local_solve] |].
    all: eexists; split; reflexivity. }
  exists cs, regs, logs. split; [| done].
  unfold job_result_of. by rewrite (local_result _ _ _ _ _ Hl).
Qed.

Lemma registros_traces (regs : list event) :
  forallb is_registro regs = true →
  pool_trace regs = [] ∧ store_trace regs = [] ∧ sends regs = [].
Proof.
  induction regs as [|ev regs IH]; [done |]. simpl.
  intros [Hev Hregs]%andb_true_iff. destruct (IH Hregs) as (Hp & Hs & Hn).
  destruct ev; by simpl in *.
Qed.

Lemma pool_trace_app (evs1 evs2 : list event) :
  pool_trace (evs1 ++ evs2) = pool_trace evs1 ++ pool_trace evs2.
Proof. apply List.filter_app. Qed.

Lemma store_trace_app (evs1 evs2 : list event) :
  store_trace (evs1 ++ evs2) = store_trace evs1 ++ store_trace evs2.
Proof. apply List.filter_app. Qed.

Lemma sends_app (evs1 evs2 : list event) :
  sends (evs1 ++ evs2) = sends evs1 ++ sends evs2.
Proof. apply omap_app. Qed.

(** ** The dispatcher: one batch *)

Lemma jobs_local (E : env) (frase : dict) (is_retry : bool) (usuarios : list dict) :
  ∃ cs evs logs,
    local (map_M (λ usuario, capture (procesar_usuario E usuario frase is_retry)) usuarios)
          cs evs logs (Ok (map (job_result_of E frase is_retry) usuarios))
    ∧ pool_trace evs = map (EvSend frase) usuarios
    ∧ store_trace evs = []
    ∧ sends evs = usuarios.
Proof.
  induction usuarios as [|u us (cs & evs & logs & Hl & Hp & Hs & Hn)].
  - exists [], [], []. split; [apply local_ret | done].
  - destruct (procesar_usuario_local E u frase is_retry) as (cs1 & regs & logs1 & Hl1 & Hr).
    destruct (registros_traces regs Hr) as (Hp1 & Hs1 & Hn1).
    do 3 eexists. split.
    + simpl. eapply local_bind_ok; [apply local_capture, Hl1 |].
      eapply local_bind_ok; [apply Hl | apply local_ret].
    + rewrite !pool_trace_app, !store_trace_app, !sends_app.
      rewrite Hp, Hs, Hn. simpl.
      unfold pool_trace, store_trace, sends in *. rewrite Hp1, Hs1, Hn1.
      by rewrite !app_nil_r.
Qed.

Lemma for_fold_cons {A S} (x : A) (l : list A) (s : S) (body : S → A → M S) :
  for_fold (x :: l) s body = (let! s' := body s x in for_fold l s' body).
Proof. reflexivity. Qed.

Lemma recoger_local (futures : list job_result) (exitosos_l fallidos_l : list dict) :
  ∃ logs,
    local (for_fold futures (exitosos_l, fallidos_l) recoger) [] [] logs
          (Ok (exitosos_l ++ omap exito_de futures, fallidos_l ++ omap fallo_de futures)).
Proof.
  revert exitosos_l fallidos_l.
  induction futures as [|future futures IH]; intros ex fa.
  - exists []. simpl. rewrite !app_nil_r. apply local_ret.
  - rewrite for_fold_cons.
    assert (∃ logs1,
      local (recoger (ex, fa) future) [] [] logs1
            (Ok (ex ++ from_option (λ r, [r]) [] (exito_de future),
                 fa ++ from_option (λ r, [r]) [] (fallo_de future)))) as [logs1 H1].
    { unfold recoger, exito_de, fallo_de.
      destruct future as [[r|]|e]; simpl.
      - destruct (dict_truthy r), (has_key "error" r); simpl;
          rewrite ?app_nil_r; eexists; apply local_ret.
      - rewrite !app_nil_r. eexists; apply local_ret.
      - rewrite app_nil_r. eexists [_]. intros w.
        unfold bind, log, ret, apply_delta, add_log; simpl.
        by rewrite !app_nil_r. }
    destruct (IH (ex ++ from_option (λ r, [r]) [] (exito_de future))
                 (fa ++ from_option (λ r, [r]) [] (fallo_de future))) as [logs2 H2].
    exists (logs1 ++ logs2).
    replace (ex ++ omap exito_de (future :: futures))
      with ((ex ++ from_option (λ r, [r]) [] (exito_de future)) ++ omap exito_de futures)
      by (simpl; destruct (exito_de future); simpl; by rewrite <- ?app_assoc, ?app_nil_r).
    replace (fa ++ omap fallo_de (future :: futures))
      with ((fa ++ from_option (λ r, [r]) [] (fallo_de future)) ++ omap fallo_de futures)
      by (simpl; destruct (fallo_de future); simpl; by rewrite <- ?app_assoc, ?app_nil_r).
    apply (local_bind_ok _ _ _ [] [] logs1 [] [] logs2 _ H1 H2).
Qed.

Lemma procesar_lote_local (cfg : config) (E : env) (usuarios : list dict) (frase : dict)
    (is_retry : bool) :
  0 < max_workers cfg →
  ∃ cs evs logs,
    local (procesar_lote cfg E usuarios frase is_retry) cs evs logs
          (Ok (lote_result E frase is_retry usuarios))
    ∧ pool_trace evs = lote_trace cfg E frase usuarios
    ∧ store_trace evs = []
    ∧ sends evs = e_exec E usuarios.
Proof.
  intros Hw. unfold procesar_lote.
  destruct (Z.leb_spec (max_workers cfg) 0) as [|_]; [lia |].
  destruct (jobs_local E frase is_retry (e_exec E usuarios))
    as (cs & evs & logs & Hl & Hp & Hs & Hn).
  destruct (recoger_local (e_done E (map (job_result_of E frase is_retry) (e_exec E usuarios)))
              [] []) as [logs2 H2].
  do 3 eexists. split.
  - eapply local_bind_ok; [apply local_emit |].
    eapply local_bind_ok; [apply Hl |].
    eapply local_bind_ok; [apply H2 |].
    eapply local_bind_ok; [apply local_emit | apply local_ret].
  - rewrite !pool_trace_app, !store_trace_app, !sends_app, Hp, Hs, Hn.
    unfold lote_trace. simpl. by rewrite !app_nil_r.
Qed.

Lemma procesar_lote_refused (cfg : config) (E : env) (usuarios : list dict) (frase : dict)
    (is_retry : bool) :
  max_workers cfg ≤ 0 →
  local (procesar_lote cfg E usuarios frase is_retry) [] [] []
        (Raise (ValueError "max_workers must be greater than 0")).
Proof.
  intros Hw. unfold procesar_lote.
  destruct (Z.leb_spec (max_workers cfg) 0); [apply local_raise | lia].
Qed.

(** ** Batches *)

Lemma chunks_concat {A} (b n : nat) (l : list A) :
  (0 < b)%nat → (length l ≤ n * b)%nat →
  concat (map (λ k : nat, take b (drop (k * b) l)) (seq 0 n)) = l.
Proof.
  intros Hb. revert l. induction n as [|n IH]; intros l Hlen.
  - destruct l; [done | simpl in Hlen; lia].
  - rewrite <- cons_seq, <- fmap_S_seq. simpl. rewrite drop_0.
    change (map ?f (S <$> ?l)) with (map f (map S l)). rewrite map_map.
    transitivity (take b l ++ drop b l); [| apply take_drop]. f_equal.
    rewrite <- (IH (drop b l)) by (rewrite length_drop; lia).
    f_equal. apply map_ext. intros k. by rewrite drop_drop.
Qed.

Lemma range0_pos (stop step : Z) :
  0 < step →
  range0 stop step
  = Ok (map (λ k : nat, Z.of_nat k * step) (seq 0 (Z.to_nat ((stop + step - 1) / step)))).
Proof.
  intros Hs. unfold range0.
  destruct (Z.eqb_spec step 0); [lia |]. destruct (Z.ltb_spec step 0); [lia | done].
Qed.

Lemma lotes_eq (cfg : config) (usuarios : list dict) :
  0 < batch_size cfg →
  lotes cfg usuarios
  = map (λ k : nat, take (Z.to_nat (batch_size cfg))
                         (drop (k * Z.to_nat (batch_size cfg)) usuarios))
        (seq 0 (Z.to_nat ((len usuarios + batch_size cfg - 1) / batch_size cfg))).
Proof.
  intros Hb. unfold lotes. rewrite range0_pos by done. rewrite map_map.
  apply map_ext. intros k. unfold slice. f_equal; [f_equal; lia | f_equal].
  rewrite Z2Nat.inj_mul, Nat2Z.id by lia. done.
Qed.

Lemma ceil_bounds (n b : Z) :
  0 ≤ n → 0 < b →
  let q := (n + b - 1) / b in
  n ≤ q * b ∧ (q - 1) * b < n + 0 ∧ 0 ≤ q ∧ (0 < q → 0 < n).
Proof.
  intros Hn Hb q.
  pose proof (Z.div_mod (n + b - 1) b ltac:(lia)) as Hdm.
  pose proof (Z.mod_pos_bound (n + b - 1) b Hb) as Hmod.
  fold q in Hdm.
  assert (0 ≤ q) by (apply Z.div_pos; lia).
  repeat split; nia.
Qed.

Lemma lotes_concat (cfg : config) (usuarios : list dict) :
  0 < batch_size cfg → concat (lotes cfg usuarios) = usuarios.
Proof.
  intros Hb. rewrite lotes_eq by done. apply chunks_concat; [lia |].
  destruct (ceil_bounds (len usuarios) (batch_size cfg)) as (Hle & _ & Hq & _);
    [unfold len; lia | done |].
  unfold len in *. nia.
Qed.

Lemma lotes_lengths (cfg : config) (usuarios : list dict) (i : nat) (lote : list dict) :
  0 < batch_size cfg →
  lotes cfg usuarios !! i = Some lote →
  (0 < length lote)%nat ∧ len lote ≤ batch_size cfg
  ∧ ((S i < length (lotes cfg usuarios))%nat → len lote = batch_size cfg)
  ∧ lote = take (Z.to_nat (batch_size cfg)) (drop (i * Z.to_nat (batch_size cfg)) usuarios).
Proof.
  intros Hb. rewrite lotes_eq by done. rewrite length_map, length_seq.
  rewrite list_lookup_fmap. intros Hl.
  destruct (seq 0 _ !! i) as [k|] eqn:Hk; [| done]. simpl in Hl.
  apply lookup_seq in Hk as [-> Hlt]. simpl in Hlt. injection Hl as <-.
  destruct (ceil_bounds (len usuarios) (batch_size cfg)) as (Hle & Hgt & Hq & Hpos);
    [unfold len; lia | done |].
  unfold len in *. rewrite length_take, length_drop.
  set (q := (Z.of_nat (length usuarios) + batch_size cfg - 1) `div` batch_size cfg) in *.
  set (b := Z.to_nat (batch_size cfg)).
  assert (batch_size cfg = Z.of_nat b) as Hbb by (unfold b; lia).
  rewrite Hbb in *. clearbody q b.
  assert (Z.of_nat i + 1 ≤ q) as Hiq by lia.
  assert (Z.of_nat (i * b) < Z.of_nat (length usuarios)) as Hib by nia.
  split; [lia |]. split; [lia |]. split; [| done].
  intros Hsi. assert (Z.of_nat i + 2 ≤ q) as Hiq2 by lia.
  assert (Z.of_nat (i * b) + Z.of_nat b < Z.of_nat (length usuarios)) by nia.
  lia.
Qed.

(** ** The dispatcher: all the batches *)

Arguments lote_result : simpl never.

Lemma flat_map_step {A B} (f : A → list B) (x : A) (l : list A) :
  flat_map f (x :: l) = f x ++ flat_map f l.
Proof. reflexivity. Qed.

Lemma for_each_deferred_local {A} (l : list A) :
  local (for_each l (λ _, update_metrics MetricsCollector.add_deferred_retry))
        (repeat CallDeferredRetry (length l)) [] [] (Ok tt).
Proof.
  induction l as [|x l IH]; simpl; [apply local_ret |].
  apply (local_bind_ok _ _ tt [CallDeferredRetry] [] [] _ [] [] _
           local_add_deferred_retry IH).
Qed.

Lemma lote_envio_loop (cfg : config) (E : env) (usuarios : list dict) (frase : dict)
    (starts : list Z) (acc : list dict * list dict) :
  0 < max_workers cfg →
  ∃ cs evs logs,
    local (for_fold starts acc (lote_envio cfg E usuarios frase)) cs evs logs
      (Ok (acc.1 ++ flat_map (λ i, (lote_result E frase false
                                      (slice usuarios i (i + batch_size cfg))).1) starts,
           acc.2 ++ flat_map (λ i, (lote_result E frase false
                                      (slice usuarios i (i + batch_size cfg))).2) starts))
    ∧ pool_trace evs
      = flat_map (λ i, lote_trace cfg E frase (slice usuarios i (i + batch_size cfg))) starts
    ∧ store_trace evs = []
    ∧ sends evs = flat_map (λ i, e_exec E (slice usuarios i (i + batch_size cfg))) starts.
Proof.
  intros Hw. revert acc. induction starts as [|i starts IH]; intros [ex fa].
  - exists [], [], []. simpl. rewrite !app_nil_r. split; [apply local_ret | done].
  - destruct (procesar_lote_local cfg E (slice usuarios i (i + batch_size cfg)) frase false Hw)
      as (cs1 & evs1 & logs1 & Hl1 & Hp1 & Hs1 & Hn1).
    rewrite !flat_map_step.
    destruct (lote_result E frase false (slice usuarios i (i + batch_size cfg)))
      as [ex1 fa1] eqn:Hres.
    destruct (IH (ex ++ ex1, fa ++ fa1)) as (cs2 & evs2 & logs2 & Hl2 & Hp2 & Hs2 & Hn2).
    cbn [fst snd] in Hl2 |- *. rewrite <- !app_assoc in Hl2.
    do 3 eexists. split.
    + rewrite for_fold_cons. eapply local_bind_ok; [| apply Hl2].
      unfold lote_envio. eapply local_bind_ok; [apply Hl1 |]. apply local_ret.
    + rewrite !app_nil_r.
      rewrite !pool_trace_app, !store_trace_app, !sends_app.
      by rewrite Hp1, Hp2, Hs1, Hs2, Hn1, Hn2.
Qed.

Lemma lote_reintento_loop (cfg : config) (E : env) (usuarios : list dict) (frase : dict)
    (starts : list Z) (acc : list dict * list dict) :
  0 < max_workers cfg →
  ∃ cs evs logs,
    local (for_fold starts acc (lote_reintento cfg E usuarios frase)) cs evs logs
      (Ok (acc.1 ++ flat_map (λ i, (lote_result E frase true
                                      (slice usuarios i (i + batch_size cfg))).1) starts,
           acc.2 ++ flat_map (λ i, (lote_result E frase true
                                      (slice usuarios i (i + batch_size cfg))).2) starts))
    ∧ pool_trace evs
      = flat_map (λ i, lote_trace cfg E frase (slice usuarios i (i + batch_size cfg))) starts
    ∧ store_trace evs = []
    ∧ sends evs = flat_map (λ i, e_exec E (slice usuarios i (i + batch_size cfg))) starts.
Proof.
  intros Hw. revert acc. induction starts as [|i starts IH]; intros [ex fa].
  - exists [], [], []. simpl. rewrite !app_nil_r. split; [apply local_ret | done].
  - destruct (procesar_lote_local cfg E (slice usuarios i (i + batch_size cfg)) frase true Hw)
      as (cs1 & evs1 & logs1 & Hl1 & Hp1 & Hs1 & Hn1).
    rewrite !flat_map_step.
    destruct (lote_result E frase true (slice usuarios i (i + batch_size cfg)))
      as [ex1 fa1] eqn:Hres.
    destruct (IH (ex ++ ex1, fa ++ fa1)) as (cs2 & evs2 & logs2 & Hl2 & Hp2 & Hs2 & Hn2).
    cbn [fst snd] in Hl2 |- *. rewrite <- !app_assoc in Hl2.
    do 3 eexists. split.
    + rewrite for_fold_cons. eapply local_bind_ok; [| apply Hl2].
      unfold lote_reintento. eapply local_bind_ok; [apply Hl1 |].
      eapply local_bind_ok; [apply for_each_deferred_local | apply local_ret].
    + rewrite !app_nil_r.
      rewrite !pool_trace_app, !store_trace_app, !sends_app.
      by rewrite Hp1, Hp2, Hs1, Hs2, Hn1, Hn2.
Qed.

Lemma flat_map_lotes {B} (cfg : config) (usuarios : list dict) (starts : list Z)
    (F : list dict → list B) :
  range0 (len usuarios) (batch_size cfg) = Ok starts →
  flat_map (λ i, F (slice usuarios i (i + batch_size cfg))) starts
  = flat_map F (lotes cfg usuarios).
Proof.
  intros Hr. unfold lotes. rewrite Hr. rewrite !flat_map_concat_map, map_map. done.
Qed.

(** The loop of [procesar_envios] and the loop of
    [procesar_reintentos_diferidos], for a configuration with a positive
    batch size and a positive number of workers. *)
Lemma despacho_local (cfg : config) (E : env) (usuarios : list dict) (frase : dict)
    (is_retry : bool) :
  0 < batch_size cfg → 0 < max_workers cfg →
  ∃ starts cs evs logs,
    range0 (len usuarios) (batch_size cfg) = Ok starts
    ∧ local (for_fold starts ([], [])
               (if is_retry then lote_reintento cfg E usuarios frase
                else lote_envio cfg E usuarios frase))
            cs evs logs (Ok (despacho cfg E frase is_retry usuarios))
    ∧ pool_trace evs = flat_map (lote_trace cfg E frase) (lotes cfg usuarios)
    ∧ store_trace evs = []
    ∧ sends evs = flat_map (e_exec E) (lotes cfg usuarios).
Proof.
  intros Hb Hw. eexists. 
  pose proof (range0_pos (len usuarios) (batch_size cfg) Hb) as Hr.
  set (starts := map _ _) in Hr.
  assert (∃ cs evs logs,
    local (for_fold starts ([], [])
             (if is_retry then lote_reintento cfg E usuarios frase
              else lote_envio cfg E usuarios frase)) cs evs logs
      (Ok (flat_map (λ i, (lote_result E frase is_retry
                             (slice usuarios i (i + batch_size cfg))).1) starts,
           flat_map (λ i, (lote_result E frase is_retry
                             (slice usuarios i (i + batch_size cfg))).2) starts))
    ∧ pool_trace evs
      = flat_map (λ i, lote_trace cfg E frase (slice usuarios i (i + batch_size cfg))) starts
    ∧ store_trace evs = []
    ∧ sends evs = flat_map (λ i, e_exec E (slice usuarios i (i + batch_size cfg))) starts)
    as (cs & evs & logs & Hl & Hp & Hs & Hn).
  { destruct is_retry.
    - apply (lote_reintento_loop cfg E usuarios frase starts ([], []) Hw).
    - apply (lote_envio_loop cfg E usuarios frase starts ([], []) Hw). }
  exists cs, evs, logs. split; [exact Hr |].
  rewrite (flat_map_lotes cfg usuarios starts (λ l, (lote_result E frase is_retry l).1) Hr) in Hl.
  rewrite (flat_map_lotes cfg usuarios starts (λ l, (lote_result E frase is_retry l).2) Hr) in Hl.
  rewrite (flat_map_lotes cfg usuarios starts (lote_trace cfg E frase) Hr) in Hp.
  rewrite (flat_map_lotes cfg usuarios starts (e_exec E) Hr) in Hn.
  done.
Qed.

(** ** What the futures hold, for well-formed users *)

Lemma job_result_ok (E : env) (frase usuario : dict) (is_retry : bool) :
  is_Some (frase !! "id") → usuario_ok usuario →
  job_result_of E frase is_retry usuario = outcome E frase usuario.
Proof.
  intros [fid Hf] ([uid Hu] & [email He] & _).
  unfold job_result_of, outcome, procesar_usuario, job_msg, getitem.
  rewrite Hf, Hu, He.
  unfold try_except, bind, lift, emit, ret, update_metrics, registrar_envio, log; simpl.
  destruct (e_send E frase usuario) as [[|]|e]; reflexivity.
Qed.

Lemma dict_truthy_lookup (d : dict) (k : string) (v : pyval) :
  d !! k = Some v → dict_truthy d = true.
Proof.
  intros Hk. unfold dict_truthy, truthy.
  destruct (Nat.eqb_spec (size d) 0) as [Hz|]; [| done].
  apply map_size_empty_iff in Hz. subst d. by rewrite lookup_empty in Hk.
Qed.

Lemma error_dict_facts (usuario : option dict) (error : string) (net : bool) :
  let item := error_dict usuario error net in
  dict_truthy item = true ∧ has_key "error" item = true
  ∧ marked_network item = net
  ∧ usuario_de item = usuario.
Proof.
  assert (error_dict usuario error net !! "error" = Some (PStr error)) as He.
  { destruct usuario; simpl; by simplify_map_eq. }
  assert (error_dict usuario error net !! "is_network_error" = Some (PBool net)) as Hn.
  { destruct usuario; simpl; by simplify_map_eq. }
  assert (error_dict usuario error net !! "usuario" = PDict <$> usuario) as Hu.
  { destruct usuario; simpl; by simplify_map_eq. }
  simpl. split; [by eapply dict_truthy_lookup |].
  unfold has_key, marked_network, dict_get, usuario_de. rewrite He, Hn, Hu.
  by destruct usuario.
Qed.

Lemma exito_de_outcome (E : env) (frase usuario : dict) :
  usuario_ok usuario →
  exito_de (outcome E frase usuario)
  = if enviado E frase usuario then Some usuario else None.
Proof.
  intros ([uid Hu] & _ & Herr). unfold exito_de, outcome, enviado.
  destruct (e_send E frase usuario) as [[|]|e]; [| done |].
  - rewrite (dict_truthy_lookup _ _ _ Hu). unfold has_key. by rewrite Herr.
  - destruct (error_dict_facts (Some usuario) (job_msg E usuario e)
                (is_network_error (exn_msg e))) as (-> & -> & _). done.
Qed.

Lemma fallo_de_outcome (E : env) (frase usuario : dict) :
  usuario_ok usuario →
  fallo_de (outcome E frase usuario) = fallo_registrado E frase usuario.
Proof.
  intros ([uid Hu] & _ & Herr). unfold fallo_de, outcome, fallo_registrado.
  destruct (e_send E frase usuario) as [[|]|e]; [| done |].
  - unfold has_key. rewrite Herr. by rewrite andb_false_r.
  - destruct (error_dict_facts (Some usuario) (job_msg E usuario e)
                (is_network_error (exn_msg e))) as (-> & -> & _). done.
Qed.

Lemma flat_map_Permutation_ext {A B} (F G : A → list B) (l : list A) :
  (∀ x, x ∈ l → F x ≡ₚ G x) → flat_map F l ≡ₚ flat_map G l.
Proof.
  induction l as [|x l IH]; intros H; [done |]. simpl.
  apply Permutation_app; [apply H; left | apply IH; intros y Hy; apply H; by right].
Qed.

Lemma flat_map_omap_concat {A B C} (g : B → option C) (h : A → B) (ls : list (list A)) :
  flat_map (λ l, omap g (map h l)) ls = omap g (map h (concat ls)).
Proof.
  induction ls as [|l ls IH]; [done |]. simpl.
  by rewrite map_app, omap_app, IH.
Qed.

Lemma elem_of_lotes (cfg : config) (usuarios lote : list dict) (u : dict) :
  0 < batch_size cfg → lote ∈ lotes cfg usuarios → u ∈ lote → u ∈ usuarios.
Proof.
  intros Hb Hl Hu. rewrite <- (lotes_concat cfg usuarios Hb).
  apply list_elem_of_In, in_concat. exists lote. by rewrite <- !list_elem_of_In.
Qed.

Lemma omap_exito_outcome (E : env) (frase : dict) (usuarios : list dict) :
  Forall usuario_ok usuarios →
  omap exito_de (map (outcome E frase) usuarios) = List.filter (enviado E frase) usuarios.
Proof.
  induction 1 as [|u us Hu _ IH]; [done |]. simpl.
  rewrite exito_de_outcome by done.
  destruct (enviado E frase u); [f_equal |]; apply IH.
Qed.

Lemma omap_fallo_outcome (E : env) (frase : dict) (usuarios : list dict) :
  Forall usuario_ok usuarios →
  omap fallo_de (map (outcome E frase) usuarios) = omap (fallo_registrado E frase) usuarios.
Proof.
  induction 1 as [|u us Hu _ IH]; [done |]. simpl.
  rewrite fallo_de_outcome by done.
  destruct (fallo_registrado E frase u); [f_equal |]; apply IH.
Qed.

(** The two lists of one batch, up to the order chosen by the scheduler. *)
Lemma lote_outcomes (E : env) (frase : dict) (is_retry : bool) (lote : list dict) :
  sched_ok E → is_Some (frase !! "id") → Forall usuario_ok lote →
  (lote_result E frase is_retry lote).1 ≡ₚ List.filter (enviado E frase) lote
  ∧ (lote_result E frase is_retry lote).2 ≡ₚ omap (fallo_registrado E frase) lote.
Proof.
  intros [Hexec Hdone] Hf Hok.
  assert (e_done E (map (job_result_of E frase is_retry) (e_exec E lote))
          ≡ₚ map (outcome E frase) lote) as Hperm.
  { rewrite (Hdone _), (Permutation_map _ (Hexec lote)).
    erewrite map_ext_in; [reflexivity |].
    intros u Hu. apply job_result_ok; [done |].
    rewrite Forall_forall in Hok. by apply Hok, list_elem_of_In. }
  unfold lote_result; simpl. rewrite Hperm.
  by rewrite omap_exito_outcome, omap_fallo_outcome.
Qed.

(** The two lists of a dispatch, up to the order chosen by the scheduler:
    the users for whom the transport answered True, and one failure record
    for each user for whom it raised. *)
Lemma despacho_outcomes (cfg : config) (E : env) (frase : dict) (is_retry : bool)
    (usuarios : list dict) :
  0 < batch_size cfg → sched_ok E →
  is_Some (frase !! "id") → Forall usuario_ok usuarios →
  (despacho cfg E frase is_retry usuarios).1 ≡ₚ List.filter (enviado E frase) usuarios
  ∧ (despacho cfg E frase is_retry usuarios).2 ≡ₚ omap (fallo_registrado E frase) usuarios.
Proof.
  intros Hb [Hexec Hdone] Hf Hok. rewrite Forall_forall in Hok.
  assert (∀ {C} (g : job_result → option C),
    flat_map (λ lote, omap g (e_done E (map (job_result_of E frase is_retry)
                                            (e_exec E lote)))) (lotes cfg usuarios)
    ≡ₚ omap g (map (outcome E frase) usuarios)) as Hgen.
  { intros C g.
    rewrite <- (lotes_concat cfg usuarios Hb) at 2.
    rewrite <- flat_map_omap_concat.
    apply flat_map_Permutation_ext. intros lote Hl.
    rewrite (Hdone _). rewrite (Permutation_map _ (Hexec lote)).
    erewrite map_ext_in; [reflexivity |].
    intros u Hu. apply job_result_ok; [done |].
    apply Hok, (elem_of_lotes cfg usuarios lote u Hb Hl). by apply list_elem_of_In. }
  unfold despacho, lote_result; simpl. split.
  - rewrite (Hgen _ exito_de). clear Hgen.
    induction usuarios as [|u us IH]; [done |]. simpl.
    rewrite exito_de_outcome by (apply Hok; left).
    destruct (enviado E frase u); [constructor |]; apply IH; intros; apply Hok; by right.
  - rewrite (Hgen _ fallo_de). clear Hgen.
    induction usuarios as [|u us IH]; [done |]. simpl.
    rewrite fallo_de_outcome by (apply Hok; left).
    destruct (fallo_registrado E frase u); [constructor |]; apply IH; intros; apply Hok;
      by right.
Qed.

(** ** A run: [procesar_reintentos_diferidos] and [procesar_envios] *)

Lemma bind_eq {A B} (m : M A) (k : A → M B) (w w1 : world) (a : A) :
  m w = (w1, Ok a) → bind m k w = k a w1.
Proof. intros H. unfold bind. by rewrite H. Qed.

Lemma bind_eq_raise {A B} (m : M A) (k : A → M B) (w w1 : world) (e : exn) :
  m w = (w1, Raise e) → bind m k w = (w1, Raise e).
Proof. intros H. unfold bind. by rewrite H. Qed.

Lemma usuarios_a_reintentar_local (items : list dict) :
  local (usuarios_a_reintentar items) [] [] [] (reintentables items).
Proof.
  assert (∀ acc, ∃ r, local (for_fold items acc (λ acc item,
      if marked_network item then
        let! v := lift (getitem item "usuario") in
        let! u := lift (as_dict v) in
        ret (acc ++ [u])
      else ret acc)) [] [] [] r) as H.
  { induction items as [|item items IH]; intros acc.
    - eexists. apply local_ret.
    - rewrite for_fold_cons.
      destruct (marked_network item).
      + destruct (getitem item "usuario") as [v|e] eqn:Hv.
        * destruct (as_dict v) as [u|e] eqn:Hu.
          -- destruct (IH (acc ++ [u])) as [r Hr]. exists r. intros w.
             unfold bind, lift, ret; simpl. rewrite Hu. apply Hr.
          -- eexists. intros w. unfold bind, lift; simpl. rewrite Hu.
             by rewrite apply_delta_nil.
        * eexists. intros w. unfold bind, lift; simpl. by rewrite apply_delta_nil.
      + destruct (IH acc) as [r Hr]. exists r. intros w.
        unfold bind, ret; simpl. apply Hr. }
  destruct (H []) as [r Hr]. unfold reintentables.
  replace (usuarios_a_reintentar items blank).2 with r; [exact Hr |].
  symmetry. apply (local_result _ _ _ _ _ Hr).
Qed.

Lemma reintentables_ok (items : list dict) :
  Forall (λ item, marked_network item = true → is_Some (usuario_de item)) items →
  reintentables items
  = Ok (omap (λ item, if marked_network item then usuario_de item else None) items).
Proof.
  intros Hok. unfold reintentables, usuarios_a_reintentar.
  assert (∀ acc w,
    (for_fold items acc (λ acc item,
      if marked_network item then
        let! v := lift (getitem item "usuario") in
        let! u := lift (as_dict v) in
        ret (acc ++ [u])
      else ret acc) w).2
    = Ok (acc ++ omap (λ item, if marked_network item then usuario_de item else None) items))
    as H.
  { induction Hok as [|item items Hitem _ IH]; intros acc w.
    - simpl. by rewrite app_nil_r.
    - rewrite for_fold_cons. simpl omap.
      destruct (marked_network item) eqn:Hm.
      + destruct (Hitem eq_refl) as [u Hu]. rewrite Hu.
        unfold usuario_de in Hu. unfold getitem.
        destruct (item !! "usuario") as [[| | | | | |d]|]; try done.
        injection Hu as ->. unfold bind, lift, ret; simpl.
        rewrite IH. by rewrite <- app_assoc.
      + unfold bind, ret; simpl. by rewrite IH. }
  apply H.
Qed.

Lemma lift_eq {A} (r : res A) (w : world) : lift r w = (w, r).
Proof. reflexivity. Qed.

Lemma update_metrics_eq (f : MetricsCollector.metrics → MetricsCollector.metrics) (w : world) :
  update_metrics f w = (with_metrics f w, Ok tt).
Proof. reflexivity. Qed.

Lemma load_due (E : env) (w : world) (data : retry_record) :
  w_file w = Some (Saved data) → e_read_error E = None →
  retry_after data ≤ e_now_load E →
  load_failed_users E w = (add_event EvLoad w, Ok (Some data)).
Proof.
  intros Hf Hr Hd. rewrite load_failed_users_run, Hf, Hr.
  destruct (Z.leb_spec (retry_after data) (e_now_load E)); [done | lia].
Qed.

Lemma get_metrics_eq (w : world) : get_metrics w = (w, Ok (w_metrics w)).
Proof. reflexivity. Qed.

Lemma ret_eq {A} (a : A) (w : world) : ret a w = (w, Ok a).
Proof. reflexivity. Qed.

(** The Reconcile step of a deferred-retry run. *)
Lemma reconcile_retry (cfg : config) (E : env) (nf : list dict) (frase : dict) (w : world) :
  ∃ w',
    (match nf with
     | _ :: _ => save_failed_users cfg E nf frase
     | [] => clear_failed_users E
     end) w = (w', Ok tt)
    ∧ w_file w' = match nf with
                  | [] => file_after_clear E (w_file w)
                  | _ :: _ => file_after_save cfg E nf frase (w_file w)
                  end
    ∧ w_events w' = w_events w ++ [match nf with
                                   | [] => EvClear
                                   | _ :: _ => EvSave nf frase
                                   end]
    ∧ w_metrics w' = w_metrics w.
Proof.
  destruct nf as [|item nf].
  - rewrite clear_failed_users_run. eexists. split; [reflexivity |].
    unfold file_after_clear.
    destruct (w_file w) eqn:Hf, (e_remove_error E); simpl; rewrite ?Hf; done.
  - rewrite save_failed_users_run. eexists. split; [reflexivity |].
    unfold file_after_save. destruct (e_write E); simpl; done.
Qed.

(** A deferred-retry run that reaches its end. *)
Lemma retry_run (cfg : config) (E : env) (w : world) (data : retry_record)
    (usuarios : list dict) (fid texto corto : pyval) :
  w_file w = Some (Saved data) → e_read_error E = None →
  retry_after data ≤ e_now_load E →
  reintentables (failed_users data) = Ok usuarios → usuarios ≠ [] →
  frase_data data !! "id" = Some fid →
  frase_data data !! "frase" = Some texto → slice_to 100 texto = Ok corto →
  0 < batch_size cfg → 0 < max_workers cfg →
  let frase := frase_data data in
  let d := despacho cfg E frase true usuarios in
  let network_failures := filter (λ item, marked_network item = true) d.2 in
  ∃ w' r,
    procesar_reintentos_diferidos cfg E w = (w', Ok (Exito r))
    ∧ r_is_retry r = true ∧ r_frase_id r = fid
    ∧ r_total_usuarios r = len usuarios
    ∧ r_usuarios_exitosos r = d.1 ∧ r_usuarios_fallidos r = d.2
    ∧ r_exitosos r = len d.1 ∧ r_fallidos r = len d.2
    ∧ sends (w_events w') = sends (w_events w) ++ flat_map (e_exec E) (lotes cfg usuarios)
    ∧ pool_trace (w_events w')
      = pool_trace (w_events w) ++ flat_map (lote_trace cfg E frase) (lotes cfg usuarios)
    ∧ store_trace (w_events w')
      = store_trace (w_events w)
        ++ [EvLoad; match network_failures with
                    | [] => EvClear
                    | _ :: _ => EvSave network_failures frase
                    end]
    ∧ w_file w'
      = match network_failures with
        | [] => file_after_clear E (Some (Saved data))
        | _ :: _ => file_after_save cfg E network_failures frase (Some (Saved data))
        end.
Proof.
  intros Hfile Hread Hdue Hus Hne Hid Hfr Hcorto Hb Hw frase d nf.
  change (frase_data data) with frase in Hid, Hfr.
  destruct (despacho_local cfg E usuarios frase true Hb Hw)
    as (starts & cs & evs & logs & Hrange & Hl & Hp & Hs & Hn).
  fold d in Hl. simpl in Hl.
  unfold procesar_reintentos_diferidos.
  rewrite (bind_eq _ _ _ _ _ (load_due E w data Hfile Hread Hdue)).
  cbn beta iota. fold frase.
  pose proof (usuarios_a_reintentar_local (failed_users data)) as Hre.
  rewrite Hus in Hre. rewrite (bind_eq _ _ _ _ _ (Hre _)).
  destruct usuarios as [|u0 us]; [done |]. set (usuarios := u0 :: us) in *.
  cbn beta iota.
  rewrite (bind_eq _ _ _ _ _ (update_metrics_eq _ _)).
  rewrite Hrange, (bind_eq _ _ _ _ _ (lift_eq _ _)).
  rewrite (bind_eq _ _ _ _ _ (Hl _)).
  destruct d as [ex fa] eqn:Hd. cbn beta iota. simpl in nf. fold nf.
  match goal with |- context [bind _ _ ?W] => set (w2 := W) end.
  destruct (reconcile_retry cfg E nf frase w2) as (w3 & Hrec & Hf3 & He3 & Hm3).
  rewrite (bind_eq _ _ _ _ _ Hrec).
  unfold getitem. rewrite Hid, Hfr.
  rewrite !(bind_eq _ _ _ _ _ (lift_eq _ _)). rewrite Hcorto.
  rewrite (bind_eq _ _ _ _ _ (lift_eq _ _)).
  rewrite (bind_eq _ _ _ _ _ (get_metrics_eq _)), ret_eq.
  eexists _, _. split; [reflexivity |]. simpl.
  repeat (split; [reflexivity |]).
  rewrite He3, Hf3. unfold w2; simpl.
  rewrite !app_nil_r, Hfile.
  rewrite !sends_app, !pool_trace_app, !store_trace_app, Hn, Hp, Hs. simpl.
  rewrite !app_nil_r, <- !app_assoc. simpl.
  clearbody nf. destruct nf; simpl; rewrite ?app_nil_r; repeat split; done.
Qed.

Lemma load_world (E : env) (w : world) :
  w_file (load_failed_users E w).1 = w_file w
  ∧ w_events (load_failed_users E w).1 = w_events w ++ [EvLoad]
  ∧ w_metrics (load_failed_users E w).1 = w_metrics w.
Proof.
  rewrite load_failed_users_run. simpl.
  destruct (w_file w) as [[|r]|] eqn:Hf; destruct (e_read_error E); simpl;
    rewrite ?Hf; done.
Qed.

(** CheckDeferred when nothing is due: no file, a record that is not due,
    or a file that cannot be loaded. *)
Lemma nothing_due (cfg : config) (E : env) (w : world) :
  (load_failed_users E w).2 = Ok None →
  procesar_reintentos_diferidos cfg E w
  = ((load_failed_users E w).1, Ok (Fallo "No hay reintentos pendientes")).
Proof.
  intros Hload. unfold procesar_reintentos_diferidos.
  destruct (load_failed_users E w) as [w1 r] eqn:Heq. simpl in Hload. subst r.
  by rewrite (bind_eq _ _ _ _ _ Heq).
Qed.

Lemma slice_to_any (n m : nat) (v c : pyval) :
  slice_to n v = Ok c → ∃ c', slice_to m v = Ok c'.
Proof. destruct v; simpl; eauto; done. Qed.

(** A fresh run that reaches its end. *)
Lemma fresh_run (cfg : config) (E : env) (w w1 : world) (msg : string)
    (frase : dict) (usuarios : list dict) (fid texto corto : pyval) :
  procesar_reintentos_diferidos cfg E w = (w1, Ok (Fallo msg)) →
  e_frase_dia E = Ok (Some frase) → e_active_users E = Ok usuarios → usuarios ≠ [] →
  frase !! "id" = Some fid →
  frase !! "frase" = Some texto → slice_to 100 texto = Ok corto →
  0 < batch_size cfg → 0 < max_workers cfg →
  let d := despacho cfg E frase false usuarios in
  let network_failures := filter (λ item, marked_network item = true) d.2 in
  ∃ w' r,
    procesar_envios cfg E w = (w', Ok (Exito r))
    ∧ r_is_retry r = false ∧ r_frase_id r = fid
    ∧ r_total_usuarios r = len usuarios
    ∧ r_usuarios_exitosos r = d.1 ∧ r_usuarios_fallidos r = d.2
    ∧ r_exitosos r = len d.1 ∧ r_fallidos r = len d.2
    ∧ r_errores_red r = Some (len network_failures)
    ∧ sends (w_events w') = sends (w_events w1) ++ flat_map (e_exec E) (lotes cfg usuarios)
    ∧ pool_trace (w_events w')
      = pool_trace (w_events w1) ++ flat_map (lote_trace cfg E frase) (lotes cfg usuarios)
    ∧ store_trace (w_events w')
      = store_trace (w_events w1)
        ++ match network_failures with
           | [] => []
           | _ :: _ => [EvSave network_failures frase]
           end
    ∧ w_file w'
      = match network_failures with
        | [] => w_file w1
        | _ :: _ => file_after_save cfg E network_failures frase (w_file w1)
        end.
Proof.
  intros Hretry Hfrase Husers Hne Hid Hfr Hcorto Hb Hw d nf.
  destruct (slice_to_any 100 50 texto corto Hcorto) as [corto50 Hcorto50].
  destruct (despacho_local cfg E usuarios frase false Hb Hw)
    as (starts & cs & evs & logs & Hrange & Hl & Hp & Hs & Hn).
  fold d in Hl. simpl in Hl.
  unfold procesar_envios.
  rewrite (bind_eq _ _ _ _ _ Hretry). cbn beta iota.
  rewrite Hfrase, (bind_eq _ _ _ _ _ (lift_eq _ _)). cbn beta iota.
  rewrite (dict_truthy_lookup _ _ _ Hid). cbn [negb].
  rewrite Husers, (bind_eq _ _ _ _ _ (lift_eq _ _)).
  destruct usuarios as [|u0 us]; [done |]. set (usuarios := u0 :: us) in *.
  cbn beta iota.
  rewrite (bind_eq _ _ _ _ _ (update_metrics_eq _ _)).
  unfold getitem. rewrite Hid, Hfr.
  rewrite (bind_eq _ _ _ _ _ (lift_eq _ _)). rewrite Hcorto50.
  rewrite (bind_eq _ _ _ _ _ (lift_eq _ _)).
  rewrite Hrange, (bind_eq _ _ _ _ _ (lift_eq _ _)).
  rewrite (bind_eq _ _ _ _ _ (Hl _)).
  destruct d as [ex fa] eqn:Hd. cbn beta iota. simpl in nf. fold nf.
  match goal with |- context [bind _ _ ?W] => set (w2 := W) end.
  assert (∃ w3,
    (match nf with
     | _ :: _ =>
         run! log WARNING "usuarios fallaron por errores de red. Programando reintento." in
         save_failed_users cfg E nf frase
     | [] => ret tt
     end) w2 = (w3, Ok tt)
    ∧ w_file w3 = match nf with
                  | [] => w_file w2
                  | _ :: _ => file_after_save cfg E nf frase (w_file w2)
                  end
    ∧ w_events w3 = w_events w2 ++ match nf with
                                    | [] => []
                                    | _ :: _ => [EvSave nf frase]
                                    end) as (w3 & Hrec & Hf3 & He3).
  { clearbody nf. destruct nf as [|item nf].
    - eexists. split; [reflexivity |]. by rewrite app_nil_r.
    - unfold bind, log. rewrite save_failed_users_run.
      eexists. split; [reflexivity |].
      unfold file_after_save. destruct (e_write E); done. }
  rewrite (bind_eq _ _ _ _ _ Hrec).
  rewrite (bind_eq _ _ _ _ _ (get_metrics_eq _)).
  rewrite !(bind_eq _ _ _ _ _ (lift_eq _ _)). rewrite Hcorto.
  rewrite (bind_eq _ _ _ _ _ (lift_eq _ _)), ret_eq.
  eexists _, _. split; [reflexivity |]. simpl.
  repeat (split; [reflexivity |]).
  rewrite He3, Hf3. unfold w2; simpl.
  rewrite !sends_app, !pool_trace_app, !store_trace_app, Hn, Hp, Hs. simpl.
  rewrite !app_nil_r, <- ?app_assoc.
  clearbody nf. destruct nf; simpl; rewrite ?app_nil_r; repeat split; done.
Qed.

(** ** The claims about a dispatch *)

(** C9: with a positive batch size and a positive number of workers, the
    loop over [range(0, len(usuarios), batch_size)] (in a fresh run and in
    a deferred-retry run) ends normally; its batches are consecutive
    slices of the list, in order: their concatenation is the list, each
    holds between one and [batch_size] users, and all but the last hold
    exactly [batch_size].  The pool events of the loop are, batch after
    batch, the opening of a pool of [max_workers] workers, one send for
    each user of the batch and the join of the pool: a batch starts after
    the pool of the batch before it has joined.  The defaults are 50 users
    in a batch and 5 workers. *)
Theorem C9_batches_in_order (cfg : config) (E : env) (usuarios : list dict)
    (frase : dict) (is_retry : bool) (w : world) :
  0 < batch_size cfg → 0 < max_workers cfg → (∀ l, e_exec E l ≡ₚ l) →
  ∃ starts w',
    range0 (len usuarios) (batch_size cfg) = Ok starts
    ∧ lotes cfg usuarios = map (λ i, slice usuarios i (i + batch_size cfg)) starts
    ∧ for_fold starts ([], [])
        (if is_retry then lote_reintento cfg E usuarios frase
         else lote_envio cfg E usuarios frase) w
      = (w', Ok (despacho cfg E frase is_retry usuarios))
    ∧ concat (lotes cfg usuarios) = usuarios
    ∧ (∀ i lote, lotes cfg usuarios !! i = Some lote →
         0 < len lote ≤ batch_size cfg
         ∧ ((S i < length (lotes cfg usuarios))%nat → len lote = batch_size cfg))
    ∧ pool_trace (w_events w')
      = pool_trace (w_events w) ++ flat_map (lote_trace cfg E frase) (lotes cfg usuarios)
    ∧ (∀ lote, lote ∈ lotes cfg usuarios →
         lote_trace cfg E frase lote
         = EvPoolOpen (max_workers cfg) :: map (EvSend frase) (e_exec E lote) ++ [EvPoolJoin]
         ∧ e_exec E lote ≡ₚ lote)
    ∧ batch_size default_config = 50 ∧ max_workers default_config = 5.
Proof.
  intros Hb Hw Hexec.
  destruct (despacho_local cfg E usuarios frase is_retry Hb Hw)
    as (starts & cs & evs & logs & Hrange & Hl & Hp & Hs & Hn).
  exists starts, (apply_delta cs evs logs w).
  split; [done |]. split; [unfold lotes; by rewrite Hrange |].
  split; [apply Hl |]. split; [by apply lotes_concat |].
  split; [| split; [| split; [| done]]].
  - intros i lote Hi.
    destruct (lotes_lengths cfg usuarios i lote Hb Hi) as (Hpos & Hle & Hfull & _).
    unfold len in *. split; [lia | done].
  - simpl. by rewrite pool_trace_app, Hp.
  - intros lote _. split; [done | apply Hexec].
Qed.

(** [EmailService.enviar_correo] catches what an attempt raises. *)
Lemma enviar_correo_catches (smtp : Z → dict → dict → res unit) (frase usuario : dict) :
  is_Some (usuario !! "email") →
  ∃ b, EmailService.enviar_correo smtp frase usuario = Ok b.
Proof.
  intros [email He].
  unfold EmailService.enviar_correo, EmailService.intentos, EmailService.un_intento, getitem.
  rewrite He. repeat (destruct (smtp _ frase usuario); eauto).
Qed.

Lemma enviar_correo_exhausted (smtp : Z → dict → dict → res unit) (frase usuario : dict) :
  is_Some (usuario !! "email") →
  (∀ intento, ∃ e, smtp intento frase usuario = Raise e) →
  EmailService.enviar_correo smtp frase usuario = Ok false.
Proof.
  intros [email He] Hsmtp.
  unfold EmailService.enviar_correo, EmailService.intentos, EmailService.un_intento, getitem.
  rewrite He.
  destruct (Hsmtp 1) as [e1 ->], (Hsmtp 2) as [e2 ->], (Hsmtp 3) as [e3 ->]. done.
Qed.

Lemma procesar_usuario_unsent (E : env) (usuario frase : dict) (is_retry : bool) (w : world) :
  e_send E frase usuario = Ok false →
  procesar_usuario E usuario frase is_retry w = (add_event (EvSend frase usuario) w, Ok None).
Proof.
  intros Hs. unfold procesar_usuario, try_except, bind, emit, lift, ret. by rewrite Hs.
Qed.

(** A usuario for whom the transport answered False is in neither list. *)
Lemma unsent_in_neither (E : env) (frase usuario : dict) (usuarios exitosos_l fallidos_l : list dict) :
  e_send E frase usuario = Ok false →
  exitosos_l ≡ₚ List.filter (enviado E frase) usuarios →
  fallidos_l ≡ₚ omap (fallo_registrado E frase) usuarios →
  (usuario ∉ exitosos_l) ∧ (∀ item, item ∈ fallidos_l → usuario_de item ≠ Some usuario).
Proof.
  intros Hs Hex Hfa. split.
  - rewrite Hex. intros Hin%list_elem_of_In%filter_In. destruct Hin as [_ Hen].
    unfold enviado in Hen. by rewrite Hs in Hen.
  - intros item. rewrite Hfa. intros (v & Hv & Hitem)%list_elem_of_omap Hu.
    unfold fallo_registrado in Hitem.
    destruct (e_send E frase v) as [|e] eqn:Hsv; [done |]. injection Hitem as <-.
    destruct (error_dict_facts (Some v) (job_msg E v e) (is_network_error (exn_msg e)))
      as (_ & _ & _ & Hde). simpl in Hde.
    rewrite Hde in Hu. injection Hu as ->. congruence.
Qed.

Lemma unsent_counts (E : env) (frase usuario : dict) (usuarios : list dict) :
  e_send E frase usuario = Ok false → usuario ∈ usuarios →
  (length (List.filter (enviado E frase) usuarios)
   + length (omap (fallo_registrado E frase) usuarios) < length usuarios)%nat.
Proof.
  intros Hs Hin.
  assert (∀ l : list dict,
    (length (List.filter (enviado E frase) l)
     + length (omap (fallo_registrado E frase) l) ≤ length l)%nat) as Hle.
  { induction l as [|v l IH]; [done |]. unfold omap in *. simpl.
    unfold enviado at 1, fallo_registrado at 1.
    destruct (e_send E frase v) as [[|]|e]; simpl; lia. }
  induction Hin as [u l|u v l Hin IH]; unfold omap in *; simpl.
  - unfold enviado at 1, fallo_registrado at 1. rewrite Hs. specialize (Hle l). lia.
  - specialize (IH Hs). unfold enviado at 1, fallo_registrado at 1.
    destruct (e_send E frase v) as [[|]|e]; simpl; lia.
Qed.

(** C10: when the transport is [EmailService.enviar_correo] and every SMTP
    attempt for a usuario fails, the transport answers False instead of
    raising; [procesar_usuario] then returns None and touches neither the
    collector nor the log; the usuario is in neither list of
    [procesar_lote]; and in the run the usuario is in neither list of the
    summary, the counted successes and failures stay below the total, and
    no failure record of the usuario is passed to [save_failed_users]. *)
Theorem C10_unsent_user_is_dropped (cfg : config) (E : env)
    (smtp : Z → dict → dict → res unit) (frase usuario : dict) (usuarios : list dict)
    (w w1 : world) (msg : string) (fid texto corto : pyval) :
  (∀ f u, e_send E f u = EmailService.enviar_correo smtp f u) →
  (∀ intento, ∃ e, smtp intento frase usuario = Raise e) →
  sched_ok E → 0 < batch_size cfg → 0 < max_workers cfg →
  procesar_reintentos_diferidos cfg E w = (w1, Ok (Fallo msg)) →
  e_frase_dia E = Ok (Some frase) → e_active_users E = Ok usuarios →
  frase !! "id" = Some fid →
  frase !! "frase" = Some texto → slice_to 100 texto = Ok corto →
  Forall usuario_ok usuarios → usuario ∈ usuarios →
  e_send E frase usuario = Ok false
  ∧ (∀ is_retry w0,
       procesar_usuario E usuario frase is_retry w0
       = (add_event (EvSend frase usuario) w0, Ok None))
  ∧ (∀ is_retry lote w0, Forall usuario_ok lote →
       ∃ w0' exitosos_l fallidos_l,
         procesar_lote cfg E lote frase is_retry w0 = (w0', Ok (exitosos_l, fallidos_l))
         ∧ (usuario ∉ exitosos_l)
         ∧ (∀ item, item ∈ fallidos_l → usuario_de item ≠ Some usuario))
  ∧ ∃ w' r network_failures,
      procesar_envios cfg E w = (w', Ok (Exito r))
      ∧ (usuario ∉ r_usuarios_exitosos r)
      ∧ (∀ item, item ∈ r_usuarios_fallidos r → usuario_de item ≠ Some usuario)
      ∧ r_exitosos r + r_fallidos r < r_total_usuarios r
      ∧ (∀ item, item ∈ network_failures → usuario_de item ≠ Some usuario)
      ∧ store_trace (w_events w')
        = store_trace (w_events w1)
          ++ match network_failures with
             | [] => []
             | _ :: _ => [EvSave network_failures frase]
             end
      ∧ w_file w'
        = match network_failures with
          | [] => w_file w1
          | _ :: _ => file_after_save cfg E network_failures frase (w_file w1)
          end.
Proof.
  intros Hsend Hsmtp Hsched Hb Hw Hretry Hfrase Husers Hid Hfr Hcorto Hok Hin.
  assert (e_send E frase usuario = Ok false) as Hs.
  { rewrite Hsend. apply enviar_correo_exhausted; [| done].
    rewrite Forall_forall in Hok. apply (Hok usuario Hin). }
  split; [done |]. split; [intros; by apply procesar_usuario_unsent |]. split.
  - intros is_retry lote w0 Hlote.
    destruct (procesar_lote_local cfg E lote frase is_retry Hw)
      as (cs & evs & logs & Hl & _).
    destruct (lote_outcomes E frase is_retry lote Hsched ltac:(eauto) Hlote) as [Hex Hfa].
    destruct (lote_result E frase is_retry lote) as [ex fa].
    exists (apply_delta cs evs logs w0), ex, fa. split; [apply Hl |].
    by apply (unsent_in_neither E frase usuario lote).
  - assert (usuarios ≠ []) as Hne by (intros ->; by apply not_elem_of_nil in Hin).
    destruct (fresh_run cfg E w w1 msg frase usuarios fid texto corto
                Hretry Hfrase Husers Hne Hid Hfr Hcorto Hb Hw)
      as (w' & r & Hrun & _ & _ & Htot & Hex & Hfa & Hnex & Hnfa & _ & _ & _ & Hst & Hfile).
    destruct (despacho_outcomes cfg E frase false usuarios Hb Hsched ltac:(eauto) Hok)
      as [Hpex Hpfa].
    destruct (unsent_in_neither E frase usuario usuarios _ _ Hs Hpex Hpfa) as [Hn1 Hn2].
    exists w', r, (filter (λ item, marked_network item = true)
                     (despacho cfg E frase false usuarios).2).
    split; [done |]. rewrite Hex, Hfa. split; [done |]. split; [done |].
    split; [| split; [| done]].
    + rewrite Htot, Hnex, Hnfa. unfold len.
      rewrite (Permutation_length Hpex), (Permutation_length Hpfa).
      pose proof (unsent_counts E frase usuario usuarios Hs Hin). lia.
    + intros item [_ Hitem]%list_elem_of_filter. by apply Hn2.
Qed.

(** ** The exit code of [main] *)

Lemma bind_ok_inv {A B} (m : M A) (k : A → M B) (w w' : world) (b : B) :
  bind m k w = (w', Ok b) → ∃ w1 a, m w = (w1, Ok a) ∧ k a w1 = (w', Ok b).
Proof.
  unfold bind. destruct (m w) as [w1 [a|e]]; [eauto | done].
Qed.

(** From the way a computation ended back to the way its steps ended. *)
Ltac minv H :=
  lazymatch type of H with
  | bind _ _ _ = (_, Ok _) =>
      let w1 := fresh "w" in
      let a := fresh "a" in
      let H1 := fresh "Hstep" in
      apply bind_ok_inv in H as (w1 & a & H1 & H); minv H
  | raise _ _ = (_, Ok _) => discriminate H
  | context [match ?x with _ => _ end] =>
      destruct x eqn:?; try discriminate H; minv H
  | _ => idtac
  end.

Lemma retry_total_pos (cfg : config) (E : env) (w w' : world) (r : resumen) :
  procesar_reintentos_diferidos cfg E w = (w', Ok (Exito r)) →
  r_is_retry r = true ∧ 0 < r_total_usuarios r.
Proof.
  unfold procesar_reintentos_diferidos. intros H. minv H.
  all: unfold ret in H; try discriminate H.
  injection H as _ <-. simpl. unfold len. simpl. split; [done | lia].
Qed.

Lemma envios_total_pos (cfg : config) (E : env) (w w' : world) (r : resumen) :
  procesar_envios cfg E w = (w', Ok (Exito r)) → 0 < r_total_usuarios r.
Proof.
  unfold procesar_envios. intros H.
  apply bind_ok_inv in H as (w1 & retry_result & Hretry & H).
  destruct retry_result as [error|r0].
  - minv H. all: unfold ret in H; try discriminate H.
    injection H as _ <-. simpl. unfold len. simpl. lia.
  - unfold ret in H. injection H as _ <-.
    by apply retry_total_pos in Hretry as [_ ?].
Qed.

Lemma validar_configuracion_run (E : env) (w : world) :
  ∃ w' valida,
    validar_configuracion E w = (w', Ok valida)
    ∧ (valida = true → w' = w)
    ∧ valida = match (validar_configuracion E blank).2 with
               | Ok b => b
               | Raise _ => false
               end.
Proof.
  unfold validar_configuracion.
  destruct (List.filter (falta E) required_env).
  - destruct (e_int E _) as [port|].
    + destruct ((port <=? 0) || (65535 <? port)).
      * eexists _, false. split; [reflexivity | done].
      * destruct (e_log_dir_exists E).
        -- eexists _, true. split; [reflexivity | done].
        -- destruct (e_makedirs_error E).
           ++ eexists _, false. split; [reflexivity | done].
           ++ eexists _, true. split; [reflexivity | done].
    + eexists _, false. split; [reflexivity | done].
  - eexists _, false. split; [reflexivity | done].
Qed.

(** A run with nothing due and no work: no frase for today, or no active
    user. *)
Lemma no_work (cfg : config) (E : env) (w : world) :
  (load_failed_users E w).2 = Ok None →
  e_frase_dia E = Ok None
  ∨ (∃ frase, e_frase_dia E = Ok (Some frase) ∧ dict_truthy frase = true
              ∧ e_active_users E = Ok []) →
  ∃ w1 msg, procesar_envios cfg E w = (w1, Ok (Fallo msg)).
Proof.
  intros Hload Hwork. unfold procesar_envios.
  rewrite (bind_eq _ _ _ _ _ (nothing_due cfg E w Hload)). cbn beta iota.
  destruct Hwork as [Hf | (frase & Hf & Ht & Hu)].
  - rewrite Hf, (bind_eq _ _ _ _ _ (lift_eq _ _)). cbn beta iota.
    unfold bind, log, ret. eauto.
  - rewrite Hf, (bind_eq _ _ _ _ _ (lift_eq _ _)). cbn beta iota.
    rewrite Ht. cbn [negb].
    rewrite Hu, (bind_eq _ _ _ _ _ (lift_eq _ _)). cbn beta iota.
    unfold bind, log, ret. eauto.
Qed.

(** C3 as the code has it: [main] always returns, with 0 or 1.  It returns
    0 exactly when the manager is built, the configuration is valid, the
    run ends with a summary that counts at least one success and the
    report is written; in every other case it returns 1, in particular
    when there is no frase for today or no active user. *)
Theorem C3_exit_code (cfg : config) (E : env) (w : world) :
  ∃ w' code,
    main cfg E w = (w', Ok code)
    ∧ (code = 0 ∨ code = 1)
    ∧ (code = 0 ↔
         e_init_error E = None ∧ config_valida E = true
         ∧ ∃ w1 r w2,
             procesar_envios cfg E (inicio E w) = (w1, Ok (Exito r))
             ∧ generar_reporte E (Exito r) w1 = (w2, Ok tt)
             ∧ 0 < r_exitosos r)
    ∧ (∀ w1 msg, procesar_envios cfg E (inicio E w) = (w1, Ok (Fallo msg)) → code = 1)
    ∧ ((load_failed_users E (inicio E w)).2 = Ok None →
       e_frase_dia E = Ok None
       ∨ (∃ frase, e_frase_dia E = Ok (Some frase) ∧ dict_truthy frase = true
                   ∧ e_active_users E = Ok []) →
       code = 1).
Proof.
  assert (∀ code : Z,
    (∀ w1 msg, procesar_envios cfg E (inicio E w) = (w1, Ok (Fallo msg)) → code = 1) →
    (load_failed_users E (inicio E w)).2 = Ok None →
    e_frase_dia E = Ok None
    ∨ (∃ frase, e_frase_dia E = Ok (Some frase) ∧ dict_truthy frase = true
                ∧ e_active_users E = Ok []) →
    code = 1) as Hnowork.
  { intros code Hfallo Hload Hwork.
    destruct (no_work cfg E (inicio E w) Hload Hwork) as (w1 & msg & Hrun). eauto. }
  unfold main, try_except.
  destruct (e_init_error E) as [e|] eqn:Hinit.
  { rewrite (bind_eq_raise _ _ w w e) by done.
    eexists _, 1. split; [reflexivity |]. split; [by right |].
    split; [split; [done | by intros [? _]] |]. split; [done |]. done. }
  rewrite (bind_eq _ _ _ _ _ (update_metrics_eq _ _)). fold (inicio E w).
  destruct (validar_configuracion_run E (inicio E w)) as (wv & valida & Hv & Hvw & Hval).
  fold (config_valida E) in Hval.
  rewrite (bind_eq _ _ _ _ _ Hv).
  destruct valida; cbn [negb]; cbn beta iota.
  2: { eexists _, 1. split; [reflexivity |]. split; [by right |].
       split; [split; [done | intros (_ & Hc & _); congruence] |]. split; [done |]. done. }
  rewrite (Hvw eq_refl), <- Hval. clear Hv Hvw wv.
  destruct (procesar_envios cfg E (inicio E w)) as [w1 [resultado|e]] eqn:Hrun.
  2: { rewrite (bind_eq_raise _ _ _ _ _ Hrun).
       eexists _, 1. split; [reflexivity |]. split; [by right |].
       split; [split; [done | by intros (_ & _ & ? & ? & ? & ? & _)] |]. split; [done |].
       done. }
  rewrite (bind_eq _ _ _ _ _ Hrun).
  destruct (generar_reporte E resultado w1) as [w2 [[]|e]] eqn:Hrep.
  2: { rewrite (bind_eq_raise _ _ _ _ _ Hrep).
       eexists _, 1. split; [reflexivity |]. split; [by right |].
       split; [split; [done |] |].
       - intros (_ & _ & w1' & r & w2' & Heq & Hrep' & _).
         injection Heq as -> ->. congruence.
       - split; [done |]. done. }
  rewrite (bind_eq _ _ _ _ _ Hrep).
  destruct resultado as [error|r].
  { eexists _, 1. split; [reflexivity |]. split; [by right |].
    split; [split; [done | by intros (_ & _ & ? & ? & ? & ? & _)] |]. split; [done |].
    done. }
  pose proof (envios_total_pos cfg E _ _ _ Hrun) as Htotal.
  assert (∀ code : Z, code = 0 → (0 < r_exitosos r) →
    (code = 0 ∨ code = 1)
    ∧ (code = 0 ↔
         None = None (A:=exn) ∧ true = true
         ∧ ∃ w1' r' w2',
             (w1, Ok (Exito r)) = (w1', Ok (Exito r'))
             ∧ generar_reporte E (Exito r') w1' = (w2', Ok tt)
             ∧ 0 < r_exitosos r')
    ∧ (∀ w1' msg, (w1, Ok (Exito r)) = (w1', Ok (Fallo msg)) → code = 1)) as Hzero.
  { intros code -> Hpos. split; [by left |]. split; [| done].
    split; [intros _ | done]. do 2 (split; [done |]). eauto 10. }
  destruct (Z.eqb_spec (r_exitosos r) (r_total_usuarios r)) as [Heq|Hne].
  { eexists _, 0. split; [reflexivity |].
    destruct (Hzero 0 eq_refl ltac:(lia)) as (H1 & H2 & H3).
    split; [done |]. split; [done |]. split; [done |].
    intros Hload Hwork. apply (Hnowork 0 H3 Hload Hwork). }
  destruct (Z.ltb_spec 0 (r_exitosos r)) as [Hpos|Hzer].
  { eexists _, 0. split; [reflexivity |].
    destruct (Hzero 0 eq_refl Hpos) as (H1 & H2 & H3).
    split; [done |]. split; [done |]. split; [done |].
    intros Hload Hwork. apply (Hnowork 0 H3 Hload Hwork). }
  eexists _, 1. split; [reflexivity |]. split; [by right |].
  split; [split; [done |] |].
  - intros (_ & _ & w1' & r' & w2' & Heq & _ & Hpos).
    injection Heq as -> ->. lia.
  - split; [done |]. done.
Qed.

(** ** From the summary of a run back to its inputs *)

Lemma load_some_inv (E : env) (w w0 : world) (data : retry_record) :
  load_failed_users E w = (w0, Ok (Some data)) →
  w_file w = Some (Saved data) ∧ e_read_error E = None ∧ retry_after data ≤ e_now_load E.
Proof.
  rewrite load_failed_users_run.
  destruct (w_file w) as [[|r]|]; destruct (e_read_error E); try done.
  destruct (Z.leb_spec (retry_after r) (e_now_load E)); [| done].
  intros [= _ ->]. done.
Qed.

Lemma lift_ok_inv {A} (r : res A) (w w' : world) (a : A) :
  lift r w = (w', Ok a) → r = Ok a ∧ w' = w.
Proof. unfold lift. by intros [= -> ->]. Qed.

Lemma getitem_ok_inv (d : dict) (k : string) (v : pyval) :
  getitem d k = Ok v → d !! k = Some v.
Proof. unfold getitem. destruct (d !! k); by intros [= ->]. Qed.

Lemma retry_inv (cfg : config) (E : env) (w w' : world) (r : resumen) :
  procesar_reintentos_diferidos cfg E w = (w', Ok (Exito r)) →
  ∃ data usuarios fid texto corto,
    w_file w = Some (Saved data) ∧ e_read_error E = None
    ∧ retry_after data ≤ e_now_load E
    ∧ reintentables (failed_users data) = Ok usuarios ∧ usuarios ≠ []
    ∧ frase_data data !! "id" = Some fid
    ∧ frase_data data !! "frase" = Some texto ∧ slice_to 100 texto = Ok corto.
Proof.
  unfold procesar_reintentos_diferidos. intros H.
  apply bind_ok_inv in H as (w0 & [data|] & Hload & H); [| by unfold ret in H].
  apply bind_ok_inv in H as (w1 & usuarios & Hus & H).
  rewrite (usuarios_a_reintentar_local (failed_users data) w0) in Hus.
  injection Hus as _ Hus.
  destruct usuarios as [|u0 us].
  { apply bind_ok_inv in H as (? & ? & _ & H). by unfold ret in H. }
  apply bind_ok_inv in H as (? & ? & _ & H).
  apply bind_ok_inv in H as (? & starts & _ & H).
  apply bind_ok_inv in H as (? & [ex fa] & _ & H).
  apply bind_ok_inv in H as (? & ? & _ & H).
  apply bind_ok_inv in H as (? & fid & [Hid _]%lift_ok_inv & H).
  apply bind_ok_inv in H as (? & texto & [Hfr _]%lift_ok_inv & H).
  apply bind_ok_inv in H as (? & corto & [Hcorto _]%lift_ok_inv & H).
  apply getitem_ok_inv in Hid, Hfr.
  destruct (load_some_inv E w w0 data Hload) as (Hfile & Hread & Hdue).
  exists data, (u0 :: us), fid, texto, corto. done.
Qed.

(** CheckDeferred when the run goes on to FetchFresh: the file is as it
    was, or a due record without network failures has been cleared. *)
Lemma retry_fallo_inv (cfg : config) (E : env) (w w1 : world) (msg : string) :
  procesar_reintentos_diferidos cfg E w = (w1, Ok (Fallo msg)) →
  (store_trace (w_events w1) = store_trace (w_events w) ++ [EvLoad]
   ∧ w_file w1 = w_file w)
  ∨ (store_trace (w_events w1) = store_trace (w_events w) ++ [EvLoad; EvClear]
     ∧ w_file w1 = file_after_clear E (w_file w)).
Proof.
  unfold procesar_reintentos_diferidos. intros H.
  apply bind_ok_inv in H as (w0 & failed_data & Hload & H).
  pose proof (load_world E w) as (Hf0 & He0 & _). rewrite Hload in Hf0, He0.
  simpl in Hf0, He0.
  destruct failed_data as [data|].
  2: { unfold ret in H. injection H as <- _. left.
       rewrite He0, store_trace_app. done. }
  apply bind_ok_inv in H as (w2 & usuarios & Hus & H).
  rewrite (usuarios_a_reintentar_local (failed_users data) w0) in Hus.
  injection Hus as <- _. rewrite apply_delta_nil in H.
  destruct usuarios as [|u0 us].
  - apply bind_ok_inv in H as (w3 & [] & Hclear & H).
    unfold ret in H. injection H as <- _. right.
    destruct (reconcile_retry cfg E [] (frase_data data) w0) as (w3' & Heq & Hf3 & He3 & _).
    rewrite Hclear in Heq. injection Heq as <-.
    rewrite He3, Hf3, He0, Hf0, !store_trace_app, <- app_assoc. done.
  - exfalso.
    apply bind_ok_inv in H as (? & ? & _ & H).
    apply bind_ok_inv in H as (? & ? & _ & H).
    apply bind_ok_inv in H as (? & [ex fa] & _ & H).
    apply bind_ok_inv in H as (? & ? & _ & H).
    apply bind_ok_inv in H as (? & ? & _ & H).
    apply bind_ok_inv in H as (? & ? & _ & H).
    apply bind_ok_inv in H as (? & ? & _ & H).
    apply bind_ok_inv in H as (? & ? & _ & H).
    by unfold ret in H.
Qed.

Lemma envios_inv (cfg : config) (E : env) (w w' : world) (r : resumen) :
  procesar_envios cfg E w = (w', Ok (Exito r)) →
  (r_is_retry r = true ∧ procesar_reintentos_diferidos cfg E w = (w', Ok (Exito r)))
  ∨ (r_is_retry r = false
     ∧ ∃ w1 msg frase usuarios fid texto corto,
         procesar_reintentos_diferidos cfg E w = (w1, Ok (Fallo msg))
         ∧ e_frase_dia E = Ok (Some frase) ∧ e_active_users E = Ok usuarios
         ∧ usuarios ≠ []
         ∧ frase !! "id" = Some fid
         ∧ frase !! "frase" = Some texto ∧ slice_to 100 texto = Ok corto).
Proof.
  unfold procesar_envios. intros H.
  apply bind_ok_inv in H as (w1 & [msg|r0] & Hretry & H).
  2: { unfold ret in H. injection H as <- <-. left.
       by destruct (retry_total_pos cfg E w w1 r0 Hretry). }
  right.
  apply bind_ok_inv in H as (? & [frase|] & [Hfrase ->]%lift_ok_inv & H).
  2: { apply bind_ok_inv in H as (? & ? & _ & H). by unfold ret in H. }
  destruct (dict_truthy frase); cbn [negb] in H.
  2: { apply bind_ok_inv in H as (? & ? & _ & H). by unfold ret in H. }
  apply bind_ok_inv in H as (? & usuarios & [Husers ->]%lift_ok_inv & H).
  destruct usuarios as [|u0 us].
  { apply bind_ok_inv in H as (? & ? & _ & H). by unfold ret in H. }
  apply bind_ok_inv in H as (? & ? & _ & H).
  apply bind_ok_inv in H as (? & ? & _ & H).
  apply bind_ok_inv in H as (? & ? & _ & H).
  apply bind_ok_inv in H as (? & ? & _ & H).
  apply bind_ok_inv in H as (? & [ex fa] & _ & H).
  apply bind_ok_inv in H as (? & ? & _ & H).
  apply bind_ok_inv in H as (? & ? & _ & H).
  apply bind_ok_inv in H as (? & fid & [Hid _]%lift_ok_inv & H).
  apply bind_ok_inv in H as (? & texto & [Hfr _]%lift_ok_inv & H).
  apply bind_ok_inv in H as (? & corto & [Hcorto _]%lift_ok_inv & H).
  apply getitem_ok_inv in Hid, Hfr.
  unfold ret in H. injection H as _ <-.
  split; [done |]. exists w1, msg, frase, (u0 :: us), fid, texto, corto. done.
Qed.

(** ** Reconcile *)

Lemma envios_of_retry (cfg : config) (E : env) (w w' : world) (r : resumen) :
  procesar_reintentos_diferidos cfg E w = (w', Ok (Exito r)) →
  procesar_envios cfg E w = (w', Ok (Exito r)).
Proof. intros H. unfold procesar_envios. by rewrite (bind_eq _ _ _ _ _ H). Qed.

(** C4 as the code has it, for a run that ends with a summary under a
    configuration with a positive batch size and number of workers.  In a
    deferred-retry run the store is saved with exactly the network
    failures of the dispatch and the frase of the record when there are
    any, and cleared otherwise.  In a fresh run the store is saved with
    exactly the network failures and the frase of the day when there are
    any, and otherwise left as CheckDeferred left it. *)
Theorem C4_reconcile (cfg : config) (E : env) (w w' : world) (r : resumen) :
  0 < batch_size cfg → 0 < max_workers cfg →
  procesar_envios cfg E w = (w', Ok (Exito r)) →
  let network_failures :=
    filter (λ item, marked_network item = true) (r_usuarios_fallidos r) in
  (r_is_retry r = true →
     ∃ data,
       w_file w = Some (Saved data)
       ∧ frase_data data !! "id" = Some (r_frase_id r)
       ∧ store_trace (w_events w')
         = store_trace (w_events w)
           ++ [EvLoad; match network_failures with
                       | [] => EvClear
                       | _ :: _ => EvSave network_failures (frase_data data)
                       end]
       ∧ w_file w'
         = match network_failures with
           | [] => file_after_clear E (w_file w)
           | _ :: _ => file_after_save cfg E network_failures (frase_data data) (w_file w)
           end)
  ∧ (r_is_retry r = false →
     ∃ frase w1 msg,
       e_frase_dia E = Ok (Some frase)
       ∧ frase !! "id" = Some (r_frase_id r)
       ∧ procesar_reintentos_diferidos cfg E w = (w1, Ok (Fallo msg))
       ∧ store_trace (w_events w')
         = store_trace (w_events w1)
           ++ match network_failures with
              | [] => []
              | _ :: _ => [EvSave network_failures frase]
              end
       ∧ w_file w'
         = match network_failures with
           | [] => w_file w1
           | _ :: _ => file_after_save cfg E network_failures frase (w_file w1)
           end).
Proof.
  intros Hb Hw Hrun nf.
  destruct (envios_inv cfg E w w' r Hrun) as [[Hretry Hdif] | [Hfresh Hinv]].
  - split; [intros _ | congruence].
    destruct (retry_inv cfg E w w' r Hdif)
      as (data & usuarios & fid & texto & corto & Hfile & Hread & Hdue & Hus & Hne
          & Hid & Hfr & Hcorto).
    destruct (retry_run cfg E w data usuarios fid texto corto
                Hfile Hread Hdue Hus Hne Hid Hfr Hcorto Hb Hw)
      as (w'' & r'' & Hrun' & _ & Hfid & _ & _ & Hfa & _ & _ & _ & _ & Hst & Hf').
    rewrite Hdif in Hrun'. injection Hrun' as <- <-.
    exists data. unfold nf. rewrite Hfa, Hfile, Hfid. done.
  - split; [congruence | intros _].
    destruct Hinv as (w1 & msg & frase & usuarios & fid & texto & corto & Hdif & Hfrase
                      & Husers & Hne & Hid & Hfr & Hcorto).
    destruct (fresh_run cfg E w w1 msg frase usuarios fid texto corto
                Hdif Hfrase Husers Hne Hid Hfr Hcorto Hb Hw)
      as (w'' & r'' & Hrun' & _ & Hfid & _ & _ & Hfa & _ & _ & _ & _ & _ & Hst & Hf').
    rewrite Hrun in Hrun'. injection Hrun' as <- <-.
    exists frase, w1, msg. unfold nf. rewrite Hfa, Hfid. done.
Qed.

(** ** The end-to-end scenario *)



Lemma sends_dispatch_perm (cfg : config) (E : env) (usuarios : list dict) :
  0 < batch_size cfg → sched_ok E →
  flat_map (e_exec E) (lotes cfg usuarios) ≡ₚ usuarios.
Proof.
  intros Hb [Hexec _].
  rewrite (flat_map_Permutation_ext (e_exec E) (λ l, l)) by (intros; apply Hexec).
  rewrite flat_map_concat_map, map_id. by rewrite lotes_concat.
Qed.

Lemma omap_step {A B} (f : A → option B) (x : A) (l : list A) :
  omap f (x :: l) = match f x with
                    | Some y => y :: omap f l
                    | None => omap f l
                    end.
Proof. reflexivity. Qed.

Lemma filter_step {A} (f : A → bool) (x : A) (l : list A) :
  List.filter f (x :: l) = if f x then x :: List.filter f l else List.filter f l.
Proof. reflexivity. Qed.




Lemma omap_marked_usuario (items : list dict) :
  Forall (λ item, marked_network item = true) items →
  omap (λ item, if marked_network item then usuario_de item else None) items
  = omap usuario_de items.
Proof.
  induction 1 as [|item items Hm _ IH]; [done |].
  by rewrite !omap_step, Hm, IH.
Qed.




(** ** The partition of the recipients, when the transport never answers False *)

Lemma outcomes_partition (E : env) (frase : dict) (usuarios : list dict) :
  (∀ u, u ∈ usuarios → e_send E frase u ≠ Ok false) →
  List.filter (enviado E frase) usuarios
    ++ omap usuario_de (omap (fallo_registrado E frase) usuarios) ≡ₚ usuarios
  ∧ (length (List.filter (enviado E frase) usuarios)
     + length (omap (fallo_registrado E frase) usuarios) = length usuarios)%nat.
Proof.
  induction usuarios as [|u us IH]; intros Hall; [done |].
  destruct IH as [Hp Hl]; [intros; apply Hall; by right |].
  pose proof (Hall u ltac:(left)) as Hu.
  rewrite filter_step, omap_step.
  destruct (e_send E frase u) as [[|]|e] eqn:Hs; [| done |].
  - assert (enviado E frase u = true) as -> by (unfold enviado; by rewrite Hs).
    assert (fallo_registrado E frase u = None) as ->
      by (unfold fallo_registrado; by rewrite Hs).
    simpl. split; [by constructor | lia].
  - assert (enviado E frase u = false) as -> by (unfold enviado; by rewrite Hs).
    assert (fallo_registrado E frase u
            = Some (error_dict (Some u) (job_msg E u e)
                               (is_network_error (exn_msg e)))) as ->
      by (unfold fallo_registrado; by rewrite Hs).
    rewrite omap_step.
    destruct (error_dict_facts (Some u) (job_msg E u e) (is_network_error (exn_msg e)))
      as (_ & _ & _ & Hde).
    cbn zeta in Hde. rewrite Hde. split.
    + etransitivity; [symmetry; apply Permutation_middle |]. by constructor.
    + simpl. lia.
Qed.

(** X1: when every send either is delivered or raises, the successes and
    the users of the failure records of a dispatch are, together, the
    recipients, the two counts add up to the number of recipients, and
    without repeated recipients the two lists are disjoint. *)
Lemma despacho_partition (cfg : config) (E : env) (frase : dict) (is_retry : bool)
    (usuarios : list dict) :
  0 < batch_size cfg → sched_ok E →
  is_Some (frase !! "id") → Forall usuario_ok usuarios →
  (∀ u, u ∈ usuarios → e_send E frase u ≠ Ok false) →
  let d := despacho cfg E frase is_retry usuarios in
  d.1 ++ omap usuario_de d.2 ≡ₚ usuarios
  ∧ (length d.1 + length d.2 = length usuarios)%nat
  ∧ (NoDup usuarios → ∀ u, u ∈ d.1 → u ∉ omap usuario_de d.2).
Proof.
  intros Hb Hsched Hf Hok Hall d.
  destruct (despacho_outcomes cfg E frase is_retry usuarios Hb Hsched Hf Hok) as [Hex Hfa].
  fold d in Hex, Hfa.
  destruct (outcomes_partition E frase usuarios Hall) as [Hp Hl].
  assert (d.1 ++ omap usuario_de d.2 ≡ₚ usuarios) as Hperm by (by rewrite Hex, Hfa).
  split; [done |]. split.
  - by rewrite (Permutation_length Hex), (Permutation_length Hfa).
  - intros Hnd u Hu1 Hu2. rewrite <- Hperm in Hnd.
    apply NoDup_app in Hnd as (_ & Hdisj & _). by apply (Hdisj u).
Qed.

(** ** MetricsCollector: the counters stay coherent *)

Lemma coherente_step (m : MetricsCollector.metrics) (c : metric_call) :
  coherente m → coherente (apply_call m c).
Proof.
  unfold coherente, len. intros (Hsum & Herr & Hex & Hred & Hotros & Hdif).
  destruct c as [t | error net | | n]; simpl; rewrite ?length_app; simpl.
  - repeat split; lia.
  - destruct net; repeat split; lia.
  - repeat split; lia.
  - repeat split; lia.
Qed.

Lemma coherente_calls (cs : list metric_call) (m : MetricsCollector.metrics) :
  coherente m → coherente (apply_calls cs m).
Proof.
  revert m. induction cs as [|c cs IH]; intros m Hm; [done |].
  apply IH. by apply coherente_step.
Qed.

Lemma start_time_calls (cs : list metric_call) (m : MetricsCollector.metrics) :
  MetricsCollector.start_time (apply_calls cs m) = MetricsCollector.start_time m.
Proof.
  revert m. induction cs as [|c cs IH]; intros m; [done |].
  simpl. rewrite IH. by destruct c.
Qed.

(** X2: whatever calls are made on a new [MetricsCollector], in whatever
    order the workers take its lock, the counter of failures is the sum of
    the network and the other errors and the length of the list of error
    texts, the counter of successes is the number of recorded durations,
    no counter is negative, and the start time is the one of [__init__]. *)
Theorem metrics_counters_coherent (cs : list metric_call) (t0 : float) :
  let m := apply_calls cs (MetricsCollector.init t0) in
  MetricsCollector.fallidos m
    = MetricsCollector.errores_red m + MetricsCollector.otros_errores m
  ∧ MetricsCollector.fallidos m = len (MetricsCollector.errores m)
  ∧ MetricsCollector.exitosos m = len (MetricsCollector.tiempo_promedio_envio m)
  ∧ 0 ≤ MetricsCollector.errores_red m
  ∧ 0 ≤ MetricsCollector.otros_errores m
  ∧ 0 ≤ MetricsCollector.reintentos_diferidos m
  ∧ MetricsCollector.start_time m = t0.
Proof.
  intros m.
  assert (coherente m) as (H1 & H2 & H3 & H4 & H5 & H6).
  { apply coherente_calls. unfold coherente, len. simpl. repeat split; lia. }
  repeat (split; [assumption |]).
  unfold m. by rewrite start_time_calls.
Qed.

(** ** validar_configuracion *)

Lemma falta_false (E : env) (var : string) :
  falta E var = false ↔ ∃ v, e_environ E !! var = Some v ∧ v ≠ "".
Proof.
  unfold falta, getenv. destruct (e_environ E !! var) as [v|]; split.
  - intros H. exists v. split; [done |]. intros ->. discriminate H.
  - intros (v' & [= <-] & Hne). by apply String.eqb_neq.
  - done.
  - by intros (v' & ? & _).
Qed.

Lemma nothing_missing (E : env) :
  List.filter (falta E) required_env = []
  ↔ ∀ var, var ∈ required_env → ∃ v, e_environ E !! var = Some v ∧ v ≠ "".
Proof.
  split.
  - intros Hnil var Hin. apply falta_false.
    destruct (falta E var) eqn:Hf; [| done].
    assert (In var (List.filter (falta E) required_env)) as Hbad.
    { apply List.filter_In. split; [by apply list_elem_of_In | done]. }
    rewrite Hnil in Hbad. destruct Hbad.
  - intros Hall.
    assert (∀ l, (∀ var, var ∈ l → falta E var = false) → List.filter (falta E) l = [])
      as Haux.
    { induction l as [|x l IH]; intros Hl; [done |].
      simpl. rewrite (Hl x) by left. apply IH. intros var Hin. apply Hl. by right. }
    apply Haux. intros var Hin. apply falta_false. by apply Hall.
Qed.

(** X3: [validar_configuracion] never raises.  It answers True exactly
    when the eight required variables are set and not empty, SMTP_PORT is
    read by [int] as a port between 1 and 65535, and the log directory
    exists or can be created; then it leaves no WARNING or ERROR in the
    log.  When it answers False it has logged exactly one ERROR. *)
Theorem validar_configuracion_spec (E : env) (w : world) :
  ∃ w' valida,
    validar_configuracion E w = (w', Ok valida)
    ∧ (valida = true ↔
         (∀ var, var ∈ required_env → ∃ v, e_environ E !! var = Some v ∧ v ≠ "")
         ∧ (∃ v port, e_environ E !! "SMTP_PORT" = Some v ∧ e_int E v = Some port
                      ∧ 0 < port ≤ 65535)
         ∧ (e_log_dir_exists E = true ∨ e_makedirs_error E = None))
    ∧ (valida = true → w' = w)
    ∧ (valida = false → ∃ msg, w' = add_log ERROR msg w).
Proof.
  unfold validar_configuracion.
  destruct (List.filter (falta E) required_env) as [|var0 missing] eqn:Hmissing.
  - pose proof (proj1 (nothing_missing E) Hmissing) as Hall.
    destruct (Hall "SMTP_PORT") as (v & Hv & Hne).
    { apply list_elem_of_In. simpl. do 7 right. by left. }
    assert (default "587" (getenv E "SMTP_PORT") = v) as ->
      by (unfold getenv; by rewrite Hv).
    destruct (e_int E v) as [port|] eqn:Hint.
    + destruct ((port <=? 0) || (65535 <? port)) eqn:Hrange.
      * eexists _, false. split; [reflexivity |]. split; [| split; [done | eauto]].
        split; [done |]. intros (_ & (v' & port' & Hv' & Hint' & Hp) & _).
        rewrite Hv in Hv'. injection Hv' as <-. rewrite Hint in Hint'.
        injection Hint' as <-. apply orb_true_iff in Hrange as [H | H]; lia.
      * apply orb_false_iff in Hrange as [H1 H2].
        destruct (e_log_dir_exists E) eqn:Hdir.
        -- eexists _, true. split; [reflexivity |]. split; [| split; [done | done]].
           split; [| done]. intros _. split; [done |]. split; [| by left].
           exists v, port. repeat split; [done | done | lia | lia].
        -- destruct (e_makedirs_error E) as [e|] eqn:Hmk.
           ++ eexists _, false. split; [reflexivity |]. split; [| split; [done | eauto]].
              split; [done |]. by intros (_ & _ & [? | ?]).
           ++ eexists _, true. split; [reflexivity |]. split; [| split; [done | done]].
              split; [| done]. intros _. split; [done |]. split; [| by right].
              exists v, port. repeat split; [done | done | lia | lia].
    + eexists _, false. split; [reflexivity |]. split; [| split; [done | eauto]].
      split; [done |]. intros (_ & (v' & port' & Hv' & Hint' & _) & _).
      rewrite Hv in Hv'. injection Hv' as <-. by rewrite Hint in Hint'.
  - eexists _, false. split; [reflexivity |]. split; [| split; [done | eauto]].
    split; [done |]. intros (Hall & _).
    apply nothing_missing in Hall. by rewrite Hall in Hmissing.
Qed.

(** ** The retry store: failed writes and sequences of operations *)

(** X4: [save_failed_users] does not write atomically.  When [open]
    fails the file is left as it was, so a record stored before stays.
    When [json.dump] fails after [open] has truncated the file, the record
    stored before is lost: every later [load_failed_users] answers None,
    and the next run finds no retry pending. *)
Theorem save_not_atomic (cfg : config) (E E' : env) (failed : list dict) (frase : dict)
    (w : world) :
  let w1 := (save_failed_users cfg E failed frase w).1 in
  (∀ e, e_write E = OpenFails e → w_file w1 = w_file w)
  ∧ (∀ e, e_write E = DumpFails e →
       w_file w1 = Some Corrupt
       ∧ (load_failed_users E' w1).2 = Ok None
       ∧ ∃ w2, procesar_reintentos_diferidos cfg E' w1
               = (w2, Ok (Fallo "No hay reintentos pendientes"))
               ∧ w_file w2 = Some Corrupt).
Proof.
  intros w1. unfold w1. rewrite save_failed_users_run. split.
  - intros e ->. reflexivity.
  - intros e ->. cbn [fst].
    set (w0 := add_log _ _ _).
    assert (w_file w0 = Some Corrupt) as Hfile by reflexivity.
    assert ((load_failed_users E' w0).2 = Ok None) as Hload.
    { rewrite load_failed_users_run, Hfile. by destruct (e_read_error E'). }
    split; [done |]. split; [done |].
    eexists. split; [by apply nothing_due |].
    destruct (load_world E' w0) as (-> & _). done.
Qed.

(** X5: how the operations of the store compose when the file system
    works.  After two saves a load that is due answers the record of the
    second one.  A load leaves the file as it is, so the same record is
    answered again by the next load.  After a clear, a load answers
    None. *)
Theorem store_operations_compose (cfg : config) (E1 E2 E3 : env)
    (failed1 failed2 : list dict) (frase1 frase2 : dict) (w : world) :
  e_write E1 = WriteOk → e_write E2 = WriteOk →
  e_read_error E3 = None → e_remove_error E3 = None →
  e_now_retry E2 + timedelta_minutes (retry_delay_minutes cfg) ≤ e_now_load E3 →
  let w1 := (save_failed_users cfg E1 failed1 frase1 w).1 in
  let w2 := (save_failed_users cfg E2 failed2 frase2 w1).1 in
  let w3 := (load_failed_users E3 w2).1 in
  ∃ data,
    (load_failed_users E3 w2).2 = Ok (Some data)
    ∧ failed_users data = failed2 ∧ frase_data data = frase2
    ∧ timestamp data = e_now_stamp E2
    ∧ w_file w3 = w_file w2
    ∧ (load_failed_users E3 w3).2 = Ok (Some data)
    ∧ w_file (clear_failed_users E3 w3).1 = None
    ∧ (load_failed_users E3 (clear_failed_users E3 w3).1).2 = Ok None.
Proof.
  intros Hw1 Hw2 Hread Hremove Hdue w1 w2 w3.
  set (data := {| timestamp := e_now_stamp E2; frase_data := frase2;
                  failed_users := failed2;
                  retry_after := e_now_retry E2
                                 + timedelta_minutes (retry_delay_minutes cfg) |}).
  assert (w_file w2 = Some (Saved data)) as Hf2.
  { unfold w2. rewrite save_failed_users_run, Hw2. reflexivity. }
  assert (load_failed_users E3 w2 = (add_event EvLoad w2, Ok (Some data))) as Hl2
    by (by apply load_due).
  assert (w_file w3 = Some (Saved data)) as Hf3.
  { unfold w3. by rewrite Hl2. }
  assert (w_file (clear_failed_users E3 w3).1 = None) as Hf4.
  { rewrite clear_failed_users_run, Hf3, Hremove. reflexivity. }
  exists data. split; [by rewrite Hl2 |]. split; [done |]. split; [done |].
  split; [done |]. split; [by rewrite Hf3, Hf2 |].
  split; [by rewrite (load_due E3 w3 data) |]. split; [done |].
  rewrite load_failed_users_run, Hf4. reflexivity.
Qed.

(** ** EmailService: the check of its configuration *)

Lemma validar_claves_ok (config : dict) (keys : list string) :
  EmailServiceExt.validar_claves config keys = Ok tt
  ↔ ∀ key, key ∈ keys → ∃ v, config !! key = Some v ∧ truthy v = true.
Proof.
  induction keys as [|k keys IH]; simpl.
  - split; [intros _ key Hin; by apply elem_of_nil in Hin | done].
  - unfold dict_get. destruct (config !! k) as [v|] eqn:Hk; simpl.
    + destruct (truthy v) eqn:Hv; simpl.
      * rewrite IH. split.
        -- intros Hall key [-> | Hin]%elem_of_cons; [eauto | by apply Hall].
        -- intros Hall key Hin. apply Hall. by right.
      * split; [done |]. intros Hall.
        destruct (Hall k) as (v' & Hv' & Ht); [by left |]. congruence.
    + split; [done |]. intros Hall.
      destruct (Hall k) as (v' & Hv' & _); [by left |]. congruence.
Qed.



(** ** EMAIL_CONFIG and get_config *)

Lemma int_getenv_inv (E : env) (var d : string) (v : pyval) :
  int_getenv E var d = Ok v →
  ∃ n, v = PInt n ∧ e_int E (getenv_default E var d) = Some n.
Proof.
  unfold int_getenv. destruct (e_int E (getenv_default E var d)) as [n|]; [| done].
  intros [= <-]. eauto.
Qed.

(** X7: the configuration that the script builds from the environment.
    [EMAIL_CONFIG] is built exactly when the five numeric settings are
    read by [int]; then the manager's [get_config] gives these numbers,
    and the [EmailService] accepts the configuration exactly when
    EMAIL_USER and EMAIL_PASSWORD are set and not empty, SMTP_SERVER is
    not set to the empty string, and the port is not 0. *)
Theorem email_config_from_environ (E : env) :
  let int_de := λ var d, e_int E (getenv_default E var d) in
  (is_Some (int_de "SMTP_PORT" "587") ∧ is_Some (int_de "EMAIL_MAX_RETRIES" "3")
   ∧ is_Some (int_de "EMAIL_BATCH_SIZE" "50") ∧ is_Some (int_de "EMAIL_MAX_WORKERS" "5")
   ∧ is_Some (int_de "EMAIL_RETRY_DELAY_MINUTES" "30")
   ↔ ∃ c, EMAIL_CONFIG E = Ok c)
  ∧ ∀ c, EMAIL_CONFIG E = Ok c →
      (∃ mr bs mw rd,
         get_config c = Ok {| max_retries := mr; batch_size := bs; max_workers := mw;
                              retry_delay_minutes := rd |}
         ∧ int_de "EMAIL_MAX_RETRIES" "3" = Some mr
         ∧ int_de "EMAIL_BATCH_SIZE" "50" = Some bs
         ∧ int_de "EMAIL_MAX_WORKERS" "5" = Some mw
         ∧ int_de "EMAIL_RETRY_DELAY_MINUTES" "30" = Some rd)
      ∧ (EmailServiceExt._validar_configuracion c = Ok tt
         ↔ (∃ u, e_environ E !! "EMAIL_USER" = Some u ∧ u ≠ "")
           ∧ (∃ p, e_environ E !! "EMAIL_PASSWORD" = Some p ∧ p ≠ "")
           ∧ e_environ E !! "SMTP_SERVER" ≠ Some ""
           ∧ int_de "SMTP_PORT" "587" ≠ Some 0).
Proof.
  intros int_de. split.
  - unfold EMAIL_CONFIG, int_getenv. fold (int_de "SMTP_PORT" "587").
    fold (int_de "EMAIL_MAX_RETRIES" "3"). fold (int_de "EMAIL_BATCH_SIZE" "50").
    fold (int_de "EMAIL_MAX_WORKERS" "5"). fold (int_de "EMAIL_RETRY_DELAY_MINUTES" "30").
    split.
    + intros ([n1 ->] & [n2 ->] & [n3 ->] & [n4 ->] & [n5 ->]). simpl. eauto.
    + intros [c Hc].
      destruct (int_de "SMTP_PORT" "587"); [| done].
      destruct (int_de "EMAIL_MAX_RETRIES" "3"); [| done].
      destruct (int_de "EMAIL_BATCH_SIZE" "50"); [| done].
      destruct (int_de "EMAIL_MAX_WORKERS" "5"); [| done].
      destruct (int_de "EMAIL_RETRY_DELAY_MINUTES" "30"); [| done].
      repeat split; eauto.
  - intros c Hc. unfold EMAIL_CONFIG in Hc.
    destruct (int_getenv E "SMTP_PORT" "587") as [v1|] eqn:H1; [| done].
    destruct (int_getenv E "EMAIL_MAX_RETRIES" "3") as [v2|] eqn:H2; [| done].
    destruct (int_getenv E "EMAIL_BATCH_SIZE" "50") as [v3|] eqn:H3; [| done].
    destruct (int_getenv E "EMAIL_MAX_WORKERS" "5") as [v4|] eqn:H4; [| done].
    destruct (int_getenv E "EMAIL_RETRY_DELAY_MINUTES" "30") as [v5|] eqn:H5; [| done].
    apply int_getenv_inv in H1 as (port & -> & Hport).
    apply int_getenv_inv in H2 as (mr & -> & Hmr).
    apply int_getenv_inv in H3 as (bs & -> & Hbs).
    apply int_getenv_inv in H4 as (mw & -> & Hmw).
    apply int_getenv_inv in H5 as (rd & -> & Hrd).
    simpl in Hc. injection Hc as <-.
    split.
    + exists mr, bs, mw, rd. split; [| done].
      unfold get_config, getitem. by simplify_map_eq.
    + unfold EmailServiceExt._validar_configuracion.
      rewrite validar_claves_ok. unfold EmailServiceExt.required_keys. split.
      * intros Hall.
        destruct (Hall "user") as (vu & Hu & Htu); [set_solver |].
        destruct (Hall "password") as (vp & Hp & Htp); [set_solver |].
        destruct (Hall "smtp_server") as (vs & Hs & Hts); [set_solver |].
        destruct (Hall "smtp_port") as (vn & Hn & Htn); [set_solver |].
        simplify_map_eq.
        unfold getenv_val in Htu, Htp. unfold getenv_default in Hts.
        split; [| split; [| split]].
        -- destruct (e_environ E !! "EMAIL_USER") as [u|]; [| done].
           exists u. split; [done |]. intros ->. done.
        -- destruct (e_environ E !! "EMAIL_PASSWORD") as [p|]; [| done].
           exists p. split; [done |]. intros ->. done.
        -- intros Hs. rewrite Hs in Hts. done.
        -- unfold int_de. rewrite Hport. intros [= ->]. done.
      * intros ((u & Hu & Hune) & (p & Hp & Hpne) & Hserver & Hp0) key Hin.
        assert (∀ s : string, s ≠ "" → negb (String.eqb s "") = true) as Hne.
        { intros s Hs. apply negb_true_iff. by apply String.eqb_neq. }
        apply list_elem_of_In in Hin. simpl in Hin.
        destruct Hin as [<- | [<- | [<- | [<- | []]]]]; simplify_map_eq.
        -- eexists. split; [done |]. unfold getenv_val. rewrite Hu. simpl. by apply Hne.
        -- eexists. split; [done |]. unfold getenv_val. rewrite Hp. simpl. by apply Hne.
        -- eexists. split; [done |]. simpl. apply Hne. unfold getenv_default.
           destruct (e_environ E !! "SMTP_SERVER") as [s|] eqn:Hs; simpl; [| done].
           intros ->. done.
        -- eexists. split; [done |]. simpl. apply negb_true_iff, Z.eqb_neq.
           intros ->. apply Hp0. unfold int_de. by rewrite Hport.
Qed.

(** ** EmailService.enviar_correo: attempts and waits *)

Lemma intentos_con_esperas_result (smtp : Z → dict → dict → res unit)
    (frase usuario : dict) (pendientes : list Z) :
  (EmailServiceExt.intentos_con_esperas smtp frase usuario pendientes).2
  = EmailService.intentos smtp frase usuario pendientes.
Proof.
  induction pendientes as [|i resto IH]; simpl; unfold EmailService.un_intento.
  - by destruct (getitem usuario "email").
  - destruct (getitem usuario "email"); [| done].
    destruct (smtp i frase usuario); [done |].
    destruct (EmailServiceExt.intentos_con_esperas smtp frase usuario resto). exact IH.
Qed.

(** X8: [enviar_correo] makes at most three attempts, numbered 1, 2 and
    3, and stops at the first one that succeeds.  It waits 2 seconds after
    a failed first attempt and 4 seconds after a failed second one, never
    after the last attempt it makes, so it sleeps at most 6 seconds.  For
    a usuario with an ['email'] it never raises, and it answers True
    exactly when one of the attempts it makes succeeds.  For a usuario
    without ['email'] it raises KeyError before any attempt. *)
Theorem enviar_correo_attempts (smtp : Z → dict → dict → res unit)
    (frase usuario : dict) :
  let run := EmailServiceExt.enviar_correo_acciones smtp frase usuario in
  let todas := [ EmailServiceExt.Intento 1; EmailServiceExt.Dormir 2;
                 EmailServiceExt.Intento 2; EmailServiceExt.Dormir 4;
                 EmailServiceExt.Intento 3 ] in
  run.2 = EmailService.enviar_correo smtp frase usuario
  ∧ run.1 `prefix_of` todas
  ∧ EmailServiceExt.numero_de_intentos run.1 ≤ 3
  ∧ EmailServiceExt.segundos_de_espera run.1 ≤ 6
  ∧ (usuario !! "email" = None → run = ([], Raise (KeyError "email")))
  ∧ (is_Some (usuario !! "email") →
       (run.2 = Ok true ∨ run.2 = Ok false)
       ∧ (run.2 = Ok true
          ↔ ∃ i v, i ∈ [1; 2; 3] ∧ smtp i frase usuario = Ok v)
       ∧ (run.2 = Ok true →
          ∃ i v, last run.1 = Some (EmailServiceExt.Intento i)
                 ∧ smtp i frase usuario = Ok v
                 ∧ ∀ j, EmailServiceExt.Intento j ∈ run.1 → j ≠ i →
                        ∃ e, smtp j frase usuario = Raise e)
       ∧ (run.2 = Ok false → run.1 = todas)).
Proof.
  intros run todas.
  split; [apply intentos_con_esperas_result |].
  unfold run, todas, EmailServiceExt.enviar_correo_acciones.
  cbn [EmailServiceExt.intentos_con_esperas]. unfold getitem.
  destruct (usuario !! "email") as [email|] eqn:Hemail.
  2: { cbn. split; [by eexists |]. split; [done |]. split; [done |].
       split; [done |]. by intros [? ?]. }
  destruct (smtp 1 frase usuario) as [v1|e1] eqn:H1.
  { cbn. split; [by eexists |]. split; [done |]. split; [done |].
    split; [done |]. intros _. split; [by left |]. split; [| split; [| done]].
    - split; [| done]. intros _. exists 1, v1. split; [by left | done].
    - intros _. exists 1, v1. split; [done |]. split; [done |].
      intros j Hj Hne. apply list_elem_of_In in Hj. simpl in Hj.
      destruct Hj as [[= <-] | []]. done. }
  destruct (smtp 2 frase usuario) as [v2|e2] eqn:H2.
  { cbn. split; [by eexists |]. split; [done |]. split; [done |].
    split; [done |]. intros _. split; [by left |]. split; [| split; [| done]].
    - split; [| done]. intros _. exists 2, v2. split; [right; by left | done].
    - intros _. exists 2, v2. split; [done |]. split; [done |].
      intros j Hj Hne.
      apply list_elem_of_In in Hj. simpl in Hj.
      destruct Hj as [[= <-] | [[=] | [[= <-] | []]]]; [eauto | done]. }
  destruct (smtp 3 frase usuario) as [v3|e3] eqn:H3.
  { cbn. split; [by exists [] |]. split; [done |]. split; [done |].
    split; [done |]. intros _. split; [by left |]. split; [| split; [| done]].
    - split; [| done]. intros _. exists 3, v3.
      split; [right; right; by left | done].
    - intros _. exists 3, v3. split; [done |]. split; [done |].
      intros j Hj Hne.
      apply list_elem_of_In in Hj. simpl in Hj.
      destruct Hj as [[= <-] | [[=] | [[= <-] | [[=] | [[= <-] | []]]]]];
        [eauto | eauto | done]. }
  cbn. split; [by exists [] |]. split; [done |]. split; [done |].
  split; [done |]. intros _. split; [by right |]. split; [| split; [done | done]].
  split; [done |]. intros (i & v & Hin & Hv).
  apply list_elem_of_In in Hin. simpl in Hin.
  destruct Hin as [<- | [<- | [<- | []]]]; congruence.
Qed.

(** ** EmailService.enviar_masivo *)

Lemma masivo_desde_run (smtp : Z → dict → dict → res unit) (frase : dict)
    (pendientes : list dict) (i : Z) (resultados : EmailServiceExt.conteo) :
  Forall (λ u, is_Some (u !! "email")) pendientes →
  ∃ pasos final,
    EmailServiceExt.masivo_desde smtp frase i pendientes resultados = (pasos, Ok final)
    ∧ EmailServiceExt.c_exitosos final
      = EmailServiceExt.c_exitosos resultados + len (List.filter (entregado smtp frase) pendientes)
    ∧ EmailServiceExt.c_fallidos final
      = EmailServiceExt.c_fallidos resultados
        + len (List.filter (λ u, negb (entregado smtp frase u)) pendientes)
    ∧ EmailServiceExt.c_total final = EmailServiceExt.c_total resultados
    ∧ EmailServiceExt.enviados pasos = pendientes
    ∧ EmailServiceExt.pausas pasos
      = Z.max 0 (Z.min (len pendientes) (EmailServiceExt.c_total resultados - i)).
Proof.
  intros Hemail. revert i resultados.
  induction Hemail as [|u us Hu Hus IH]; intros i resultados.
  - exists [], resultados. split; [reflexivity |].
    unfold len, EmailServiceExt.pausas, len. simpl.
    repeat split; try done; lia.
  - destruct (enviar_correo_catches smtp frase u Hu) as [b Hb].
    cbn [EmailServiceExt.masivo_desde]. unfold getitem.
    destruct Hu as [email ->]. rewrite Hb.
    match goal with
    | |- context [EmailServiceExt.masivo_desde smtp frase (i + 1) us ?r] =>
        destruct (IH (i + 1) r) as (pasos & final & -> & Hex & Hfa & Htot & Henv & Hpau)
    end.
    eexists _, final. split; [reflexivity |].
    assert (entregado smtp frase u = b) as Hent.
    { unfold entregado. rewrite Hb. by destruct b. }
    rewrite !filter_step, Hent.
    assert (EmailServiceExt.enviados
              (EmailServiceExt.Enviar u
               :: (if i <? EmailServiceExt.c_total resultados
                   then [EmailServiceExt.Pausa 1] else []) ++ pasos) = u :: us) as Henv'.
    { unfold EmailServiceExt.enviados in *. rewrite omap_step. f_equal.
      destruct (i <? EmailServiceExt.c_total resultados); simpl; exact Henv. }
    assert (EmailServiceExt.pausas
              (EmailServiceExt.Enviar u
               :: (if i <? EmailServiceExt.c_total resultados
                   then [EmailServiceExt.Pausa 1] else []) ++ pasos)
            = (if i <? EmailServiceExt.c_total resultados then 1 else 0)
              + EmailServiceExt.pausas pasos) as Hpau'.
    { unfold EmailServiceExt.pausas, len.
      destruct (i <? EmailServiceExt.c_total resultados); simpl; lia. }
    rewrite Henv', Hpau', Hpau. unfold len in *. cbn [length].
    destruct b; cbn [negb] in *; cbn [EmailServiceExt.c_exitosos EmailServiceExt.c_fallidos
                                      EmailServiceExt.c_total length] in *;
      (split; [lia |]; split; [lia |]; split; [lia |]; split; [done |]);
      (destruct (i <? EmailServiceExt.c_total resultados) eqn:Hlt;
       [apply Z.ltb_lt in Hlt | apply Z.ltb_ge in Hlt]; lia).
Qed.

(** X9: when every usuario has an ['email'], [enviar_masivo] never raises
    and sends to each usuario once, in the order of the list, with a
    pause of one second between two users and none after the last.  A
    send that [enviar_correo] answers with False is counted as failed, so
    the successes and the failures it reports add up to the total, which
    is the number of users. *)
Theorem enviar_masivo_counts (smtp : Z → dict → dict → res unit) (frase : dict)
    (usuarios : list dict) :
  Forall (λ u, is_Some (u !! "email")) usuarios →
  ∃ pasos resultados,
    EmailServiceExt.enviar_masivo smtp frase usuarios = (pasos, Ok resultados)
    ∧ EmailServiceExt.c_total resultados = len usuarios
    ∧ EmailServiceExt.c_exitosos resultados = len (List.filter (entregado smtp frase) usuarios)
    ∧ EmailServiceExt.c_fallidos resultados
      = len (List.filter (λ u, negb (entregado smtp frase u)) usuarios)
    ∧ EmailServiceExt.c_exitosos resultados + EmailServiceExt.c_fallidos resultados
      = EmailServiceExt.c_total resultados
    ∧ EmailServiceExt.enviados pasos = usuarios
    ∧ EmailServiceExt.pausas pasos = Z.max 0 (len usuarios - 1).
Proof.
  intros Hemail. unfold EmailServiceExt.enviar_masivo.
  destruct (masivo_desde_run smtp frase usuarios 1
              {| EmailServiceExt.c_exitosos := 0; EmailServiceExt.c_fallidos := 0;
                 EmailServiceExt.c_total := len usuarios |} Hemail)
    as (pasos & final & -> & Hex & Hfa & Htot & Henv & Hpau).
  cbn [EmailServiceExt.c_exitosos EmailServiceExt.c_fallidos EmailServiceExt.c_total]
    in *.
  exists pasos, final. split; [done |]. split; [done |].
  split; [lia |]. split; [lia |]. split; [| split; [done | lia]].
  rewrite Hex, Hfa, Htot. unfold len.
  assert (∀ l : list dict,
            (length (List.filter (entregado smtp frase) l)
             + length (List.filter (λ u, negb (entregado smtp frase u)) l) = length l)%nat) as Hpart.
  { induction l as [|x l IH]; [done |]. simpl. destruct (entregado smtp frase x); simpl; lia. }
  specialize (Hpart usuarios). lia.
Qed.

(** X10: a usuario without an ['email'] aborts [enviar_masivo] with a
    KeyError: the users before it have been sent to, the users after it
    are not, and the counts of the sends already made are lost. *)
Theorem enviar_masivo_missing_email (smtp : Z → dict → dict → res unit) (frase : dict)
    (antes despues : list dict) (usuario : dict) :
  Forall (λ u, is_Some (u !! "email")) antes →
  usuario !! "email" = None →
  ∃ pasos,
    EmailServiceExt.enviar_masivo smtp frase (antes ++ usuario :: despues)
    = (pasos, Raise (KeyError "email"))
    ∧ EmailServiceExt.enviados pasos = antes.
Proof.
  intros Hantes Hsin. unfold EmailServiceExt.enviar_masivo.
  generalize 1.
  generalize {| EmailServiceExt.c_exitosos := 0; EmailServiceExt.c_fallidos := 0;
                EmailServiceExt.c_total := len (antes ++ usuario :: despues) |}.
  induction Hantes as [|u us Hu Hus IH]; intros resultados i.
  - cbn [app EmailServiceExt.masivo_desde]. unfold getitem. rewrite Hsin.
    by exists [].
  - destruct (enviar_correo_catches smtp frase u Hu) as [b Hb].
    cbn [app EmailServiceExt.masivo_desde]. unfold getitem.
    destruct Hu as [email ->]. rewrite Hb.
    match goal with
    | |- context [EmailServiceExt.masivo_desde smtp frase (i + 1) _ ?r] =>
        destruct (IH r (i + 1)) as (pasos & -> & Henv)
    end.
    eexists. split; [reflexivity |].
    unfold EmailServiceExt.enviados in *. rewrite omap_step. f_equal.
    destruct (i <? EmailServiceExt.c_total resultados); simpl; exact Henv.
Qed.

(** ** A run that finds a record due *)

Lemma envios_app (evs1 evs2 : list event) :
  envios (evs1 ++ evs2) = envios evs1 ++ envios evs2.
Proof. apply omap_app. Qed.

Lemma envios_pool_trace (evs : list event) : envios (pool_trace evs) = envios evs.
Proof.
  unfold envios, pool_trace. induction evs as [|ev evs IH]; [done |].
  rewrite (filter_step is_pool_event).
  destruct ev; cbn [is_pool_event]; rewrite !omap_step; by rewrite IH.
Qed.

Lemma envios_lote_trace (cfg : config) (E : env) (frase : dict) (lote : list dict) :
  envios (lote_trace cfg E frase lote) = map (λ u, (frase, u)) (e_exec E lote).
Proof.
  unfold lote_trace, envios. rewrite omap_step, omap_app. simpl.
  rewrite app_nil_r. induction (e_exec E lote) as [|u us IH]; [done |].
  cbn [map]. by rewrite omap_step, IH.
Qed.

Lemma envios_despacho (cfg : config) (E : env) (frase : dict) (usuarios : list dict) :
  0 < batch_size cfg → sched_ok E →
  envios (flat_map (lote_trace cfg E frase) (lotes cfg usuarios))
  ≡ₚ map (λ u, (frase, u)) usuarios.
Proof.
  intros Hb Hsched.
  assert (envios (flat_map (lote_trace cfg E frase) (lotes cfg usuarios))
          = map (λ u, (frase, u)) (flat_map (e_exec E) (lotes cfg usuarios))) as ->.
  { induction (lotes cfg usuarios) as [|lote ls IH]; [done |].
    rewrite !flat_map_step, envios_app, map_app, envios_lote_trace. by rewrite IH. }
  apply Permutation_map. by apply sends_dispatch_perm.
Qed.

Lemma retry_ignores_today (cfg : config) (E : env) (hoy : res (option dict))
    (activos : res (list dict)) :
  procesar_reintentos_diferidos cfg (con_hoy hoy activos E)
  = procesar_reintentos_diferidos cfg E.
Proof. reflexivity. Qed.

(** X11: a run that finds a record due with at least one user to retry
    does nothing but the retry.  Whatever the database answers for the
    frase of the day and for the active users, the run sends the frase of
    the record, once to each user of the record that is marked as a
    network failure and to nobody else, and ends with the summary of a
    retry: the frase of the day is not sent in this run. *)
Theorem due_record_is_the_whole_run (cfg : config) (E : env) (w : world)
    (data : retry_record) (usuarios : list dict) (fid texto corto : pyval) :
  w_file w = Some (Saved data) → e_read_error E = None →
  retry_after data ≤ e_now_load E →
  reintentables (failed_users data) = Ok usuarios → usuarios ≠ [] →
  frase_data data !! "id" = Some fid →
  frase_data data !! "frase" = Some texto → slice_to 100 texto = Ok corto →
  0 < batch_size cfg → 0 < max_workers cfg → sched_ok E →
  ∃ w' r nuevos,
    (∀ hoy activos,
       procesar_envios cfg (con_hoy hoy activos E) w = (w', Ok (Exito r)))
    ∧ procesar_envios cfg E w = (w', Ok (Exito r))
    ∧ r_is_retry r = true
    ∧ r_frase_id r = fid
    ∧ r_total_usuarios r = len usuarios
    ∧ envios (w_events w') = envios (w_events w) ++ nuevos
    ∧ nuevos ≡ₚ map (λ u, (frase_data data, u)) usuarios.
Proof.
  intros Hfile Hread Hdue Hre Hne Hid Hfr Hcorto Hb Hw Hsched.
  destruct (retry_run cfg E w data usuarios fid texto corto)
    as (w' & r & Hrun & Hretry & Hfid & Htotal & _ & _ & _ & _ & _ & Hpool & _);
    try done.
  exists w', r, (envios (flat_map (lote_trace cfg E (frase_data data))
                                  (lotes cfg usuarios))).
  split; [| split; [by apply envios_of_retry |]].
  { intros hoy activos. apply envios_of_retry. by rewrite retry_ignores_today. }
  split; [done |]. split; [done |]. split; [done |]. split.
  - rewrite <- (envios_pool_trace (w_events w')), Hpool, envios_app.
    by rewrite envios_pool_trace.
  - by apply envios_despacho.
Qed.

(** ** What a fresh run stores for the retry *)

Lemma red_registrada (E : env) (frase : dict) (usuarios : list dict) :
  let registrados := omap (fallo_registrado E frase) usuarios in
  let nf := filter (λ item, marked_network item = true) registrados in
  omap usuario_de nf = List.filter (fallo_de_red E frase) usuarios
  ∧ Forall (λ item, marked_network item = true → is_Some (usuario_de item)) nf.
Proof.
  induction usuarios as [|u us IH]; [by split |].
  destruct IH as [IH1 IH2]. cbn zeta.
  rewrite omap_step, filter_step.
  destruct (e_send E frase u) as [b|e] eqn:Hs.
  { assert (fallo_registrado E frase u = None) as ->
      by (unfold fallo_registrado; by rewrite Hs).
    assert (fallo_de_red E frase u = false) as ->
      by (unfold fallo_de_red; by rewrite Hs).
    by split. }
  assert (fallo_registrado E frase u
          = Some (error_dict (Some u) (job_msg E u e) (is_network_error (exn_msg e))))
    as -> by (unfold fallo_registrado; by rewrite Hs).
  assert (fallo_de_red E frase u = is_network_error (exn_msg e)) as ->
    by (unfold fallo_de_red; by rewrite Hs).
  destruct (error_dict_facts (Some u) (job_msg E u e) (is_network_error (exn_msg e)))
    as (_ & _ & Hmark & Hde). cbn zeta in Hmark, Hde.
  rewrite filter_cons. destruct (is_network_error (exn_msg e)) eqn:Hnet.
  - rewrite decide_True by done. rewrite omap_step, Hde. split; [by f_equal |].
    constructor; [by rewrite Hde | done].
  - rewrite decide_False by (rewrite Hmark; done). by split.
Qed.

(** X12: what a fresh run stores for the retry.  When the pool runs each
    worker once and the users are as [get_active_users] returns them, the
    failure records marked as network failures in the summary are those
    of the users whose send raised an exception that [is_network_error]
    accepts, and of no others.  Each of them carries its usuario, so the
    list that the run saves is read back by the retry without a KeyError,
    and the retry will attempt exactly those users. *)
Theorem fresh_run_stores_the_network_failures (cfg : config) (E : env) (w w1 : world)
    (msg : string) (frase : dict) (usuarios : list dict) (fid texto corto : pyval) :
  procesar_reintentos_diferidos cfg E w = (w1, Ok (Fallo msg)) →
  e_frase_dia E = Ok (Some frase) → e_active_users E = Ok usuarios → usuarios ≠ [] →
  frase !! "id" = Some fid →
  frase !! "frase" = Some texto → slice_to 100 texto = Ok corto →
  0 < batch_size cfg → 0 < max_workers cfg → sched_ok E →
  Forall usuario_ok usuarios →
  ∃ w' r,
    procesar_envios cfg E w = (w', Ok (Exito r))
    ∧ let network_failures :=
        filter (λ item, marked_network item = true) (r_usuarios_fallidos r) in
      omap usuario_de network_failures ≡ₚ List.filter (fallo_de_red E frase) usuarios
      ∧ length network_failures = length (List.filter (fallo_de_red E frase) usuarios)
      ∧ r_errores_red r = Some (len network_failures)
      ∧ reintentables network_failures = Ok (omap usuario_de network_failures)
      ∧ (∀ u, u ∈ r_usuarios_exitosos r → u ∉ omap usuario_de network_failures)
      ∧ (e_write E = WriteOk → network_failures ≠ [] →
         ∃ record, w_file w' = Some (Saved record)
                   ∧ failed_users record = network_failures
                   ∧ frase_data record = frase).
Proof.
  intros Hretry Hfrase Husers Hne Hid Hfr Hcorto Hb Hw Hsched Hok.
  destruct (fresh_run cfg E w w1 msg frase usuarios fid texto corto)
    as (w' & r & Hrun & _ & _ & _ & Hex & Hfa & _ & _ & Hred & _ & _ & _ & Hfile);
    try done.
  exists w', r. split; [done |]. cbn zeta.
  destruct (despacho_outcomes cfg E frase false usuarios Hb Hsched) as [Hdex Hdfa];
    [by rewrite Hid | done |].
  rewrite <- Hfa in Hdfa. rewrite <- Hex in Hdex.
  cbn zeta in Hred, Hfile. rewrite <- Hfa in Hred, Hfile.
  destruct (red_registrada E frase usuarios) as [Hreg Hregok]. cbn zeta in Hreg, Hregok.
  set (nf := filter (λ item, marked_network item = true) (r_usuarios_fallidos r)).
  assert (nf ≡ₚ filter (λ item, marked_network item = true)
                       (omap (fallo_registrado E frase) usuarios)) as Hnf
    by (unfold nf; by rewrite Hdfa).
  assert (omap usuario_de nf ≡ₚ List.filter (fallo_de_red E frase) usuarios) as Hus
    by (by rewrite Hnf, Hreg).
  assert (Forall (λ item, marked_network item = true) nf) as Hmarked.
  { apply Forall_forall. intros item Hitem. unfold nf in Hitem.
    by apply list_elem_of_filter in Hitem as [? _]. }
  assert (Forall (λ item, marked_network item = true → is_Some (usuario_de item)) nf)
    as Hnfok by (by rewrite Hnf).
  split; [done |]. split.
  { rewrite <- (Permutation_length Hus).
    clear -Hmarked Hnfok. induction nf as [|item nf IH]; [done |].
    apply Forall_cons in Hmarked as [Hm Hms]. apply Forall_cons in Hnfok as [Hi His].
    rewrite omap_step. destruct (Hi Hm) as [u ->]. simpl. f_equal. by apply IH. }
  split; [done |]. split.
  { rewrite reintentables_ok by done. by rewrite omap_marked_usuario. }
  split.
  { intros u Hu Hin. rewrite Hdex in Hu. rewrite Hus in Hin.
    apply list_elem_of_In, List.filter_In in Hu as [_ Hu].
    apply list_elem_of_In, List.filter_In in Hin as [_ Hin].
    unfold enviado in Hu. unfold fallo_de_red in Hin.
    by destruct (e_send E frase u) as [[|]|e]. }
  intros Hwrite Hnonempty. fold nf in Hfile.
  destruct nf as [|item nf'] eqn:Hnfeq; [done |].
  rewrite Hfile. unfold file_after_save. rewrite Hwrite.
  eexists. split; [reflexivity |]. by split.
Qed.

(** ** The first version of the script: every user is counted *)




(** ** A configuration without batches or without workers *)

Section Guarda.
Context {A B T : Type} (f : world → T).

Lemma guarda_ret (a : A) (P : A → Prop) : P a → guarda f (ret a) P.
Proof. intros Ha w. split; [done |]. by intros a' [= <-]. Qed.

Lemma guarda_raise (e : exn) (P : A → Prop) : guarda f (raise e) P.
Proof. intros w. split; [done |]. by intros a'. Qed.

Lemma guarda_lift (r : res A) (P : A → Prop) :
  (∀ a, r = Ok a → P a) → guarda f (lift r) P.
Proof. intros Hr w. split; [done |]. exact Hr. Qed.

Lemma guarda_weaken (m : M A) (P Q : A → Prop) :
  guarda f m P → (∀ a, P a → Q a) → guarda f m Q.
Proof.
  intros Hm HPQ w. destruct (Hm w) as [Hs Hp]. split; [done |].
  intros a Ha. by apply HPQ, Hp.
Qed.

Lemma guarda_bind (m : M A) (k : A → M B) (Q : A → Prop) (P : B → Prop) :
  guarda f m Q → (∀ a, Q a → guarda f (k a) P) → guarda f (bind m k) P.
Proof.
  intros Hm Hk w. unfold bind. destruct (Hm w) as [Hs Hq].
  destruct (m w) as [w1 [a|e]]; simpl in *.
  - destruct (Hk a (Hq a eq_refl) w1) as [Hs1 Hp]. split; [by rewrite Hs1 | done].
  - split; [done |]. by intros b.
Qed.

Lemma guarda_try (m : M A) (h : exn → M A) (P : A → Prop) :
  guarda f m P → (∀ e, guarda f (h e) P) → guarda f (try_except m h) P.
Proof.
  intros Hm Hh w. unfold try_except. destruct (Hm w) as [Hs Hp].
  destruct (m w) as [w1 [a|e]]; simpl in *.
  - split; [done | done].
  - destruct (Hh e w1) as [Hs1 Hp1]. split; [by rewrite Hs1 | done].
Qed.

Lemma guarda_capture (m : M A) (P : A → Prop) :
  guarda f m P → guarda f (capture m) (λ _, True).
Proof.
  intros Hm w. unfold capture. destruct (Hm w) as [Hs _].
  destruct (m w) as [w1 r]. by split.
Qed.

End Guarda.

Lemma guarda_for_each {A T} (f : world → T) (l : list A) (body : A → M unit) :
  (∀ x, x ∈ l → guarda f (body x) (λ _, True)) → guarda f (for_each l body) (λ _, True).
Proof.
  induction l as [|x l IH]; intros Hbody; simpl.
  - by apply guarda_ret.
  - eapply guarda_bind; [apply Hbody; by left |]. intros _ _.
    apply IH. intros y Hy. apply Hbody. by right.
Qed.

Lemma guarda_for_fold {A S T} (f : world → T) (l : list A) (s : S) (body : S → A → M S) :
  (∀ s x, x ∈ l → guarda f (body s x) (λ _, True)) →
  guarda f (for_fold l s body) (λ _, True).
Proof.
  revert s. induction l as [|x l IH]; intros s Hbody; simpl.
  - by apply guarda_ret.
  - eapply guarda_bind; [apply Hbody; by left |]. intros s' _.
    apply IH. intros s'' y Hy. apply Hbody. by right.
Qed.

Lemma guarda_map_M {A B T} (f : world → T) (l : list A) (body : A → M B) :
  (∀ x, x ∈ l → guarda f (body x) (λ _, True)) → guarda f (map_M body l) (λ _, True).
Proof.
  induction l as [|x l IH]; intros Hbody; simpl.
  - by apply guarda_ret.
  - eapply guarda_bind; [apply Hbody; by left |]. intros y _.
    eapply guarda_bind; [apply IH; intros z Hz; apply Hbody; by right |].
    intros ys _. by apply guarda_ret.
Qed.

(** A loop whose body never returns leaves its accumulator as it is. *)
Lemma guarda_for_fold_never {A S T} (f : world → T) (l : list A) (s : S)
    (body : S → A → M S) :
  (∀ s x, guarda f (body s x) (λ _, False)) →
  guarda f (for_fold l s body) (λ s', s' = s).
Proof.
  intros Hbody. destruct l as [|x l]; simpl.
  - by apply guarda_ret.
  - eapply guarda_bind; [apply Hbody |]. by intros s' [].
Qed.

Lemma callado_local {A} (m : M A) cs evs logs (r : res A) (P : A → Prop) :
  local m cs evs logs r → sends evs = [] → (∀ a, r = Ok a → P a) → callado m P.
Proof.
  intros Hm Hevs Hr w. pose proof (Hm w) as Hw.
  destruct (m w) as [w' r']. injection Hw as -> ->. unfold enviados_a. simpl.
  by rewrite sends_app, Hevs, app_nil_r.
Qed.

Lemma callado_log (lv : level) (msg : string) : callado (log lv msg) (λ _, True).
Proof. by eapply callado_local; [apply local_log | |]. Qed.

Lemma callado_update (f : MetricsCollector.metrics → MetricsCollector.metrics) :
  callado (update_metrics f) (λ _, True).
Proof. intros w. by split. Qed.

Lemma callado_get_metrics : callado get_metrics (λ _, True).
Proof. intros w. by split. Qed.

Lemma callado_load (E : env) : callado (load_failed_users E) (λ _, True).
Proof.
  intros w. unfold enviados_a. destruct (load_world E w) as (_ & Hev & _).
  rewrite Hev, sends_app. simpl. by rewrite app_nil_r.
Qed.

Lemma callado_clear (E : env) : callado (clear_failed_users E) (λ _, True).
Proof.
  intros w. unfold enviados_a. rewrite clear_failed_users_run. split; [| done].
  destruct (w_file w), (e_remove_error E); simpl;
    rewrite sends_app; simpl; by rewrite app_nil_r.
Qed.

Lemma callado_save (cfg : config) (E : env) (failed : list dict) (frase : dict) :
  callado (save_failed_users cfg E failed frase) (λ _, True).
Proof.
  intros w. unfold enviados_a. rewrite save_failed_users_run. split; [| done].
  destruct (e_write E); simpl; rewrite sends_app; simpl; by rewrite app_nil_r.
Qed.

Lemma callado_usuarios_a_reintentar (items : list dict) :
  callado (usuarios_a_reintentar items) (λ _, True).
Proof. by eapply callado_local; [apply usuarios_a_reintentar_local | |]. Qed.

Lemma callado_procesar_lote (cfg : config) (E : env) (lote : list dict) (frase : dict)
    (is_retry : bool) :
  max_workers cfg ≤ 0 →
  callado (procesar_lote cfg E lote frase is_retry) (λ _, False).
Proof.
  intros Hw. eapply callado_local; [by apply procesar_lote_refused | done | done].
Qed.

Lemma range0_nonpositive (stop step : Z) (starts : list Z) :
  step ≤ 0 → range0 stop step = Ok starts → starts = [].
Proof.
  unfold range0. intros Hstep.
  destruct (step =? 0) eqn:H0; [done |].
  destruct (step <? 0) eqn:Hneg; [by intros [= <-] |].
  apply Z.eqb_neq in H0. apply Z.ltb_ge in Hneg. lia.
Qed.

Lemma callado_despacho (cfg : config) (E : env) (usuarios : list dict) (frase : dict)
    (is_retry : bool) (starts : list Z) :
  batch_size cfg ≤ 0 ∨ max_workers cfg ≤ 0 →
  range0 (len usuarios) (batch_size cfg) = Ok starts →
  callado (for_fold starts ([], [])
             (if is_retry then lote_reintento cfg E usuarios frase
              else lote_envio cfg E usuarios frase))
          (λ todos, todos = ([], [])).
Proof.
  intros [Hb | Hw] Hstarts.
  - rewrite (range0_nonpositive _ _ _ Hb Hstarts). simpl. by apply guarda_ret.
  - apply guarda_for_fold_never. intros [ex fa] i.
    destruct is_retry; unfold lote_reintento, lote_envio;
      (eapply guarda_bind; [by apply callado_procesar_lote | by intros ? []]).
Qed.

Lemma callado_retry (cfg : config) (E : env) :
  batch_size cfg ≤ 0 ∨ max_workers cfg ≤ 0 →
  callado (procesar_reintentos_diferidos cfg E)
          (λ resultado, ∀ r, resultado = Exito r →
                             r_exitosos r = 0 ∧ 0 < r_total_usuarios r).
Proof.
  intros Hmis. unfold procesar_reintentos_diferidos.
  eapply guarda_bind; [apply callado_load |]. intros [data|] _.
  2: { by apply guarda_ret. }
  eapply guarda_bind; [apply callado_usuarios_a_reintentar |]. intros [|u us] _.
  { eapply guarda_bind; [apply callado_clear |]. intros _ _. by apply guarda_ret. }
  eapply guarda_bind; [apply callado_update |]. intros _ _.
  eapply guarda_bind;
    [apply (guarda_lift _ _ (λ starts, range0 (len (u :: us)) (batch_size cfg)
                                      = Ok starts)); eauto |].
  intros starts Hstarts.
  eapply guarda_bind; [by apply (callado_despacho cfg E (u :: us) _ true) |].
  intros todos ->. cbn [filter list_filter].
  eapply guarda_bind; [apply callado_clear |]. intros _ _.
  eapply guarda_bind; [by apply (guarda_lift _ _ (λ _, True)) |]. intros fid _.
  eapply guarda_bind; [by apply (guarda_lift _ _ (λ _, True)) |]. intros texto _.
  eapply guarda_bind; [by apply (guarda_lift _ _ (λ _, True)) |]. intros corto _.
  eapply guarda_bind; [apply callado_get_metrics |]. intros m _.
  apply guarda_ret. intros r [= <-]. simpl. unfold len. simpl. split; [done | lia].
Qed.

Lemma callado_envios (cfg : config) (E : env) :
  batch_size cfg ≤ 0 ∨ max_workers cfg ≤ 0 →
  callado (procesar_envios cfg E)
          (λ resultado, ∀ r, resultado = Exito r →
                             r_exitosos r = 0 ∧ 0 < r_total_usuarios r).
Proof.
  intros Hmis. unfold procesar_envios.
  eapply guarda_bind; [by apply callado_retry |]. intros [error|r] Hr.
  2: { apply guarda_ret. by intros r' [= <-]; apply Hr. }
  eapply guarda_bind; [by apply (guarda_lift _ _ (λ _, True)) |]. intros [frase|] _.
  2: { eapply guarda_bind; [apply callado_log |]. intros _ _. by apply guarda_ret. }
  destruct (negb (dict_truthy frase)).
  { eapply guarda_bind; [apply callado_log |]. intros _ _. by apply guarda_ret. }
  eapply guarda_bind; [by apply (guarda_lift _ _ (λ _, True)) |]. intros [|u us] _.
  { eapply guarda_bind; [apply callado_log |]. intros _ _. by apply guarda_ret. }
  eapply guarda_bind; [apply callado_update |]. intros _ _.
  eapply guarda_bind; [by apply (guarda_lift _ _ (λ _, True)) |]. intros texto _.
  eapply guarda_bind; [by apply (guarda_lift _ _ (λ _, True)) |]. intros c50 _.
  eapply guarda_bind;
    [apply (guarda_lift _ _ (λ starts, range0 (len (u :: us)) (batch_size cfg)
                                      = Ok starts)); eauto |].
  intros starts Hstarts.
  eapply guarda_bind; [by apply (callado_despacho cfg E (u :: us) _ false) |].
  intros todos ->. cbn [filter list_filter].
  eapply guarda_bind; [by apply (guarda_ret _ tt (λ _, True)) |]. intros _ _.
  eapply guarda_bind; [apply callado_get_metrics |]. intros m _.
  eapply guarda_bind; [by apply (guarda_lift _ _ (λ _, True)) |]. intros fid _.
  eapply guarda_bind; [by apply (guarda_lift _ _ (λ _, True)) |]. intros texto' _.
  eapply guarda_bind; [by apply (guarda_lift _ _ (λ _, True)) |]. intros corto _.
  apply guarda_ret. intros r [= <-]. simpl. unfold len. simpl. split; [done | lia].
Qed.

Lemma callado_validar (E : env) : callado (validar_configuracion E) (λ _, True).
Proof.
  intros w. unfold enviados_a.
  destruct (validar_configuracion_run E w) as (w' & valida & Hrun & Hsame & _).
  rewrite Hrun. simpl. split; [| done].
  unfold validar_configuracion in Hrun.
  repeat match type of Hrun with
         | context [match ?x with _ => _ end] => destruct x
         end;
    unfold bind, log, ret in Hrun; simpl in Hrun; injection Hrun as <- _; done.
Qed.

Lemma callado_reporte (E : env) (resultado : resultados) :
  callado (generar_reporte E resultado) (λ _, True).
Proof.
  destruct resultado as [error|r]; simpl; [apply callado_log |].
  apply (guarda_bind _ _ _ (λ _, True)).
  { apply guarda_for_each. intros u _. unfold tipo_lower.
    destruct (dict_get u "tipo_suscripcion" (PStr ""));
      (by apply guarda_ret) || apply guarda_raise. }
  intros _ _. apply (guarda_bind _ _ _ (λ _, True)).
  { destruct (MetricsCollector.errores _); [by apply guarda_ret |].
    apply (guarda_bind _ _ _ (λ _, True)); [apply callado_log |]. intros _ _.
    apply (guarda_bind _ _ _ (λ _, True)); [apply guarda_for_each; intros; apply callado_log |].
    intros _ _. destruct (10 <? _); [apply callado_log | by apply guarda_ret]. }
  intros _ _. apply guarda_try.
  - destruct (e_stats_error E); [apply guarda_raise | by apply guarda_ret].
  - intros e. apply callado_log.
Qed.

(** X14: with a batch size that is zero or negative, or a number of
    workers that is zero or negative, the script sends to nobody and
    [main] returns 1, whatever the retry file, the database and the
    transport do. *)
Theorem misconfigured_run_sends_nothing (cfg : config) (E : env) (w : world) :
  batch_size cfg ≤ 0 ∨ max_workers cfg ≤ 0 →
  sends (w_events (main cfg E w).1) = sends (w_events w)
  ∧ (main cfg E w).2 = Ok 1.
Proof.
  intros Hmis.
  assert (callado (main cfg E) (λ code, code = 1)) as Hmain.
  { unfold main. apply guarda_try.
    - eapply guarda_bind.
      { destruct (e_init_error E); [apply guarda_raise | apply callado_update]. }
      intros _ _. eapply guarda_bind; [apply callado_validar |]. intros valida _.
      destruct (negb valida).
      { eapply guarda_bind; [apply callado_log |]. intros _ _. by apply guarda_ret. }
      eapply guarda_bind; [by apply callado_envios |]. intros resultado Hres.
      eapply guarda_bind; [apply callado_reporte |]. intros _ _.
      destruct resultado as [error|r].
      { eapply guarda_bind; [apply callado_log |]. intros _ _. by apply guarda_ret. }
      destruct (Hres r eq_refl) as [Hex Htot]. rewrite Hex.
      destruct (Z.eqb_spec 0 (r_total_usuarios r)); [lia |]. cbn.
      eapply guarda_bind; [apply callado_log |]. intros _ _. by apply guarda_ret.
    - intros e. eapply guarda_bind; [apply callado_log |]. intros _ _.
      by apply guarda_ret. }
  destruct (Hmain w) as [Hsends Hcode]. split; [exact Hsends |].
  destruct (main cfg E w) as [w' [code|e]] eqn:Hrun; simpl in *.
  - by rewrite (Hcode code eq_refl).
  - exfalso. unfold main, try_except in Hrun.
    destruct (bind _ _ w) as [w1 [a|e1]]; [by injection Hrun |].
    unfold bind, log, ret in Hrun. simpl in Hrun. discriminate Hrun.
Qed.

(** ** The metrics of a fresh run agree with its summary *)

Lemma filter_relevante_app (evs1 evs2 : list event) :
  List.filter relevante (evs1 ++ evs2)
  = List.filter relevante evs1 ++ List.filter relevante evs2.
Proof. apply List.filter_app. Qed.

Lemma sends_relevante (evs : list event) :
  sends (List.filter relevante evs) = sends evs.
Proof.
  unfold sends. induction evs as [|ev evs IH]; [done |].
  rewrite (filter_step relevante).
  destruct ev; cbn [relevante]; rewrite !omap_step; by rewrite IH.
Qed.


Lemma huella_local {A} (m : M A) evs logs (r : res A) :
  local m [] evs logs r → List.filter relevante evs = [] →
  guarda huella m (λ _, True).
Proof.
  intros Hm Hevs w. pose proof (Hm w) as Hw.
  destruct (m w) as [w' r']. injection Hw as -> ->. split; [| done].
  unfold huella. simpl. by rewrite filter_relevante_app, Hevs, app_nil_r.
Qed.

Lemma huella_save (cfg : config) (E : env) (failed : list dict) (frase : dict) :
  guarda huella (save_failed_users cfg E failed frase) (λ _, True).
Proof.
  intros w. rewrite save_failed_users_run. split; [| done].
  unfold huella. destruct (e_write E); simpl; rewrite filter_relevante_app; simpl;
    by rewrite app_nil_r.
Qed.

Lemma slice_ok (usuarios : list dict) (i j : Z) :
  Forall usuario_ok usuarios → Forall usuario_ok (slice usuarios i j).
Proof. intros Hok. unfold slice. by apply Forall_take, Forall_drop. Qed.

(** A measure of the world that depends on its footprint only and that
    the worker of a fresh run keeps is kept by the whole dispatch of a
    fresh run. *)
Section Medida.
Context {T : Type} (f : world → T) (cfg : config) (E : env) (frase : dict).
Hypothesis f_huella : ∀ w w', huella w' = huella w → f w' = f w.
Hypothesis f_usuario :
  ∀ u, usuario_ok u → guarda f (procesar_usuario E u frase false) (λ _, True).

Lemma medida_quieta {A} (m : M A) (P : A → Prop) : guarda huella m P → guarda f m P.
Proof. intros Hm w. destruct (Hm w) as [Hh Hp]. split; [by apply f_huella | done]. Qed.

Lemma medida_procesar_lote (lote : list dict) :
  sched_ok E → Forall usuario_ok lote →
  guarda f (procesar_lote cfg E lote frase false) (λ _, True).
Proof.
  intros [Hexec _] Hok. unfold procesar_lote.
  destruct (max_workers cfg <=? 0); [apply guarda_raise |].
  eapply guarda_bind;
    [by apply medida_quieta; eapply huella_local; [apply local_emit |] |].
  intros _ _. eapply guarda_bind.
  { apply guarda_map_M. intros u Hu. eapply guarda_capture.
    apply f_usuario. rewrite Forall_forall in Hok. apply Hok.
    by rewrite <- (Hexec lote). }
  intros futures _. eapply guarda_bind.
  { destruct (recoger_local (e_done E futures) [] []) as [logs Hlocal].
    by apply medida_quieta; eapply huella_local; [exact Hlocal |]. }
  intros r _.
  eapply guarda_bind;
    [by apply medida_quieta; eapply huella_local; [apply local_emit |] |].
  intros _ _. by apply guarda_ret.
Qed.

Lemma medida_despacho (usuarios : list dict) (starts : list Z) :
  sched_ok E → Forall usuario_ok usuarios →
  guarda f (for_fold starts ([], []) (lote_envio cfg E usuarios frase)) (λ _, True).
Proof.
  intros Hsched Hok. apply guarda_for_fold. intros [ex fa] i _.
  unfold lote_envio.
  eapply guarda_bind; [apply medida_procesar_lote; [done | by apply slice_ok] |].
  intros [ex' fa'] _. by apply guarda_ret.
Qed.

Lemma medida_fresh_run (w w1 : world) (msg : string) (usuarios : list dict) :
  procesar_reintentos_diferidos cfg E w = (w1, Ok (Fallo msg)) →
  e_frase_dia E = Ok (Some frase) → e_active_users E = Ok usuarios → usuarios ≠ [] →
  dict_truthy frase = true →
  sched_ok E → Forall usuario_ok usuarios →
  f (procesar_envios cfg E w).1
  = f (with_metrics (MetricsCollector.set_total_usuarios (len usuarios)) w1).
Proof.
  intros Hretry Hfrase Husers Hne Htruthy Hsched Hok.
  unfold procesar_envios. rewrite (bind_eq _ _ _ _ _ Hretry). cbn beta iota.
  rewrite Hfrase, (bind_eq _ _ _ _ _ (lift_eq _ _)). cbn beta iota.
  rewrite Htruthy. cbn [negb].
  rewrite Husers, (bind_eq _ _ _ _ _ (lift_eq _ _)). cbn beta iota.
  destruct usuarios as [|u0 us]; [done |]. set (usuarios := u0 :: us) in *.
  rewrite (bind_eq _ _ _ _ _ (update_metrics_eq _ _)).
  match goal with
  | |- f (?k ?w0).1 = f ?w0 =>
      refine (proj1 ((_ : guarda f k (λ _, True)) w0))
  end.
  eapply guarda_bind; [by apply (guarda_lift _ _ (λ _, True)) |]. intros texto _.
  eapply guarda_bind; [by apply (guarda_lift _ _ (λ _, True)) |]. intros c50 _.
  eapply guarda_bind; [by apply (guarda_lift _ _ (λ _, True)) |]. intros starts _.
  eapply guarda_bind; [by apply medida_despacho |]. intros [ex fa] _.
  eapply guarda_bind.
  { destruct (filter _ fa); [by apply (guarda_ret _ tt (λ _, True)) |].
    eapply guarda_bind;
      [by apply medida_quieta; eapply huella_local; [apply local_log |] |].
    intros _ _. apply medida_quieta, huella_save. }
  intros _ _.
  eapply (guarda_bind _ _ _ (λ _, True)); [intros ?; by split |]. intros m _.
  eapply guarda_bind; [by apply (guarda_lift _ _ (λ _, True)) |]. intros fid _.
  eapply guarda_bind; [by apply (guarda_lift _ _ (λ _, True)) |]. intros texto' _.
  eapply guarda_bind; [by apply (guarda_lift _ _ (λ _, True)) |]. intros corto _.
  by apply guarda_ret.
Qed.

End Medida.

Lemma saldo_huella (E : env) (frase : dict) (w w' : world) :
  huella w' = huella w → saldo E frase w' = saldo E frase w.
Proof.
  unfold huella, saldo. intros [= Hm Hev].
  rewrite <- (sends_relevante (w_events w')), Hev, sends_relevante. by rewrite Hm.
Qed.

Lemma saldo_procesar_usuario (E : env) (frase usuario : dict) (is_retry : bool) :
  is_Some (frase !! "id") → usuario_ok usuario →
  guarda (saldo E frase) (procesar_usuario E usuario frase is_retry) (λ _, True).
Proof.
  intros [fid Hfid] ([uid Huid] & [email Hemail] & _) w. split; [| done].
  assert (∀ P : dict → bool,
            len (List.filter P (sends (w_events w) ++ [usuario]))
            = len (List.filter P (sends (w_events w))) + (if P usuario then 1 else 0))
    as Hcount.
  { intros P. unfold len. rewrite List.filter_app, length_app. simpl.
    destruct (P usuario); simpl; lia. }
  unfold procesar_usuario, try_except, bind, emit, lift, getitem, update_metrics,
    registrar_envio, emit, log, ret.
  rewrite Hfid, Huid, Hemail. simpl.
  destruct (e_send E frase usuario) as [[|]|e] eqn:Hs; simpl.
  - unfold saldo; simpl. rewrite !sends_app; simpl. rewrite app_nil_r, !Hcount.
    unfold enviado, fallo_de_envio, fallo_de_red. rewrite Hs. simpl.
    repeat (apply pair_equal_spec; split); lia.
  - unfold saldo; simpl. rewrite !sends_app; simpl. rewrite !Hcount.
    unfold enviado, fallo_de_envio, fallo_de_red. rewrite Hs. simpl.
    repeat (apply pair_equal_spec; split); lia.
  - unfold saldo; simpl. rewrite !sends_app; simpl. rewrite app_nil_r, !Hcount.
    unfold enviado, fallo_de_envio, fallo_de_red. rewrite Hs. simpl.
    destruct (is_network_error (exn_msg e)); simpl;
      repeat (apply pair_equal_spec; split); lia.
Qed.

(** The summary of a run holds the counters as they are when the run ends. *)
Lemma fresh_summary_metrics (cfg : config) (E : env) (w w' : world) (r : resumen) :
  procesar_envios cfg E w = (w', Ok (Exito r)) → r_is_retry r = false →
  MetricsCollector.counters (r_metricas r) = w_metrics w'
  ∧ r_errores_red r
    = Some (len (filter (λ item, marked_network item = true) (r_usuarios_fallidos r)))
  ∧ r_otros_errores r
    = Some (len (filter (λ item, marked_network item = false) (r_usuarios_fallidos r))).
Proof.
  unfold procesar_envios. intros H Hfresh.
  apply bind_ok_inv in H as (w1 & [msg|r0] & Hretry & H).
  2: { unfold ret in H. injection H as <- <-.
       destruct (retry_total_pos cfg E w w1 r0 Hretry) as [Hr _]. congruence. }
  apply bind_ok_inv in H as (? & [frase|] & _ & H).
  2: { apply bind_ok_inv in H as (? & ? & _ & H). by unfold ret in H. }
  destruct (dict_truthy frase); cbn [negb] in H.
  2: { apply bind_ok_inv in H as (? & ? & _ & H). by unfold ret in H. }
  apply bind_ok_inv in H as (? & usuarios & _ & H).
  destruct usuarios as [|u0 us].
  { apply bind_ok_inv in H as (? & ? & _ & H). by unfold ret in H. }
  apply bind_ok_inv in H as (? & ? & _ & H).
  apply bind_ok_inv in H as (? & ? & _ & H).
  apply bind_ok_inv in H as (? & ? & _ & H).
  apply bind_ok_inv in H as (? & ? & _ & H).
  apply bind_ok_inv in H as (? & [ex fa] & _ & H).
  apply bind_ok_inv in H as (w2 & ? & _ & H).
  apply bind_ok_inv in H as (w3 & m & Hget & H).
  unfold get_metrics in Hget. injection Hget as <- <-.
  apply bind_ok_inv in H as (? & fid & [_ ->]%lift_ok_inv & H).
  apply bind_ok_inv in H as (? & texto & [_ ->]%lift_ok_inv & H).
  apply bind_ok_inv in H as (? & corto & [_ ->]%lift_ok_inv & H).
  unfold ret in H. injection H as <- <-. done.
Qed.

Lemma filter_length_perm {A} (P : A → bool) (l1 l2 : list A) :
  l1 ≡ₚ l2 → length (List.filter P l1) = length (List.filter P l2).
Proof.
  induction 1 as [| x l1 l2 _ IH | x y l | l1 l2 l3 _ IH1 _ IH2]; simpl.
  - done.
  - destruct (P x); simpl; by rewrite IH.
  - by destruct (P x), (P y).
  - by rewrite IH1.
Qed.

Lemma registrados_length (E : env) (frase : dict) (usuarios : list dict) :
  let registrados := omap (fallo_registrado E frase) usuarios in
  length registrados = length (List.filter (fallo_de_envio E frase) usuarios)
  ∧ length (filter (λ item, marked_network item = true) registrados)
    = length (List.filter (fallo_de_red E frase) usuarios)
  ∧ length (filter (λ item, marked_network item = false) registrados)
    = length (List.filter (λ u, fallo_de_envio E frase u && negb (fallo_de_red E frase u))
                          usuarios).
Proof.
  induction usuarios as [|u us IH]; [done |].
  destruct IH as (IH1 & IH2 & IH3). cbn zeta.
  rewrite omap_step, !filter_step.
  destruct (e_send E frase u) as [b|e] eqn:Hs.
  { assert (fallo_registrado E frase u = None) as ->
      by (unfold fallo_registrado; by rewrite Hs).
    assert (fallo_de_envio E frase u = false) as ->
      by (unfold fallo_de_envio; by rewrite Hs).
    assert (fallo_de_red E frase u = false) as ->
      by (unfold fallo_de_red; by rewrite Hs).
    done. }
  assert (fallo_registrado E frase u
          = Some (error_dict (Some u) (job_msg E u e) (is_network_error (exn_msg e))))
    as -> by (unfold fallo_registrado; by rewrite Hs).
  assert (fallo_de_envio E frase u = true) as ->
    by (unfold fallo_de_envio; by rewrite Hs).
  assert (fallo_de_red E frase u = is_network_error (exn_msg e)) as ->
    by (unfold fallo_de_red; by rewrite Hs).
  destruct (error_dict_facts (Some u) (job_msg E u e) (is_network_error (exn_msg e)))
    as (_ & _ & Hmark & _). cbn zeta in Hmark.
  rewrite !filter_cons, Hmark.
  destruct (is_network_error (exn_msg e)); simpl; (split; [lia | split; lia]).
Qed.

Lemma outcomes_partition_le (E : env) (frase : dict) (usuarios : list dict) :
  (length (List.filter (enviado E frase) usuarios)
   + length (List.filter (fallo_de_envio E frase) usuarios) ≤ length usuarios)%nat.
Proof.
  induction usuarios as [|u us IH]; [done |]. rewrite !filter_step.
  unfold enviado at 1, fallo_de_envio at 1.
  destruct (e_send E frase u) as [[|]|e]; simpl; lia.
Qed.

Lemma retry_fallo_state (cfg : config) (E : env) (w w1 : world) (msg : string) :
  procesar_reintentos_diferidos cfg E w = (w1, Ok (Fallo msg)) →
  huella w1 = huella w.
Proof.
  unfold procesar_reintentos_diferidos. intros H.
  apply bind_ok_inv in H as (w0 & failed_data & Hload & H).
  pose proof (load_world E w) as (_ & He0 & Hm0). rewrite Hload in He0, Hm0.
  simpl in He0, Hm0.
  assert (huella w0 = huella w) as Hh0.
  { unfold huella. rewrite Hm0, He0, filter_relevante_app. simpl. by rewrite app_nil_r. }
  destruct failed_data as [data|].
  2: { unfold ret in H. by injection H as <- _. }
  apply bind_ok_inv in H as (w2 & usuarios & Hus & H).
  rewrite (usuarios_a_reintentar_local (failed_users data) w0) in Hus.
  injection Hus as <- _. rewrite apply_delta_nil in H.
  destruct usuarios as [|u0 us].
  - apply bind_ok_inv in H as (w3 & [] & Hclear & H).
    unfold ret in H. injection H as <- _.
    destruct (reconcile_retry cfg E [] (frase_data data) w0) as (w3' & Heq & _ & He3 & Hm3).
    rewrite Hclear in Heq. injection Heq as <-.
    rewrite <- Hh0. unfold huella.
    rewrite Hm3, He3, filter_relevante_app. simpl. by rewrite app_nil_r.
  - exfalso.
    apply bind_ok_inv in H as (? & ? & _ & H).
    apply bind_ok_inv in H as (? & ? & _ & H).
    apply bind_ok_inv in H as (? & [ex fa] & _ & H).
    apply bind_ok_inv in H as (? & ? & _ & H).
    apply bind_ok_inv in H as (? & ? & _ & H).
    apply bind_ok_inv in H as (? & ? & _ & H).
    apply bind_ok_inv in H as (? & ? & _ & H).
    apply bind_ok_inv in H as (? & ? & _ & H).
    by unfold ret in H.
Qed.

Lemma fresh_run_saldo (cfg : config) (E : env) (w w1 : world) (msg : string)
    (frase : dict) (usuarios : list dict) :
  procesar_reintentos_diferidos cfg E w = (w1, Ok (Fallo msg)) →
  e_frase_dia E = Ok (Some frase) → e_active_users E = Ok usuarios → usuarios ≠ [] →
  dict_truthy frase = true → is_Some (frase !! "id") →
  sched_ok E → Forall usuario_ok usuarios →
  saldo E frase (procesar_envios cfg E w).1
  = saldo E frase (with_metrics (MetricsCollector.set_total_usuarios (len usuarios)) w1).
Proof.
  intros Hretry Hfrase Husers Hne Htruthy Hid Hsched Hok.
  apply (medida_fresh_run (saldo E frase) cfg E frase) with (msg := msg); try done.
  - apply saldo_huella.
  - intros u Hu. by apply saldo_procesar_usuario.
Qed.

(** X15: the metrics of a fresh run agree with its summary.  When the
    pool runs each worker once and the users are as [get_active_users]
    returns them, the collector ends the run with the total of the
    summary, and during the run its counters of successes, failures,
    network errors and other errors grow by exactly the numbers that the
    summary reports; so the successes and failures counted are at most
    the total. *)
Theorem fresh_run_metrics_agree (cfg : config) (E : env) (w w1 : world) (msg : string)
    (frase : dict) (usuarios : list dict) (fid texto corto : pyval) :
  procesar_reintentos_diferidos cfg E w = (w1, Ok (Fallo msg)) →
  e_frase_dia E = Ok (Some frase) → e_active_users E = Ok usuarios → usuarios ≠ [] →
  frase !! "id" = Some fid →
  frase !! "frase" = Some texto → slice_to 100 texto = Ok corto →
  0 < batch_size cfg → 0 < max_workers cfg → sched_ok E →
  Forall usuario_ok usuarios →
  ∃ w' r,
    procesar_envios cfg E w = (w', Ok (Exito r))
    ∧ let c := MetricsCollector.counters (r_metricas r) in
      let m0 := w_metrics w in
      c = w_metrics w'
      ∧ MetricsCollector.total_usuarios c = r_total_usuarios r
      ∧ MetricsCollector.exitosos c = MetricsCollector.exitosos m0 + r_exitosos r
      ∧ MetricsCollector.fallidos c = MetricsCollector.fallidos m0 + r_fallidos r
      ∧ r_errores_red r
        = Some (MetricsCollector.errores_red c - MetricsCollector.errores_red m0)
      ∧ r_otros_errores r
        = Some (MetricsCollector.otros_errores c - MetricsCollector.otros_errores m0)
      ∧ r_exitosos r + r_fallidos r ≤ r_total_usuarios r.
Proof.
  intros Hretry Hfrase Husers Hne Hid Hfr Hcorto Hb Hw Hsched Hok.
  destruct (fresh_run cfg E w w1 msg frase usuarios fid texto corto)
    as (w' & r & Hrun & Hfresh & _ & Htotal & Hex & Hfa & Hnex & Hnfa & _ & Hsends & _);
    try done.
  exists w', r. split; [done |]. cbn zeta.
  destruct (fresh_summary_metrics cfg E w w' r Hrun Hfresh) as (Hc & Hred & Hotros).
  pose proof (retry_fallo_state cfg E w w1 msg Hretry) as Hm1.
  unfold huella in Hm1. injection Hm1 as Hm1 _.
  pose proof (fresh_run_saldo cfg E w w1 msg frase usuarios Hretry Hfrase Husers Hne
                (dict_truthy_lookup _ _ _ Hid) (mk_is_Some _ _ Hid) Hsched Hok) as Hsaldo.
  rewrite Hrun in Hsaldo. cbn [fst] in Hsaldo. unfold saldo in Hsaldo.
  cbn [with_metrics w_metrics w_events MetricsCollector.set_total_usuarios
       MetricsCollector.exitosos MetricsCollector.fallidos MetricsCollector.errores_red
       MetricsCollector.otros_errores MetricsCollector.total_usuarios] in Hsaldo.
  rewrite Hsends, !List.filter_app in Hsaldo. unfold len in Hsaldo.
  rewrite !length_app in Hsaldo.
  pose proof (sends_dispatch_perm cfg E usuarios Hb Hsched) as Hperm.
  rewrite !(filter_length_perm _ _ _ Hperm) in Hsaldo.
  destruct (despacho_outcomes cfg E frase false usuarios Hb Hsched) as [Hdex Hdfa];
    [by rewrite Hid | done |].
  rewrite <- Hex in Hdex. rewrite <- Hfa in Hdfa.
  destruct (registrados_length E frase usuarios) as (Hl1 & Hl2 & Hl3).
  cbn zeta in Hl1, Hl2, Hl3.
  assert (length (r_usuarios_exitosos r)
          = length (List.filter (enviado E frase) usuarios)) as Hlex
    by (by rewrite Hdex).
  assert (length (r_usuarios_fallidos r)
          = length (List.filter (fallo_de_envio E frase) usuarios)) as Hlfa
    by (by rewrite Hdfa, Hl1).
  assert (length (filter (λ item, marked_network item = true) (r_usuarios_fallidos r))
          = length (List.filter (fallo_de_red E frase) usuarios)) as Hlred
    by (by rewrite Hdfa, Hl2).
  assert (length (filter (λ item, marked_network item = false) (r_usuarios_fallidos r))
          = length (List.filter (λ u, fallo_de_envio E frase u
                                      && negb (fallo_de_red E frase u)) usuarios))
    as Hlotros by (by rewrite Hdfa, Hl3).
  assert (r_exitosos r = Z.of_nat (length (r_usuarios_exitosos r))) as Hrex
    by (by rewrite Hnex, Hex).
  assert (r_fallidos r = Z.of_nat (length (r_usuarios_fallidos r))) as Hrfa
    by (by rewrite Hnfa, Hfa).
  pose proof (outcomes_partition_le E frase usuarios) as Hle.
  rewrite Hc, Hred, Hotros, Hrex, Hrfa, Htotal, <- Hm1. unfold len.
  rewrite Hlex, Hlfa, Hlred, Hlotros.
  injection Hsaldo as H1 H2 H3 H4 H5.
  split; [done |]. split; [done |]. split; [lia |]. split; [lia |].
  split; [f_equal; lia |]. split; [f_equal; lia |]. lia.
Qed.

(** ** The rows of trazabilidad_envio written by a fresh run *)

Lemma registros_app (resultado : string) (evs1 evs2 : list event) :
  registros resultado (evs1 ++ evs2)
  = registros resultado evs1 + registros resultado evs2.
Proof. unfold registros, len. rewrite List.filter_app, length_app. lia. Qed.




(** ** A user record without an e-mail address *)

Lemma enviar_correo_sin_email (smtp : Z → dict → dict → res unit) (frase usuario : dict) :
  usuario !! "email" = None →
  EmailService.enviar_correo smtp frase usuario = Raise (KeyError "email").
Proof.
  intros Hsin. unfold EmailService.enviar_correo. cbn [EmailService.intentos].
  unfold EmailService.un_intento, getitem. by rewrite Hsin.
Qed.

(** X17: a user record without an ['email'], with the transport of the
    repository.  The worker raises KeyError out of its own handler, so
    the batch reports the failure without its usuario and not as a network
    failure: it can never be retried; the collector counts nothing and no
    row is written to trazabilidad_envio. *)
Theorem user_without_email_is_not_counted (cfg : config) (E : env)
    (smtp : Z → dict → dict → res unit) (frase usuario : dict) (is_retry : bool)
    (w : world) :
  (∀ f u, e_send E f u = EmailService.enviar_correo smtp f u) →
  usuario !! "email" = None →
  0 < max_workers cfg → sched_ok E →
  procesar_usuario E usuario frase is_retry w
  = (add_event (EvSend frase usuario) w, Raise (KeyError "email"))
  ∧ ∃ w' item,
      procesar_lote cfg E [usuario] frase is_retry w = (w', Ok ([], [item]))
      ∧ item = error_dict None "'email'" false
      ∧ usuario_de item = None
      ∧ marked_network item = false
      ∧ w_metrics w' = w_metrics w
      ∧ (∀ resultado, registros resultado (w_events w') = registros resultado (w_events w))
      ∧ w_log w' = w_log w ++ [(ERROR, "Error en procesamiento paralelo: 'email'")].
Proof.
  intros Hsend Hsin Hw [Hexec Hdone].
  assert (∀ w0, procesar_usuario E usuario frase is_retry w0
                = (add_event (EvSend frase usuario) w0, Raise (KeyError "email"))) as Huser.
  { intros w0. unfold procesar_usuario, try_except, bind, emit, lift, getitem.
    rewrite Hsend, (enviar_correo_sin_email smtp frase usuario Hsin). simpl.
    by rewrite Hsin. }
  split; [apply Huser |].
  assert (e_exec E [usuario] = [usuario]) as Hex1
    by (apply Permutation_length_1_inv; symmetry; apply Hexec).
  assert (∀ r : job_result, e_done E [r] = [r]) as Hdone1
    by (intros r; apply Permutation_length_1_inv; symmetry; apply Hdone).
  unfold procesar_lote.
  destruct (Z.leb_spec (max_workers cfg) 0) as [Hle | _]; [lia |].
  rewrite Hex1. unfold bind at 1. unfold emit at 1. cbn [map_M].
  unfold bind at 1. unfold bind at 1. unfold capture. rewrite Huser.
  unfold bind at 1. unfold ret at 1. unfold ret at 1. cbn iota beta.
  rewrite Hdone1. cbn [for_fold recoger]. unfold bind, log, ret, emit. cbn.
  eexists _, _. split; [reflexivity |]. split; [reflexivity |].
  destruct (error_dict_facts None "'email'" false) as (_ & _ & Hmark & Hde).
  cbn zeta in Hmark, Hde. split; [exact Hde |]. split; [exact Hmark |].
  split; [done |]. split; [| done].
  intros resultado. cbn [w_events add_event add_log].
  rewrite !registros_app. unfold registros, len. simpl. lia.
Qed.

(** ** Instances *)

(** An equation between closed terms, checked by evaluating both sides. *)
Ltac vm_refl :=
  lazymatch goal with
  | |- @eq ?T ?x ?y => exact (@eq_refl T y <: @eq T x y)
  end.

Lemma C5_save_then_load_witness :
  let E := env_ejemplo sin_red (Some frase_ejemplo) [ana; bruno; carla] 0 in
  let E' := env_ejemplo sin_red (Some frase_ejemplo) [ana; bruno; carla] (31 * minuto) in
  let failed := [error_dict (Some ana) "Network is unreachable" true] in
  let w1 := (save_failed_users default_config E failed frase_ejemplo blank).1 in
  (load_failed_users E w1).2 = Ok None
  ∧ ∃ data, (load_failed_users E' w1).2 = Ok (Some data)
            ∧ failed_users data = failed ∧ frase_data data = frase_ejemplo.
Proof.
  intros E E' failed w1.
  pose proof (C5_save_then_load default_config E E failed frase_ejemplo blank
                eq_refl eq_refl) as (_ & _ & _ & _ & Hnow & _).
  pose proof (C5_save_then_load default_config E E' failed frase_ejemplo blank
                eq_refl eq_refl) as (_ & _ & _ & _ & _ & Hdue).
  split.
  - apply Hnow; [reflexivity | reflexivity].
  - apply Hdue. by vm_compute.
Defined.

Lemma C9_batches_in_order_witness :
  let E := env_ejemplo con_red (Some frase_ejemplo) [ana; bruno; carla] 0 in
  let cfg := {| max_retries := 3; batch_size := 2; max_workers := 5;
                retry_delay_minutes := 30 |} in
  lotes cfg [ana; bruno; carla] = [[ana; bruno]; [carla]]
  ∧ ∃ w', pool_trace (w_events w')
          = [ EvPoolOpen 5; EvSend frase_ejemplo bruno; EvSend frase_ejemplo ana; EvPoolJoin;
              EvPoolOpen 5; EvSend frase_ejemplo carla; EvPoolJoin ].
Proof.
  intros E cfg.
  assert (lotes cfg [ana; bruno; carla] = [[ana; bruno]; [carla]]) as Hlotes by vm_refl.
  split; [exact Hlotes |].
  destruct (C9_batches_in_order cfg E [ana; bruno; carla] frase_ejemplo false blank)
    as (starts & w' & _ & _ & _ & _ & _ & Htrace & _).
  - reflexivity.
  - reflexivity.
  - intros l. simpl. symmetry. apply Permutation_rev.
  - exists w'. rewrite Htrace, Hlotes. reflexivity.
Defined.

(** A fresh run that finds a record not yet due and delivers to every
    user: no network failure remains, and the store is not cleared. *)
Lemma C4_fresh_run_does_not_clear :
  let E := env_ejemplo con_red (Some frase_ejemplo) [ana; bruno; carla] 0 in
  let run := procesar_envios default_config E mundo_con_registro in
  match run.2 with
  | Ok (Exito r) =>
      r_is_retry r = false
      ∧ filter (λ item, marked_network item = true) (r_usuarios_fallidos r) = []
  | _ => False
  end
  ∧ store_trace (w_events run.1) = [EvLoad]
  ∧ w_file run.1 = Some (Saved registro_ejemplo)
  ∧ w_file run.1 ≠ None.
Proof.
  intros E run.
  assert (from_option (λ _, true) false (resumen_de run) = true) as Hsome by vm_refl.
  assert (r_is_retry <$> resumen_de run = Some false) as Hfresh by vm_refl.
  assert ((λ r, filter (λ item, marked_network item = true) (r_usuarios_fallidos r))
            <$> resumen_de run = Some []) as Hnf by vm_refl.
  assert (w_file run.1 = Some (Saved registro_ejemplo)) as Hfile by vm_refl.
  split.
  { unfold resumen_de in Hsome, Hfresh, Hnf.
    destruct run.2 as [[msg|r]|e]; [discriminate Hsome | | discriminate Hsome].
    injection Hfresh as Hfresh. injection Hnf as Hnf. by split. }
  split; [vm_refl |]. split; [exact Hfile |].
  rewrite Hfile. discriminate.
Qed.

Lemma C4_reconcile_witness :
  let E := env_ejemplo sin_red (Some frase_ejemplo) [ana; bruno; carla] 0 in
  ∃ w' r, procesar_envios default_config E blank = (w', Ok (Exito r))
          ∧ r_is_retry r = false
          ∧ ∃ record, w_file w' = Some (Saved record)
                      ∧ failed_users record
                        = filter (λ item, marked_network item = true)
                                 (r_usuarios_fallidos r).
Proof.
  intros E.
  assert (from_option (λ _, true) false
            (resumen_de (procesar_envios default_config E blank)) = true) as Hsome
    by vm_refl.
  assert (r_is_retry <$> resumen_de (procesar_envios default_config E blank)
          = Some false) as Hfresh by vm_refl.
  assert ((λ r, length (filter (λ item, marked_network item = true)
                               (r_usuarios_fallidos r)))
            <$> resumen_de (procesar_envios default_config E blank)
          = Some 3%nat) as Hnf by vm_refl.
  destruct (procesar_envios default_config E blank) as [w' [[msg|r]|e]] eqn:Hrun;
    [discriminate Hsome | | discriminate Hsome].
  injection Hfresh as Hfresh. injection Hnf as Hnf.
  exists w', r. split; [done |]. split; [done |].
  destruct (C4_reconcile default_config E blank w' r eq_refl eq_refl Hrun) as [_ Hc].
  destruct (Hc Hfresh) as (frase & w1 & msg & _ & _ & _ & _ & Hfile).
  destruct (filter (λ item, marked_network item = true) (r_usuarios_fallidos r))
    as [|item nf] eqn:Hfilter; [discriminate Hnf |].
  rewrite Hfile. eexists. split; reflexivity.
Defined.

Lemma usuarios_ejemplo_ok : Forall usuario_ok [ana; bruno; carla].
Proof.
  repeat constructor; (eexists; reflexivity) || reflexivity.
Qed.

Lemma sched_ok_ejemplo send frase usuarios now :
  sched_ok (env_ejemplo send frase usuarios now).
Proof.
  split; intros l; simpl; [symmetry; apply Permutation_rev | done].
Qed.

(** C1 at a failing input: the transport of the repository with an SMTP
    server that refuses every attempt.  The run ends with a summary over
    three users in which nobody succeeded and nobody failed, in the lists
    and in the counters of the collector. *)
Theorem C1_unsent_users_in_no_category :
  let E := env_ejemplo (EmailService.enviar_correo smtp_caido) (Some frase_ejemplo)
             [ana; bruno; carla] 0 in
  match (procesar_envios default_config E blank).2 with
  | Ok (Exito r) =>
      r_total_usuarios r = 3
      ∧ r_usuarios_exitosos r = [] ∧ r_usuarios_fallidos r = []
      ∧ r_exitosos r + r_fallidos r = 0
      ∧ MetricsCollector.total_usuarios (MetricsCollector.counters (r_metricas r)) = 3
      ∧ MetricsCollector.exitosos (MetricsCollector.counters (r_metricas r))
        + MetricsCollector.fallidos (MetricsCollector.counters (r_metricas r)) = 0
  | _ => False
  end
  ∧ sends (w_events (procesar_envios default_config E blank).1) = [carla; bruno; ana]
  ∧ w_file (procesar_envios default_config E blank).1 = None.
Proof.
  intros E.
  set (run := procesar_envios default_config E blank).
  set (counters := λ r, MetricsCollector.counters (r_metricas r)).
  assert (from_option (λ _, true) false (resumen_de run) = true) as Hsome by vm_refl.
  assert (r_total_usuarios <$> resumen_de run = Some 3) as Htotal by vm_refl.
  assert (r_usuarios_exitosos <$> resumen_de run = Some []) as Hex by vm_refl.
  assert (r_usuarios_fallidos <$> resumen_de run = Some []) as Hfa by vm_refl.
  assert ((λ r, r_exitosos r + r_fallidos r) <$> resumen_de run = Some 0) as Hsum
    by vm_refl.
  assert ((λ r, MetricsCollector.total_usuarios (counters r)) <$> resumen_de run
          = Some 3) as Hmt by vm_refl.
  assert ((λ r, MetricsCollector.exitosos (counters r)
                + MetricsCollector.fallidos (counters r)) <$> resumen_de run
          = Some 0) as Hms by vm_refl.
  split; [| split; vm_refl].
  unfold resumen_de in Hsome, Htotal, Hex, Hfa, Hsum, Hmt, Hms.
  destruct run.2 as [[msg|r]|e]; [discriminate Hsome | | discriminate Hsome].
  injection Htotal as Htotal. injection Hex as Hex. injection Hfa as Hfa.
  injection Hsum as Hsum. injection Hmt as Hmt. injection Hms as Hms.
  repeat (split; [assumption |]). assumption.
Qed.



(** A run with no frase for today: the configuration is valid, nothing is
    stored, nothing is sent, and [main] returns 1. *)
Lemma C3_no_work_exits_1 :
  let E := env_ejemplo con_red None [ana; bruno; carla] 0 in
  e_frase_dia E = Ok None
  ∧ config_valida E = true
  ∧ (procesar_envios default_config E (inicio E blank)).2 = Ok (Fallo "No hay frase para hoy")
  ∧ sends (w_events (main default_config E blank).1) = []
  ∧ (main default_config E blank).2 = Ok 1
  ∧ (main default_config E blank).2 ≠ Ok 0.
Proof.
  intros E.
  assert ((main default_config E blank).2 = Ok 1) as Hmain by vm_refl.
  split; [vm_refl |]. split; [vm_refl |]. split; [vm_refl |]. split; [vm_refl |].
  split; [exact Hmain |].
  rewrite Hmain. discriminate.
Qed.

Lemma C10_unsent_user_is_dropped_witness :
  let E := env_ejemplo (EmailService.enviar_correo smtp_caido) (Some frase_ejemplo)
             [ana; bruno; carla] 0 in
  e_send E frase_ejemplo bruno = Ok false
  ∧ ∃ w' r, procesar_envios default_config E blank = (w', Ok (Exito r))
            ∧ (bruno ∉ r_usuarios_exitosos r)
            ∧ r_exitosos r + r_fallidos r < r_total_usuarios r.
Proof.
  intros E.
  destruct (C10_unsent_user_is_dropped default_config E smtp_caido frase_ejemplo bruno
              [ana; bruno; carla] blank (load_failed_users E blank).1
              "No hay reintentos pendientes" (PInt 31) (PStr "Sleep on it...")
              (PStr "Sleep on it..."))
    as (Hs & _ & _ & w' & r & nf & Hrun & Hex & _ & Hlt & _).
  - intros f u. reflexivity.
  - intros intento. eexists. reflexivity.
  - apply sched_ok_ejemplo.
  - vm_refl || reflexivity.
  - vm_refl || reflexivity.
  - apply nothing_due. vm_refl.
  - vm_refl || reflexivity.
  - vm_refl || reflexivity.
  - vm_refl || reflexivity.
  - vm_refl || reflexivity.
  - vm_refl || reflexivity.
  - apply usuarios_ejemplo_ok.
  - right. left.
  - split; [exact Hs |]. exists w', r. repeat split; assumption.
Defined.

Lemma despacho_partition_witness :
  let E := env_ejemplo con_red (Some frase_ejemplo) [ana; bruno; carla] 0 in
  let d := despacho default_config E frase_ejemplo false [ana; bruno; carla] in
  d.1 ++ omap usuario_de d.2 ≡ₚ [ana; bruno; carla]
  ∧ (length d.1 + length d.2 = 3)%nat.
Proof.
  intros E d.
  destruct (despacho_partition default_config E frase_ejemplo false [ana; bruno; carla])
    as (Hp & Hl & _).
  - reflexivity.
  - apply sched_ok_ejemplo.
  - eexists. reflexivity.
  - apply usuarios_ejemplo_ok.
  - intros u _ H. discriminate H.
  - split; [exact Hp | exact Hl].
Defined.

Lemma con_email_ejemplo : Forall (λ u : dict, is_Some (u !! "email")) [ana; bruno; carla].
Proof. repeat constructor; eexists; reflexivity. Qed.

Lemma store_operations_compose_witness :
  let E1 := env_ejemplo sin_red (Some frase_ejemplo) [ana; bruno; carla] 0 in
  let E2 := env_ejemplo sin_red (Some frase_ejemplo) [ana; bruno; carla] (1 * minuto) in
  let E3 := env_ejemplo con_red (Some frase_ejemplo) [ana; bruno; carla] (31 * minuto) in
  let failed1 := [error_dict (Some ana) "Network is unreachable" true] in
  let failed2 := [error_dict (Some bruno) "Network is unreachable" true] in
  let w1 := (save_failed_users default_config E1 failed1 frase_ejemplo blank).1 in
  let w2 := (save_failed_users default_config E2 failed2 frase_ejemplo w1).1 in
  ∃ data,
    (load_failed_users E3 w2).2 = Ok (Some data)
    ∧ failed_users data = failed2
    ∧ timestamp data = 1 * minuto
    ∧ (load_failed_users E3 (load_failed_users E3 w2).1).2 = Ok (Some data).
Proof.
  intros E1 E2 E3 failed1 failed2 w1 w2.
  destruct (store_operations_compose default_config E1 E2 E3 failed1 failed2
              frase_ejemplo frase_ejemplo blank)
    as (data & Hload & Hfailed & _ & Hstamp & _ & Hagain & _).
  - reflexivity.
  - reflexivity.
  - reflexivity.
  - reflexivity.
  - by vm_compute.
  - exists data. repeat split; assumption.
Defined.

Lemma enviar_masivo_counts_witness :
  ∃ pasos resultados,
    EmailServiceExt.enviar_masivo (smtp_rechaza "bruno@example.com") frase_ejemplo
      [ana; bruno; carla] = (pasos, Ok resultados)
    ∧ EmailServiceExt.c_total resultados = 3
    ∧ EmailServiceExt.c_exitosos resultados + EmailServiceExt.c_fallidos resultados = 3
    ∧ EmailServiceExt.c_fallidos resultados = 1
    ∧ EmailServiceExt.enviados pasos = [ana; bruno; carla]
    ∧ EmailServiceExt.pausas pasos = 2.
Proof.
  destruct (enviar_masivo_counts (smtp_rechaza "bruno@example.com") frase_ejemplo
              [ana; bruno; carla] con_email_ejemplo)
    as (pasos & resultados & Hrun & Htotal & _ & Hfa & Hsum & Henv & Hpau).
  exists pasos, resultados. split; [exact Hrun |]. split; [exact Htotal |].
  split; [rewrite Hsum; exact Htotal |]. split; [rewrite Hfa; vm_refl |].
  split; [exact Henv |]. rewrite Hpau. vm_refl.
Defined.

Lemma enviar_masivo_missing_email_witness :
  ∃ pasos,
    EmailServiceExt.enviar_masivo smtp_caido frase_ejemplo [ana; sin_email; carla]
    = (pasos, Raise (KeyError "email"))
    ∧ EmailServiceExt.enviados pasos = [ana].
Proof.
  apply (enviar_masivo_missing_email smtp_caido frase_ejemplo [ana] [carla] sin_email).
  - repeat constructor. eexists. reflexivity.
  - reflexivity.
Defined.

Lemma due_record_is_the_whole_run_witness :
  let E := env_ejemplo con_red (Some frase_ejemplo) [ana; bruno; carla] (31 * minuto) in
  ∃ w' r nuevos,
    procesar_envios default_config E mundo_con_registro = (w', Ok (Exito r))
    ∧ r_is_retry r = true
    ∧ r_total_usuarios r = 1
    ∧ envios (w_events w') = nuevos
    ∧ nuevos ≡ₚ [(frase_ejemplo, ana)].
Proof.
  intros E.
  destruct (due_record_is_the_whole_run default_config E mundo_con_registro
              registro_ejemplo [ana] (PInt 31) (PStr "Sleep on it...")
              (PStr "Sleep on it..."))
    as (w' & r & nuevos & _ & Hrun & Hretry & _ & Htotal & Henvios & Hperm).
  - reflexivity.
  - reflexivity.
  - by vm_compute.
  - vm_refl.
  - done.
  - vm_refl.
  - vm_refl.
  - vm_refl.
  - reflexivity.
  - reflexivity.
  - apply sched_ok_ejemplo.
  - exists w', r, nuevos. repeat split; assumption.
Defined.

Lemma fresh_run_stores_the_network_failures_witness :
  let E := env_ejemplo sin_red (Some frase_ejemplo) [ana; bruno; carla] 0 in
  ∃ w' r,
    procesar_envios default_config E blank = (w', Ok (Exito r))
    ∧ omap usuario_de (filter (λ item, marked_network item = true)
                              (r_usuarios_fallidos r))
      ≡ₚ [ana; bruno; carla]
    ∧ r_errores_red r = Some 3.
Proof.
  intros E.
  destruct (fresh_run_stores_the_network_failures default_config E blank
              (load_failed_users E blank).1 "No hay reintentos pendientes"
              frase_ejemplo [ana; bruno; carla] (PInt 31) (PStr "Sleep on it...")
              (PStr "Sleep on it..."))
    as (w' & r & Hrun & Hus & Hlen & Hred & _).
  - apply nothing_due. vm_refl.
  - vm_refl.
  - vm_refl.
  - done.
  - vm_refl.
  - vm_refl.
  - vm_refl.
  - reflexivity.
  - reflexivity.
  - apply sched_ok_ejemplo.
  - apply usuarios_ejemplo_ok.
  - exists w', r. split; [exact Hrun |]. split; [exact Hus |].
    rewrite Hred. unfold len. rewrite Hlen. vm_refl.
Defined.


Lemma misconfigured_run_sends_nothing_witness :
  let E := env_ejemplo con_red (Some frase_ejemplo) [ana; bruno; carla] 0 in
  let cfg := {| max_retries := 3; batch_size := 0; max_workers := 5;
                retry_delay_minutes := 30 |} in
  sends (w_events (main cfg E blank).1) = []
  ∧ (main cfg E blank).2 = Ok 1.
Proof.
  intros E cfg.
  destruct (misconfigured_run_sends_nothing cfg E blank) as [Hsends Hcode].
  - left. reflexivity.
  - split; [exact Hsends | exact Hcode].
Defined.

Lemma fresh_run_metrics_agree_witness :
  let E := env_ejemplo sin_red (Some frase_ejemplo) [ana; bruno; carla] 0 in
  ∃ w' r,
    procesar_envios default_config E blank = (w', Ok (Exito r))
    ∧ MetricsCollector.total_usuarios (MetricsCollector.counters (r_metricas r))
      = r_total_usuarios r
    ∧ MetricsCollector.exitosos (MetricsCollector.counters (r_metricas r)) = r_exitosos r
    ∧ MetricsCollector.fallidos (MetricsCollector.counters (r_metricas r)) = r_fallidos r.
Proof.
  intros E.
  destruct (fresh_run_metrics_agree default_config E blank
              (load_failed_users E blank).1 "No hay reintentos pendientes"
              frase_ejemplo [ana; bruno; carla] (PInt 31) (PStr "Sleep on it...")
              (PStr "Sleep on it..."))
    as (w' & r & Hrun & _ & Htotal & Hex & Hfa & _).
  - apply nothing_due. vm_refl.
  - vm_refl.
  - vm_refl.
  - done.
  - vm_refl.
  - vm_refl.
  - vm_refl.
  - reflexivity.
  - reflexivity.
  - apply sched_ok_ejemplo.
  - apply usuarios_ejemplo_ok.
  - exists w', r. split; [exact Hrun |]. split; [exact Htotal |].
    split; [exact Hex | exact Hfa].
Defined.


Lemma user_without_email_is_not_counted_witness :
  let E := env_ejemplo (EmailService.enviar_correo smtp_caido) (Some frase_ejemplo)
             [sin_email] 0 in
  ∃ w' item,
    procesar_lote default_config E [sin_email] frase_ejemplo false blank
    = (w', Ok ([], [item]))
    ∧ usuario_de item = None
    ∧ marked_network item = false
    ∧ w_metrics w' = w_metrics blank.
Proof.
  intros E.
  destruct (user_without_email_is_not_counted default_config E smtp_caido frase_ejemplo
              sin_email false blank)
    as (_ & w' & item & Hrun & _ & Hde & Hmark & Hmet & _).
  - intros f u. reflexivity.
  - reflexivity.
  - reflexivity.
  - apply sched_ok_ejemplo.
  - exists w', item. repeat split; assumption.
Defined.
